(** * FORE token ledger and gamification engine (apps/rewards)

    Shallow embedding of [apps/rewards/models.py], [apps/rewards/signals.py]
    and [apps/rewards/views.py].

    Token amounts are Python [Decimal] values with two decimal places
    ([DecimalField(max_digits=12, decimal_places=2)]); they are represented
    exactly as an integer number of hundredths in [Z], and a wallet row is
    saved only if its amounts fit the twelve digits of their columns.  Integer model fields
    ([PositiveIntegerField]) are [Z] as well.  Rows of a database table are
    kept in a list in creation order.  The database runs in autocommit mode
    (no [transaction.atomic] anywhere), so every write that happened before
    an exception is raised stays in the store: a computation returns its
    outcome together with the store it leaves behind. *)

From Stdlib Require Import ZArith Lia.
From stdpp Require Import base option list sorting gmap strings pretty.

Local Open Scope Z_scope.

(** ** Exceptions and outcomes *)

Inductive exn : Type :=
  | ValueError (msg : string)
  | DoesNotExist
  | IntegrityError
  | InvalidOperation.

Inductive outcome (A : Type) : Type :=
  | Ok (a : A)
  | Raise (e : exn).
Arguments Ok {A} a.
Arguments Raise {A} e.

(** [Decimal(str(n))] of an integer field value [n], in hundredths. *)
Definition Decimal (n : Z) : Z := n * 100.

(** [raise ValueError("La cantidad debe ser positiva")] of [add_tokens]. *)
Definition InvalidAmount : exn := ValueError "La cantidad debe ser positiva".
(** [raise ValueError("Balance insuficiente")] of [spend_tokens]. *)
Definition InsufficientBalance : exn := ValueError "Balance insuficiente".

(** [DecimalField(max_digits=12, decimal_places=2)]: a value is written to
    its column only if it has at most twelve digits, that is, if its
    absolute value is below 10^10, which is 10^12 hundredths.  Saving a
    row with a larger value raises [decimal.InvalidOperation] (the
    PostgreSQL backend reports the same condition as a numeric field
    overflow) and writes nothing. *)
Definition max_amount : Z := 1000000000000.

Definition fits (v : Z) : bool := bool_decide (- max_amount < v < max_amount).

(** ** Ledger: wallets and transactions *)

Definition user_id := nat.
Bind Scope nat_scope with user_id.

Inductive TransactionType : Type :=
  | EARNED | SPENT
  | LESSON_COMPLETED | QUIZ_PASSED | COURSE_COMPLETED | ACHIEVEMENT_EARNED
  | DAILY_LOGIN | REFERRAL_BONUS | ADMIN_BONUS
  | REWARD_PURCHASE | PREMIUM_FEATURE | MARKETPLACE_PURCHASE
  | TRANSFER_IN | TRANSFER_OUT | REFUND | ADJUSTMENT.

#[global] Instance TransactionType_eq_dec : EqDecision TransactionType.
Proof. solve_decision. Defined.

Record FOREWallet : Type := mkWallet {
  w_user : user_id;
  balance : Z;
  total_earned : Z;
  total_spent : Z;
  frozen_amount : Z
}.

Record Transaction : Type := mkTransaction {
  t_user : user_id;
  transaction_type : TransactionType;
  amount : Z;
  balance_after : Z;
  t_description : string;
  related_course : option nat;
  related_lesson : option nat;
  related_quiz : option nat;
  related_achievement : option nat
}.

(** [FOREWallet.objects.create(user=u)]: every amount at its default 0.00. *)
Definition new_wallet (u : user_id) : FOREWallet :=
  mkWallet u 0 0 0 0.

(** [Transaction.objects.create(user, transaction_type, amount,
    balance_after, description)]: the four references default to NULL. *)
Definition Transaction_create (u : user_id) (ty : TransactionType)
    (amt bal : Z) (descr : string) : Transaction :=
  mkTransaction u ty amt bal descr None None None None.

Definition available_balance (self : FOREWallet) : Z :=
  balance self - frozen_amount self.

Definition can_spend (self : FOREWallet) (amt : Z) : bool :=
  bool_decide (amt ≤ available_balance self).

(** Whether [self.save()] can write the wallet row: each of its four
    amounts has to fit its column. *)
Definition savable (self : FOREWallet) : bool :=
  fits (balance self) && fits (total_earned self)
  && fits (total_spent self) && fits (frozen_amount self).

(** [FOREWallet.add_tokens]: the wallet row after [self.save()], the row
    handed to [Transaction.objects.create] and the returned balance.  When
    the new amounts do not fit, [self.save()] raises and nothing has been
    written.  The transaction row stores the balance just saved and the
    amount that was added to [total_earned]; it is written to columns of the
    same type, which hold it whenever the wallet's totals were not negative
    ([transaction_row_fits]). *)
Definition add_tokens (self : FOREWallet) (amt : Z) (descr : string)
    (ty : TransactionType) : outcome (FOREWallet * Transaction * Z) :=
  if bool_decide (amt ≤ 0) then Raise InvalidAmount
  else
    let self' := mkWallet (w_user self) (balance self + amt)
                          (total_earned self + amt) (total_spent self)
                          (frozen_amount self) in
    if negb (savable self') then Raise InvalidOperation
    else
      Ok (self',
          Transaction_create (w_user self) ty amt (balance self') descr,
          balance self').

(** [FOREWallet.spend_tokens]; [self.save()] and the transaction row as
    in [add_tokens]. *)
Definition spend_tokens (self : FOREWallet) (amt : Z) (descr : string)
    (ty : TransactionType) : outcome (FOREWallet * Transaction * Z) :=
  if negb (can_spend self amt) then Raise InsufficientBalance
  else
    let self' := mkWallet (w_user self) (balance self - amt)
                          (total_earned self) (total_spent self + amt)
                          (frozen_amount self) in
    if negb (savable self') then Raise InvalidOperation
    else
      Ok (self',
          Transaction_create (w_user self) ty (- amt) (balance self') descr,
          balance self').

(** The wallet rows that [add_tokens] and [spend_tokens] hand to
    [self.save()]. *)
Definition credited_row (w : FOREWallet) (amt : Z) : FOREWallet :=
  mkWallet (w_user w) (balance w + amt) (total_earned w + amt)
           (total_spent w) (frozen_amount w).

Definition debited_row (w : FOREWallet) (amt : Z) : FOREWallet :=
  mkWallet (w_user w) (balance w - amt) (total_earned w)
           (total_spent w + amt) (frozen_amount w).

(** A wallet has room for a credit (a debit) of [amt] when the row to save
    and the amount of the transaction row fit their columns. *)
Definition room_for_credit (w : FOREWallet) (amt : Z) : Prop :=
  savable (credited_row w amt) = true ∧ fits amt = true.

Definition room_for_debit (w : FOREWallet) (amt : Z) : Prop :=
  savable (debited_row w amt) = true ∧ fits (- amt) = true.

(** [description__contains]: SQL [LIKE '%needle%'] with the pattern
    characters of the needle escaped, a case-sensitive substring test. *)
Fixpoint contains (needle hay : string) : bool :=
  String.prefix needle hay ||
  match hay with
  | EmptyString => false
  | String _ hay' => contains needle hay'
  end.

(** The keyword arguments of a [QuerySet.update(related_...=...)] call:
    the reference columns it sets. *)
Record Refs : Type := mkRefs {
  set_course : option nat;
  set_lesson : option nat;
  set_quiz : option nat;
  set_achievement : option nat
}.

Definition update_refs (r : Refs) (t : Transaction) : Transaction :=
  mkTransaction (t_user t) (transaction_type t) (amount t) (balance_after t)
                (t_description t)
                (match set_course r with Some c => Some c | None => related_course t end)
                (match set_lesson r with Some l => Some l | None => related_lesson t end)
                (match set_quiz r with Some q => Some q | None => related_quiz t end)
                (match set_achievement r with
                 | Some a => Some a
                 | None => related_achievement t
                 end).

(** *** One wallet and the transactions it wrote *)

Module Ledger.

(** The wallet row of one user together with that user's transaction
    rows, oldest first. *)
Record t : Type := mk {
  wallet : FOREWallet;
  log : list Transaction
}.

Definition fresh (u : user_id) : t := mk (new_wallet u) [].

(** What the application does with these rows: [add_tokens],
    [spend_tokens], and the bulk update by which the signal receivers fill
    in the references of the user's rows whose description contains a
    title. *)
Inductive op : Type :=
  | Credit (amt : Z) (descr : string) (ty : TransactionType)
  | Debit (amt : Z) (descr : string) (ty : TransactionType)
  | SetRefs (title : string) (r : Refs).

(** One such call; a raised exception leaves the rows as they were. *)
Definition step (s : t) (o : op) : outcome t :=
  match o with
  | SetRefs title r =>
      Ok (mk (wallet s)
             ((λ tx, if contains title (t_description tx)
                     then update_refs r tx else tx) <$> log s))
  | Credit amt descr ty =>
      match add_tokens (wallet s) amt descr ty with
      | Ok (w', tx, _) => Ok (mk w' (log s ++ [tx]))
      | Raise e => Raise e
      end
  | Debit amt descr ty =>
      match spend_tokens (wallet s) amt descr ty with
      | Ok (w', tx, _) => Ok (mk w' (log s ++ [tx]))
      | Raise e => Raise e
      end
  end.

(** A sequence of calls, every one of which returns normally. *)
Fixpoint run (s : t) (ops : list op) : option t :=
  match ops with
  | [] => Some s
  | o :: ops' =>
      match step s o with
      | Ok s' => run s' ops'
      | Raise _ => None
      end
  end.

(** The signed amount an operation moves: credits count positive. *)
Definition delta (o : op) : Z :=
  match o with
  | Credit amt _ _ => amt
  | Debit amt _ _ => - amt
  | SetRefs _ _ => 0
  end.

Definition credited (o : op) : Z :=
  match o with Credit amt _ _ => amt | _ => 0 end.

Definition debited (o : op) : Z :=
  match o with Debit amt _ _ => amt | _ => 0 end.

(** The signed amounts of the credits and debits among [ops], in order. *)
Definition movements (ops : list op) : list Z :=
  omap (λ o, match o with
             | Credit amt _ _ => Some amt
             | Debit amt _ _ => Some (- amt)
             | SetRefs _ _ => None
             end) ops.

(** The columns of a row that record the balance change. *)
Definition core (tx : Transaction)
    : user_id * TransactionType * Z * Z * string :=
  (t_user tx, transaction_type tx, amount tx, balance_after tx,
   t_description tx).

Definition sum (f : op → Z) (ops : list op) : Z :=
  foldr (λ o acc, f o + acc) 0 ops.

Definition conserved (s : t) : Prop :=
  balance (wallet s) = total_earned (wallet s) - total_spent (wallet s).

(** [chain b0 l]: walking [l] from balance [b0], each [balance_after] is
    the previous balance plus the row's [amount]. *)
Fixpoint chain (b0 : Z) (l : list Transaction) : Prop :=
  match l with
  | [] => True
  | tx :: l' => balance_after tx = b0 + amount tx ∧ chain (balance_after tx) l'
  end.

(** The balance reached at the end of a log that starts from [b0]. *)
Fixpoint last_balance (b0 : Z) (l : list Transaction) : Z :=
  match l with
  | [] => b0
  | tx :: l' => last_balance (balance_after tx) l'
  end.

End Ledger.

(** ** The store: tables of the rewards application *)

Record Achievement : Type := mkAchievement {
  a_id : nat;
  a_title : string;
  fore_tokens_reward : Z;
  required_courses : Z;
  required_lessons : Z;
  required_quizzes : Z;
  required_streak_days : Z;
  required_fore_tokens : Z;
  is_active : bool;
  is_secret : bool;
  max_recipients : option Z
}.

(** The [progress_when_earned] JSON object written with a grant. *)
Record Progress : Type := mkProgress {
  activity_type : string;
  total_courses : Z;
  total_lessons : Z;
  total_quizzes : Z;
  total_fore_earned : Z
}.

Record UserAchievement : Type := mkUserAchievement {
  ua_user : user_id;
  ua_achievement : nat;
  fore_tokens_awarded : Z;
  progress_when_earned : Progress
}.

Record Reward : Type := mkReward {
  r_title : string;
  fore_cost : Z;
  r_is_active : bool;
  stock_quantity : option Z;
  max_per_user : option Z;
  available_from : option Z;
  available_until : option Z;
  requires_shipping : bool;
  total_redeemed : Z
}.

Record RewardRedemption : Type := mkRedemption {
  rr_user : user_id;
  rr_reward : nat;
  rr_fore_cost : Z;
  delivery_address : string;
  delivery_phone : string;
  redemption_code : string
}.

Record Store : Type := mkStore {
  wallets : gmap user_id FOREWallet;
  transactions : list Transaction;
  achievements : list Achievement;
  user_achievements : list UserAchievement;
  rewards : gmap nat Reward;
  redemptions : list RewardRedemption
}.

Definition set_wallets (f : gmap user_id FOREWallet → gmap user_id FOREWallet)
    (st : Store) : Store :=
  mkStore (f (wallets st)) (transactions st) (achievements st)
          (user_achievements st) (rewards st) (redemptions st).

Definition set_transactions (f : list Transaction → list Transaction)
    (st : Store) : Store :=
  mkStore (wallets st) (f (transactions st)) (achievements st)
          (user_achievements st) (rewards st) (redemptions st).

Definition set_user_achievements
    (f : list UserAchievement → list UserAchievement) (st : Store) : Store :=
  mkStore (wallets st) (transactions st) (achievements st)
          (f (user_achievements st)) (rewards st) (redemptions st).

Definition set_rewards (f : gmap nat Reward → gmap nat Reward)
    (st : Store) : Store :=
  mkStore (wallets st) (transactions st) (achievements st)
          (user_achievements st) (f (rewards st)) (redemptions st).

Definition set_redemptions
    (f : list RewardRedemption → list RewardRedemption) (st : Store) : Store :=
  mkStore (wallets st) (transactions st) (achievements st)
          (user_achievements st) (rewards st) (f (redemptions st)).

(** What the rewards application reads from the course tables, which it
    never writes: per user, the number of completed enrollments, of
    completed lesson-progress rows and of distinct passed quizzes. *)
Record Activity : Type := mkActivity {
  completed_courses : user_id → Z;
  completed_lessons : user_id → Z;
  passed_quizzes : user_id → Z
}.

(** A computation on the store: its outcome and the store it leaves.
    Within a request the code reaches a user's wallet through one cached
    Python object and every change to it is saved at once, so the object
    and its row agree; the model reads and writes the row. *)
Definition M (A : Type) : Type := Store → outcome A * Store.

Definition ret {A} (a : A) : M A := λ st, (Ok a, st).
Definition throw {A} (e : exn) : M A := λ st, (Raise e, st).
Definition bind {A B} (m : M A) (k : A → M B) : M B :=
  λ st, match m st with
        | (Ok a, st') => k a st'
        | (Raise e, st') => (Raise e, st')
        end.
Definition modify (f : Store → Store) : M unit := λ st, (Ok tt, f st).

Notation "'let*' x ':=' m 'in' k" := (bind m (λ x, k))
  (at level 10, x name, m at level 100, k at level 200).
Notation "m '>>' k" := (bind m (λ _, k))
  (at level 65, right associativity).

(** [wallet.add_tokens(...)] on the wallet row of [u] found in the store:
    [self.save()] writes the row back, [Transaction.objects.create]
    appends to the transaction table. *)
Definition wallet_add_tokens (w : FOREWallet) (amt : Z) (descr : string)
    (ty : TransactionType) : M Z :=
  match add_tokens w amt descr ty with
  | Raise e => throw e
  | Ok (w', tx, b) =>
      modify (set_wallets (insert (w_user w) w')) >>
      modify (set_transactions (λ l, l ++ [tx])) >>
      ret b
  end.

Definition wallet_spend_tokens (w : FOREWallet) (amt : Z) (descr : string)
    (ty : TransactionType) : M Z :=
  match spend_tokens w amt descr ty with
  | Raise e => throw e
  | Ok (w', tx, b) =>
      modify (set_wallets (insert (w_user w) w')) >>
      modify (set_transactions (λ l, l ++ [tx])) >>
      ret b
  end.

(** [Transaction.objects.filter(user=u, description__contains=s).update(...)] *)
Definition update_transactions (u : user_id) (s : string)
    (f : Transaction → Transaction) : M unit :=
  modify (set_transactions
            (fmap (λ t, if bool_decide (t_user t = u) && contains s (t_description t)
                        then f t else t))).

(** [.update(related_achievement=achievement)] *)
Definition with_related_achievement (a : nat) : Transaction → Transaction :=
  update_refs (mkRefs None None None (Some a)).

(** ** Achievement engine *)

(** [self.user_achievements.filter(user=user).exists()] *)
Definition has_grant (st : Store) (u : user_id) (a : nat) : bool :=
  existsb (λ g, bool_decide (ua_user g = u) && bool_decide (ua_achievement g = a))
          (user_achievements st).

Definition recipients_count (self : Achievement) (st : Store) : Z :=
  Z.of_nat (length (filter (λ g, ua_achievement g = a_id self) (user_achievements st))).

(** Python truth value of a nullable integer field: [None] and [0] are false. *)
Definition truthy (o : option Z) : bool :=
  match o with
  | Some n => negb (n =? 0)
  | None => false
  end.

(** [Achievement.is_available] *)
Definition is_available (self : Achievement) (st : Store) : bool :=
  if negb (is_active self) then false
  else if truthy (max_recipients self)
          && (default 0 (max_recipients self) <=? recipients_count self st)
  then false
  else true.

(** [Achievement.check_achievement] *)
Definition check_achievement (act : Activity) (self : Achievement)
    (user : user_id) (st : Store) : bool :=
  if has_grant st user (a_id self) then false
  else if negb (is_available self st) then false
  else if (0 <? required_courses self)
          && (completed_courses act user <? required_courses self) then false
  else if (0 <? required_lessons self)
          && (completed_lessons act user <? required_lessons self) then false
  else if (0 <? required_quizzes self)
          && (passed_quizzes act user <? required_quizzes self) then false
  else if (0 <? required_fore_tokens self)
          && match wallets st !! user with
             | Some wallet => total_earned wallet <? Decimal (required_fore_tokens self)
             | None => true
             end then false
  else true.

(** [UserAchievement.save]: a missing or zero [fore_tokens_awarded] is
    filled from the achievement's reward. *)
Definition UserAchievement_save (awarded : option Z) (a : Achievement) : Z :=
  if truthy awarded then default 0 awarded else fore_tokens_reward a.

(** [reward_achievement_earned], the [post_save] receiver of
    [UserAchievement], for a row that was just created. *)
Definition reward_achievement_earned (instance : UserAchievement)
    (a : Achievement) : M unit :=
  λ st,
    match wallets st !! ua_user instance with
    | Some wallet =>
        (wallet_add_tokens wallet (Decimal (fore_tokens_awarded instance))
           ("Logro obtenido: " +:+ a_title a) ACHIEVEMENT_EARNED >>
         update_transactions (ua_user instance) (a_title a)
           (with_related_achievement (a_id a))) st
    | None =>
        (* except FOREWallet.DoesNotExist *)
        modify (set_wallets (insert (ua_user instance)
                               (new_wallet (ua_user instance)))) st
    end.

(** [UserAchievement.objects.create(user, achievement, progress_when_earned)]:
    [save] fills the award, the insert is refused by
    [unique_together = [['user', 'achievement']]] when the pair has a row,
    and [post_save] runs its receiver on the inserted row. *)
Definition UserAchievement_create (user : user_id) (a : Achievement)
    (p : Progress) : M UserAchievement :=
  let row := mkUserAchievement user (a_id a) (UserAchievement_save None a) p in
  λ st,
    if has_grant st user (a_id a) then (Raise IntegrityError, st)
    else
      (modify (set_user_achievements (λ l, l ++ [row])) >>
       reward_achievement_earned row a >>
       ret row) st.

(** The [progress_when_earned] dictionary built by
    [check_achievements_for_user]; [total_fore_earned] is 0 without wallet. *)
Definition progress_of (act : Activity) (user : user_id) (activity : string)
    (st : Store) : Progress :=
  mkProgress activity (completed_courses act user) (completed_lessons act user)
             (passed_quizzes act user)
             (match wallets st !! user with
              | Some wallet => total_earned wallet
              | None => 0
              end).

(** The [for] loop of [check_achievements_for_user] over the fetched rows. *)
Fixpoint check_each (act : Activity) (user : user_id) (activity : string)
    (l : list Achievement) : M unit :=
  match l with
  | [] => ret tt
  | achievement :: l' =>
      λ st,
        if check_achievement act achievement user st then
          (UserAchievement_create user achievement
             (progress_of act user activity st) >>
           check_each act user activity l') st
        else check_each act user activity l' st
  end.

(** [Achievement.objects.filter(is_active=True)
      .exclude(user_achievements__user=user)], fetched once when the loop
    starts. *)
Definition available_achievements (user : user_id) (st : Store)
    : list Achievement :=
  filter (λ a, is_active a = true ∧ has_grant st user (a_id a) = false)
         (achievements st).

Definition check_achievements_for_user (act : Activity) (user : user_id)
    (activity : string) : M unit :=
  λ st, check_each act user activity (available_achievements user st) st.

(** The achievements granted to [user] by a computation: rows of the
    grant table after it that were not there before. *)
Definition granted_to (user : user_id) (st : Store) : list nat :=
  ua_achievement <$> filter (λ g, ua_user g = user) (user_achievements st).

(** ** Activity signals *)

Record Lesson : Type := mkLesson {
  l_id : nat;
  l_title : string;
  l_course : nat;
  l_fore_tokens_reward : Z
}.

Record Quiz : Type := mkQuiz {
  q_id : nat;
  q_title : string;
  q_lesson : Lesson;
  q_fore_tokens_reward : Z
}.

(** A [LessonProgress] model instance in memory.  [lesson_just_completed]
    says whether the Python object carries the attribute
    [_lesson_just_completed]; an instance built from a database row never
    does. *)
Record LessonProgress : Type := mkLessonProgress {
  lp_student : user_id;
  lp_lesson : Lesson;
  lp_is_completed : bool;
  lesson_just_completed : bool
}.

Record QuizAttempt : Type := mkQuizAttempt {
  qa_student : user_id;
  qa_quiz : Quiz;
  is_passed : bool;
  qa_is_completed : bool;
  quiz_just_passed : bool
}.

(** [.update(related_lesson=lesson, related_course=lesson.course)] *)
Definition with_lesson_refs (l : Lesson) : Transaction → Transaction :=
  update_refs (mkRefs (Some (l_course l)) (Some (l_id l)) None None).

(** [.update(related_quiz=quiz, related_lesson=quiz.lesson,
    related_course=quiz.lesson.course)] *)
Definition with_quiz_refs (q : Quiz) : Transaction → Transaction :=
  update_refs (mkRefs (Some (l_course (q_lesson q))) (Some (l_id (q_lesson q)))
                      (Some (q_id q)) None).

Definition mark_lesson (instance : LessonProgress) : LessonProgress :=
  mkLessonProgress (lp_student instance) (lp_lesson instance)
                   (lp_is_completed instance) true.

Definition mark_quiz (instance : QuizAttempt) : QuizAttempt :=
  mkQuizAttempt (qa_student instance) (qa_quiz instance) (is_passed instance)
                (qa_is_completed instance) true.

(** [reward_lesson_completion], the [post_save] receiver of
    [LessonProgress]: the instance as it is left, and the computation. *)
Definition reward_lesson_completion (act : Activity) (instance : LessonProgress)
    : LessonProgress * M unit :=
  if lp_is_completed instance && lesson_just_completed instance then
    (instance, ret tt)
  else if lp_is_completed instance then
    (mark_lesson instance,
     λ st,
       match wallets st !! lp_student instance with
       | Some wallet =>
           ((if 0 <? l_fore_tokens_reward (lp_lesson instance) then
               wallet_add_tokens wallet
                 (Decimal (l_fore_tokens_reward (lp_lesson instance)))
                 ("Lección completada: " +:+ l_title (lp_lesson instance))
                 LESSON_COMPLETED >>
               update_transactions (lp_student instance)
                 (l_title (lp_lesson instance))
                 (with_lesson_refs (lp_lesson instance))
             else ret tt) >>
            check_achievements_for_user act (lp_student instance)
              "lesson_completed") st
       | None =>
           modify (set_wallets (insert (lp_student instance)
                                  (new_wallet (lp_student instance)))) st
       end)
  else (instance, ret tt).

(** [reward_quiz_completion], the [post_save] receiver of [QuizAttempt]. *)
Definition reward_quiz_completion (act : Activity) (instance : QuizAttempt)
    : QuizAttempt * M unit :=
  if is_passed instance && qa_is_completed instance
     && negb (quiz_just_passed instance) then
    (mark_quiz instance,
     λ st,
       match wallets st !! qa_student instance with
       | Some wallet =>
           ((if 0 <? q_fore_tokens_reward (qa_quiz instance) then
               wallet_add_tokens wallet
                 (Decimal (q_fore_tokens_reward (qa_quiz instance)))
                 ("Quiz aprobado: " +:+ q_title (qa_quiz instance))
                 QUIZ_PASSED >>
               update_transactions (qa_student instance)
                 (q_title (qa_quiz instance))
                 (with_quiz_refs (qa_quiz instance))
             else ret tt) >>
            check_achievements_for_user act (qa_student instance)
              "quiz_passed") st
       | None =>
           modify (set_wallets (insert (qa_student instance)
                                  (new_wallet (qa_student instance)))) st
       end)
  else (instance, ret tt).

(** [instance.save()] on an instance freshly loaded from its row: the
    receiver runs without the in-memory marker; an exception it raises ends
    that request and the store keeps what was written. *)
Definition save_lesson_progress (act : Activity) (student : user_id)
    (lesson : Lesson) (completed : bool) (st : Store) : Store :=
  ((reward_lesson_completion act
      (mkLessonProgress student lesson completed false)).2 st).2.

Definition save_quiz_attempt (act : Activity) (student : user_id)
    (quiz : Quiz) (passed completed : bool) (st : Store) : Store :=
  ((reward_quiz_completion act
      (mkQuizAttempt student quiz passed completed false)).2 st).2.

(** The credits of type [ty] and amount [amt] recorded for [u]. *)
Definition credits_of (u : user_id) (ty : TransactionType) (amt : Z)
    (st : Store) : nat :=
  length (filter (λ t, t_user t = u ∧ transaction_type t = ty ∧ amount t = amt)
                 (transactions st)).

(** ** Leaderboard engine *)

Inductive LeaderboardCategory : Type :=
  | FORE_TOKENS | COURSES_COMPLETED | LESSONS_COMPLETED
  | QUIZZES_PASSED | ACHIEVEMENTS_EARNED | STREAK_DAYS.

Inductive LeaderboardPeriod : Type :=
  | DAILY | WEEKLY | MONTHLY | ALL_TIME.

Record Leaderboard : Type := mkLeaderboard {
  category : LeaderboardCategory;
  period : LeaderboardPeriod;
  max_positions : nat;
  first_place_reward : Z;
  second_place_reward : Z;
  third_place_reward : Z
}.

Record UserRanking : Type := mkUserRanking {
  ur_user : user_id;
  position : nat;
  score : Z;
  reward_claimed : bool;
  reward_amount : Z
}.

(** The results of the per-user queries of [update_rankings].  The flag
    says whether the query carries the [..._at__gte=period_start] filter
    (every period but [ALL_TIME]).  Scores are compared as numbers; the
    [float] of a token amount is represented by the amount itself.  A score
    is a number of rows or a sum of stored token amounts and is taken to
    fit the [score] column of the ranking row. *)
Record Scores : Type := mkScores {
  wallet_total_earned : user_id → option Z;
  period_earnings : user_id → Z;
  courses_count : bool → user_id → Z;
  lessons_count : bool → user_id → Z;
  quizzes_count : bool → user_id → Z;
  achievements_count : bool → user_id → Z
}.

Definition windowed (self : Leaderboard) : bool :=
  match period self with ALL_TIME => false | _ => true end.

(** The body of the [for user in users] loop up to the [if score > 0]. *)
Definition score_of (self : Leaderboard) (d : Scores) (user : user_id) : Z :=
  match category self with
  | FORE_TOKENS =>
      match wallet_total_earned d user with
      | Some earned => if windowed self then period_earnings d user else earned
      | None => 0
      end
  | COURSES_COMPLETED => courses_count d (windowed self) user
  | LESSONS_COMPLETED => lessons_count d (windowed self) user
  | QUIZZES_PASSED => quizzes_count d (windowed self) user
  | ACHIEVEMENTS_EARNED => achievements_count d (windowed self) user
  | STREAK_DAYS => 0
  end.

(** [user_scores]: the pairs appended by the loop, in query order. *)
Definition user_scores (self : Leaderboard) (d : Scores)
    (users : list user_id) : list (user_id * Z) :=
  filter (λ p, 0 < p.2) ((λ u, (u, score_of self d u)) <$> users).

(** [list.sort(key=lambda x: x[1], reverse=True)]: a stable sort, larger
    keys first, entries of equal key left in their original order. *)
Fixpoint insert_desc (x : user_id * Z) (l : list (user_id * Z))
    : list (user_id * Z) :=
  match l with
  | [] => [x]
  | y :: l' => if y.2 <=? x.2 then x :: y :: l' else y :: insert_desc x l'
  end.

Definition sort_desc (l : list (user_id * Z)) : list (user_id * Z) :=
  foldr insert_desc [] l.

(** [UserRanking.save]: the reward derived from the position. *)
Definition UserRanking_save (self : Leaderboard) (r : UserRanking) : UserRanking :=
  if negb (reward_amount r =? 0) then r
  else
    mkUserRanking (ur_user r) (position r) (score r) (reward_claimed r)
      (match position r with
       | 1%nat => first_place_reward self
       | 2%nat => second_place_reward self
       | 3%nat => third_place_reward self
       | _ => reward_amount r
       end).

(** [UserRanking.objects.create(leaderboard, user, position, score)] for
    [enumerate(..., start)]. *)
Fixpoint create_rankings (self : Leaderboard) (start : nat)
    (l : list (user_id * Z)) : list UserRanking :=
  match l with
  | [] => []
  | (user, sc) :: l' =>
      UserRanking_save self (mkUserRanking user start sc false 0)
        :: create_rankings self (S start) l'
  end.

(** [Leaderboard.update_rankings]: the ranking rows of the leaderboard
    after the call, whatever they were before ([.all().delete()]).
    [users] is the result of
    [User.objects.filter(role='student', is_active=True)] in the order the
    query returns it. *)
Definition update_rankings (self : Leaderboard) (d : Scores)
    (users : list user_id) : list UserRanking :=
  create_rankings self 1
    (take (max_positions self) (sort_desc (user_scores self d users))).










(** ** Redemption engine *)

(** [Reward.is_available] at time [now]. *)
Definition reward_is_available (now : Z) (self : Reward) : bool :=
  if negb (r_is_active self) then false
  else if match available_from self with
          | Some from => now <? from
          | None => false
          end then false
  else if match available_until self with
          | Some until => until <? now
          | None => false
          end then false
  else if match stock_quantity self with
          | Some stock => stock <=? 0
          | None => false
          end then false
  else true.

Definition user_redemptions (st : Store) (user : user_id) (pk : nat) : Z :=
  Z.of_nat (length (filter (λ r, rr_user r = user ∧ rr_reward r = pk)
                           (redemptions st))).

(** The messages of [can_redeem]; the per-user limit message carries the
    limit it formats. *)
Inductive RedeemMessage : Type :=
  | Recompensa_no_disponible
  | Balance_FORE_insuficiente
  | No_tienes_una_billetera_FORE
  | Limite_de_canjes_alcanzado (limit : Z)
  | Puede_canjear.

(** [Reward.can_redeem]: the verdict and its message. *)
Definition can_redeem (now : Z) (pk : nat) (self : Reward) (user : user_id)
    (st : Store) : bool * RedeemMessage :=
  if negb (reward_is_available now self) then (false, Recompensa_no_disponible)
  else
    match wallets st !! user with
    | None => (false, No_tienes_una_billetera_FORE)
    | Some wallet =>
        if negb (can_spend wallet (Decimal (fore_cost self))) then
          (false, Balance_FORE_insuficiente)
        else if truthy (max_per_user self)
                && (default 0 (max_per_user self) <=? user_redemptions st user pk)
        then (false, Limite_de_canjes_alcanzado (default 0 (max_per_user self)))
        else (true, Puede_canjear)
    end.

(** The body of a redemption request as the serializer's fields read it.
    [reward_id] is [None] when the field is missing or is not the id of a
    row (not an integer, or negative).  A text field is [None] when it is
    missing, and otherwise the text the [CharField] hands on, with the
    surrounding whitespace stripped; its length is counted in characters. *)
Record RedemptionRequest : Type := mkRequest {
  reward_id : option nat;
  req_delivery_address : option string;
  req_delivery_phone : option string
}.

(** A [CharField(max_length=n, required=False, allow_blank=True)]. *)
Definition within_max_length (n : nat) (field : option string) : bool :=
  match field with
  | Some text => (String.length text <=? n)%nat
  | None => true
  end.

(** [RedemptionRequestSerializer.is_valid()]: the declared fields
    ([reward_id] required, [delivery_address] of at most 500 characters,
    [delivery_phone] of at most 20), then [validate_reward_id] and
    [validate], both about the reward named in the body. *)
Definition is_valid (now : Z) (req : RedemptionRequest) (st : Store) : bool :=
  match reward_id req with
  | None => false
  | Some id =>
      within_max_length 500 (req_delivery_address req)
      && within_max_length 20 (req_delivery_phone req)
      && match rewards st !! id with
         | None => false
         | Some reward =>
             reward_is_available now reward
             && negb (requires_shipping reward
                      && match req_delivery_address req with
                         | Some (String _ _) => false
                         | _ => true
                         end)
         end
  end.

(** The body of a 400 response: the serializer's errors, the message of
    [can_redeem], or the text of a caught exception. *)
Inductive ErrorBody : Type :=
  | serializer_errors
  | error_message (message : RedeemMessage)
  | error_exception (e : exn).

Inductive Response : Type :=
  | HTTP_201_CREATED (redemption : RewardRedemption)
  | HTTP_400_BAD_REQUEST (body : ErrorBody)
  | HTTP_404_NOT_FOUND.

(** [RewardRedemption.objects.create(user, reward, delivery_address,
    delivery_phone)]; [save] draws the code [code] and copies the cost. *)
Definition RewardRedemption_create (code : string) (user : user_id) (pk : nat)
    (reward : Reward) (req : RedemptionRequest) : M RewardRedemption :=
  let row := mkRedemption user pk (fore_cost reward)
               (default "" (req_delivery_address req))
               (default "" (req_delivery_phone req)) code in
  modify (set_redemptions (λ l, l ++ [row])) >> ret row.

(** [reward.total_redeemed += 1], the stock decrement and [reward.save()]. *)
Definition redeemed_once (reward : Reward) : Reward :=
  mkReward (r_title reward) (fore_cost reward) (r_is_active reward)
           (match stock_quantity reward with
            | Some stock => Some (stock - 1)
            | None => None
            end)
           (max_per_user reward) (available_from reward)
           (available_until reward) (requires_shipping reward)
           (total_redeemed reward + 1).

(** [RewardViewSet.redeem] for the authenticated student [user] and the
    reward [pk] of the URL ([get_object] looks it up among the active
    rewards).  [now] is the clock and [code] the code drawn for the new
    row.  Rendering the response only reads. *)
Definition redeem (now : Z) (code : string) (user : user_id) (pk : nat)
    (req : RedemptionRequest) (st : Store) : Response * Store :=
  match rewards st !! pk with
  | None => (HTTP_404_NOT_FOUND, st)
  | Some reward =>
      if negb (r_is_active reward) then (HTTP_404_NOT_FOUND, st)
      else if negb (is_valid now req st) then
        (HTTP_400_BAD_REQUEST serializer_errors, st)
      else
        let '(ok, message) := can_redeem now pk reward user st in
        if negb ok then (HTTP_400_BAD_REQUEST (error_message message), st)
        else
          match
            match wallets st !! user with
            | None => throw DoesNotExist
            | Some wallet =>
                wallet_spend_tokens wallet (Decimal (fore_cost reward))
                  ("Canje de recompensa: " +:+ r_title reward) REWARD_PURCHASE >>
                let* redemption :=
                  RewardRedemption_create code user pk reward req in
                modify (set_rewards (insert pk (redeemed_once reward))) >>
                ret redemption
            end st
          with
          | (Ok redemption, st') => (HTTP_201_CREATED redemption, st')
          | (Raise e, st') => (HTTP_400_BAD_REQUEST (error_exception e), st')
          end
  end.

(** ** The eligibility rule in the words of the specification *)

(** The user's current cumulative stats: completed courses, completed
    lessons, distinct passed quizzes, lifetime tokens earned (hundredths)
    and streak length. *)
Record Stats : Type := mkStats {
  stat_courses : Z;
  stat_lessons : Z;
  stat_quizzes : Z;
  stat_tokens_earned : Z;
  stat_streak_days : Z
}.

(** A threshold is met when it is not declared (zero) or reached. *)
Definition met (required have : Z) : Prop :=
  required ≠ 0 → required ≤ have.

(** Logical AND over all five declared thresholds. *)
Definition spec_satisfied (a : Achievement) (s : Stats) : Prop :=
  met (required_courses a) (stat_courses s)
  ∧ met (required_lessons a) (stat_lessons s)
  ∧ met (required_quizzes a) (stat_quizzes s)
  ∧ met (required_streak_days a) (stat_streak_days s)
  ∧ met (Decimal (required_fore_tokens a)) (stat_tokens_earned s).

(** Lifetime tokens earned: [total_earned] of the wallet, nothing without. *)
Definition lifetime_tokens_earned (st : Store) (user : user_id) : Z :=
  match wallets st !! user with
  | Some wallet => total_earned wallet
  | None => 0
  end.

(** The stats of [user] as the store and the course tables have them,
    with the streak length [streak] supplied from outside. *)
Definition stats_of (act : Activity) (st : Store) (user : user_id)
    (streak : Z) : Stats :=
  mkStats (completed_courses act user) (completed_lessons act user)
          (passed_quizzes act user) (lifetime_tokens_earned st user) streak.

(** [PositiveIntegerField]: the thresholds of a catalog row are not negative. *)
Definition valid_thresholds (a : Achievement) : Prop :=
  0 ≤ required_courses a ∧ 0 ≤ required_lessons a ∧ 0 ≤ required_quizzes a
  ∧ 0 ≤ required_streak_days a ∧ 0 ≤ required_fore_tokens a.

(** ** Sample rows *)

(** The streak achievement of [create_initial_achievements]: seven
    consecutive days of activity, nothing else required. *)
Definition constancia : Achievement :=
  mkAchievement 8 "Constancia" 75 0 0 0 7 0 true false None.

Definition no_activity : Activity :=
  mkActivity (λ _, 0) (λ _, 0) (λ _, 0).

(** An achievement that awards no tokens, and a student with an empty
    wallet who has completed one lesson. *)
Definition participacion : Achievement :=
  mkAchievement 1 "Participacion" 0 0 1 0 0 0 true false None.

Definition one_lesson : Activity :=
  mkActivity (λ _, 0) (λ _, 1) (λ _, 0).

Definition primera_leccion : Achievement :=
  mkAchievement 2 "Primera Leccion" 50 0 1 0 0 0 true false None.

(** ** Store invariants *)

(** The wallet table is keyed by its one-to-one [user] column. *)
Definition wf_wallets (st : Store) : Prop :=
  ∀ u w, wallets st !! u = Some w → w_user w = u.

(** No two grant rows for the same (user, achievement) pair. *)
Definition unique_grants (st : Store) : Prop :=
  NoDup ((λ g, (ua_user g, ua_achievement g)) <$> user_achievements st).

(** [st'] comes after [st] in a request on behalf of [user]: same catalog,
    the grant table only extended, lifetime earnings not lower. *)
Definition grows (user : user_id) (st st' : Store) : Prop :=
  achievements st' = achievements st
  ∧ (∃ new, user_achievements st' = user_achievements st ++ new)
  ∧ lifetime_tokens_earned st user ≤ lifetime_tokens_earned st' user.

(** Two rows of [create_initial_achievements]: the collector's badge asks
    for 1000 tokens earned, the advanced student's for 50 completed lessons
    and pays 750 tokens.  The catalog order (category, type, title) lists
    the collector first. *)
Definition coleccionista : Achievement :=
  mkAchievement 1 "Coleccionista de FORE" 500 0 0 0 0 1000 true false None.

Definition estudiante : Achievement :=
  mkAchievement 2 "Estudiante Avanzado" 750 0 50 0 0 0 true false None.

(** A student with fifty completed lessons who has earned 300.00 so far. *)
Definition fifty_lessons : Activity :=
  mkActivity (λ _, 0) (λ _, 50) (λ _, 0).

Definition catalogo (l : list Achievement) : Store :=
  mkStore {[ 1%nat := mkWallet 1 30000 30000 0 0 ]} [] l [] ∅ [].

(** An all-time lessons leaderboard and two students who completed five
    lessons each. *)
Definition lessons_board : Leaderboard :=
  mkLeaderboard LESSONS_COMPLETED ALL_TIME 100 100 75 50.

Definition five_lessons_each : Scores :=
  mkScores (λ _, None) (λ _, 0) (λ _ _, 0) (λ _ _, 5) (λ _ _, 0) (λ _ _, 0).



(** The store a successful redemption leaves: wallet debited, purchase
    recorded, redemption row added, reward counters moved. *)
Definition redeemed_store (code : string) (user : user_id) (pk : nat)
    (req : RedemptionRequest) (reward : Reward) (wallet : FOREWallet)
    (st : Store) : Store :=
  mkStore
    (<[w_user wallet :=
         mkWallet (w_user wallet) (balance wallet - Decimal (fore_cost reward))
           (total_earned wallet)
           (total_spent wallet + Decimal (fore_cost reward))
           (frozen_amount wallet)]> (wallets st))
    (transactions st
       ++ [Transaction_create (w_user wallet) REWARD_PURCHASE
             (- Decimal (fore_cost reward))
             (balance wallet - Decimal (fore_cost reward))
             ("Canje de recompensa: " +:+ r_title reward)])
    (achievements st) (user_achievements st)
    (<[pk := redeemed_once reward]> (rewards st))
    (redemptions st
       ++ [mkRedemption user pk (fore_cost reward)
             (default "" (req_delivery_address req))
             (default "" (req_delivery_phone req)) code]).

(** A reward with one unit in stock that costs 600 tokens, and a student
    whose wallet holds 1000.00. *)
Definition webinar : Reward :=
  mkReward "Webinar Exclusivo con Expertos" 600 true (Some 1) (Some 1)
           None None false 0.


(** A lesson worth 10 tokens, its quiz worth 20, and a store in which
    student 1 has an empty wallet. *)
Definition saludos : Lesson := mkLesson 1 "Saludos" 1 10.

Definition quiz_saludos : Quiz := mkQuiz 1 "Quiz de saludos" saludos 20.

Definition aula : Store :=
  mkStore {[ 1%nat := new_wallet 1 ]} [] [] [] ∅ [].

(** A store in which student 1 already has a bonus row that mentions the
    title of the lesson [saludos]. *)
Definition aula_con_bono : Store :=
  mkStore {[ 1%nat := mkWallet 1 500 500 0 0 ]}
          [Transaction_create 1 ADMIN_BONUS 500 500 "Bono por Saludos"]
          [] [] ∅ [].

(** ** Course completion, reward claims and wallet creation *)

Record Course : Type := mkCourse {
  c_id : nat;
  c_title : string;
  c_fore_tokens_reward : Z
}.

(** A [CourseEnrollment] model instance in memory: [ce_completed] says
    whether [status == 'completed'], [course_just_completed] whether the
    object carries the attribute [_course_just_completed]. *)
Record CourseEnrollment : Type := mkCourseEnrollment {
  ce_student : user_id;
  ce_course : Course;
  ce_completed : bool;
  course_just_completed : bool
}.

(** [.update(related_course=instance.course)] *)
Definition with_course_ref (c : Course) : Transaction → Transaction :=
  update_refs (mkRefs (Some (c_id c)) None None None).

Definition mark_course (instance : CourseEnrollment) : CourseEnrollment :=
  mkCourseEnrollment (ce_student instance) (ce_course instance)
                     (ce_completed instance) true.

(** [reward_course_completion], the [post_save] receiver of
    [CourseEnrollment]. *)
Definition reward_course_completion (act : Activity)
    (instance : CourseEnrollment) : CourseEnrollment * M unit :=
  if ce_completed instance && negb (course_just_completed instance) then
    (mark_course instance,
     λ st,
       match wallets st !! ce_student instance with
       | Some wallet =>
           ((if 0 <? c_fore_tokens_reward (ce_course instance) then
               wallet_add_tokens wallet
                 (Decimal (c_fore_tokens_reward (ce_course instance)))
                 ("Curso completado: " +:+ c_title (ce_course instance))
                 COURSE_COMPLETED >>
               update_transactions (ce_student instance)
                 (c_title (ce_course instance))
                 (with_course_ref (ce_course instance))
             else ret tt) >>
            check_achievements_for_user act (ce_student instance)
              "course_completed") st
       | None =>
           modify (set_wallets (insert (ce_student instance)
                                  (new_wallet (ce_student instance)))) st
       end)
  else (instance, ret tt).

(** [enrollment.save()] on an instance freshly loaded from its row. *)
Definition save_course_enrollment (act : Activity) (student : user_id)
    (course : Course) (completed : bool) (st : Store) : Store :=
  ((reward_course_completion act
      (mkCourseEnrollment student course completed false)).2 st).2.

(** [create_fore_wallet], the [post_save] receiver of [User]:
    [FOREWallet.objects.create(user=instance)] for a new student.  The
    one-to-one column refuses a second wallet for the same user. *)
Definition create_fore_wallet (created is_student : bool) (user : user_id)
    : M unit :=
  if created && is_student then
    λ st,
      match wallets st !! user with
      | Some _ => (Raise IntegrityError, st)
      | None => modify (set_wallets (insert user (new_wallet user))) st
      end
  else ret tt.

(** [FOREWalletViewSet.get_object]:
    [FOREWallet.objects.get_or_create(user=request.user)]. *)
Definition get_object (user : user_id) : M FOREWallet :=
  λ st,
    match wallets st !! user with
    | Some wallet => (Ok wallet, st)
    | None =>
        (Ok (new_wallet user),
         set_wallets (insert user (new_wallet user)) st)
    end.

Definition with_reward_claimed (r : UserRanking) : UserRanking :=
  mkUserRanking (ur_user r) (position r) (score r) true (reward_amount r).

(** [UserRanking.claim_reward] on an instance whose row is in the table:
    the returned flag, the instance as it is left, and the store.  Every
    exception raised inside the [try] is swallowed; what [add_tokens] wrote
    before it stays.  [title] is [self.leaderboard.title]. *)
Definition claim_reward (title : string) (self : UserRanking) (st : Store)
    : bool * UserRanking * Store :=
  if reward_claimed self || (reward_amount self =? 0) then (false, self, st)
  else
    match wallets st !! ur_user self with
    | None => (false, self, st)
    | Some wallet =>
        match
          wallet_add_tokens wallet (Decimal (reward_amount self))
            ("Recompensa por posición " +:+ pretty (position self)
               +:+ " en " +:+ title)
            ADMIN_BONUS st
        with
        | (Ok _, st') => (true, with_reward_claimed self, st')
        | (Raise _, st') => (false, self, st')
        end
    end.

(** [claim_reward] on the row at index [i] of a leaderboard's ranking
    table; [self.save(update_fields=['reward_claimed'])] writes the flag
    back to that row. *)
Definition claim_at (title : string) (i : nat) (rows : list UserRanking)
    (st : Store) : bool * list UserRanking * Store :=
  match rows !! i with
  | None => (false, rows, st)
  | Some self =>
      let '(claimed, self', st') := claim_reward title self st in
      (claimed, if claimed then <[i := self']> rows else rows, st')
  end.

(** ** Consistency of the ledger tables *)

(** The transaction rows of one user, oldest first. *)
Definition rows_of (u : user_id) (st : Store) : list Transaction :=
  filter (λ t, t_user t = u) (transactions st).

(** The balance of a user's wallet; nothing without a wallet. *)
Definition balance_of (st : Store) (u : user_id) : Z :=
  match wallets st !! u with
  | Some wallet => balance wallet
  | None => 0
  end.

(** Every wallet's balance is what it earned minus what it spent. *)
Definition conserved_wallets (st : Store) : Prop :=
  ∀ u w, wallets st !! u = Some w →
         balance w = total_earned w - total_spent w.

(** No wallet holds less than its frozen amount. *)
Definition solvent (st : Store) : Prop :=
  ∀ u w, wallets st !! u = Some w → 0 ≤ available_balance w.

(** Every user's rows walk from zero to the balance of the user's wallet. *)
Definition chained (st : Store) : Prop :=
  ∀ u, Ledger.chain 0 (rows_of u st)
       ∧ Ledger.last_balance 0 (rows_of u st) = balance_of st u.

Definition sound (st : Store) : Prop :=
  wf_wallets st ∧ conserved_wallets st ∧ solvent st ∧ chained st.

(** The requests that reach the ledger: a user was created, the wallet
    view was opened, the achievements were evaluated on demand, a lesson
    progress, quiz attempt or enrollment was saved, a reward was redeemed,
    a ranking reward was claimed. *)
Inductive request : Type :=
  | UserCreated (user : user_id) (is_student : bool)
  | MyWallet (user : user_id)
  | CheckAll (user : user_id)
  | LessonSaved (student : user_id) (lesson : Lesson) (completed : bool)
  | QuizSaved (student : user_id) (quiz : Quiz) (passed completed : bool)
  | EnrollmentSaved (student : user_id) (course : Course) (completed : bool)
  | Redeem (now : Z) (code : string) (user : user_id) (pk : nat)
           (req : RedemptionRequest)
  | Claim (title : string) (self : UserRanking).

(** The store a request leaves, whatever its response. *)
Definition handle (act : Activity) (r : request) (st : Store) : Store :=
  match r with
  | UserCreated user is_student =>
      (create_fore_wallet true is_student user st).2
  | MyWallet user => (get_object user st).2
  | CheckAll user => (check_achievements_for_user act user "manual_check" st).2
  | LessonSaved student lesson completed =>
      save_lesson_progress act student lesson completed st
  | QuizSaved student quiz passed completed =>
      save_quiz_attempt act student quiz passed completed st
  | EnrollmentSaved student course completed =>
      save_course_enrollment act student course completed st
  | Redeem now code user pk req => (redeem now code user pk req st).2
  | Claim title self => (claim_reward title self st).2
  end.

Definition serve (act : Activity) (reqs : list request) (st : Store) : Store :=
  foldl (λ st r, handle act r st) st reqs.

(** ** Marketplace counters *)

(** A finite stock is never negative. *)
Definition stock_ok (st : Store) : Prop :=
  ∀ pk reward stock,
    rewards st !! pk = Some reward → stock_quantity reward = Some stock →
    0 ≤ stock.


(** No user holds more redemptions of a reward than its per-user limit. *)
Definition within_limits (st : Store) : Prop :=
  ∀ pk reward user,
    rewards st !! pk = Some reward → truthy (max_per_user reward) = true →
    user_redemptions st user pk ≤ default 0 (max_per_user reward).

(** ** Achievement capacity *)

(** Catalog rows have distinct primary keys. *)
Definition distinct_ids (st : Store) : Prop :=
  NoDup (a_id <$> achievements st).

(** No capped achievement has more grants than its cap. *)
Definition within_capacity (st : Store) : Prop :=
  ∀ a, a ∈ achievements st → truthy (max_recipients a) = true →
       recipients_count a st ≤ default 0 (max_recipients a).

(** A day of requests against [aula]: a second student registers, student
    1 saves a completed lesson twice and a passed quiz, asks for an
    evaluation, and a third user opens the wallet view. *)
Definition jornada : list request :=
  [UserCreated 2 true; LessonSaved 1 saludos true; LessonSaved 1 saludos true;
   QuizSaved 1 quiz_saludos true true; CheckAll 1; MyWallet 3].

(** The marketplace after student 1 received a welcome bonus of 1000.00. *)
Definition tienda : Store :=
  (wallet_add_tokens (new_wallet 1) 100000 "Bono de bienvenida" ADMIN_BONUS
     (mkStore {[ 1%nat := new_wallet 1 ]} [] [] [] {[ 7%nat := webinar ]} [])).2.

(** A weekly token leaderboard, and a streak leaderboard as
    [create_initial_leaderboards] declares it. *)
Definition tokens_board : Leaderboard :=
  mkLeaderboard FORE_TOKENS ALL_TIME 100 1000 750 500.

Definition rachas_activas : Leaderboard :=
  mkLeaderboard STREAK_DAYS ALL_TIME 100 400 250 150.

(** Student 1 has earned 1000.00 and holds a wallet; nobody else does. *)
Definition un_ganador : Scores :=
  mkScores (λ u, if decide (u = 1%nat) then Some 100000 else None)
           (λ _, 0) (λ _ _, 0) (λ _ _, 0) (λ _ _, 0) (λ _ _, 0).

(** A course worth 100 tokens. *)
Definition ingles_basico : Course := mkCourse 1 "Ingles Basico" 100.

(** A store without any wallet. *)
Definition sin_billetera : Store := mkStore ∅ [] [primera_leccion] [] ∅ [].

(** The pioneer badge capped at two recipients, for the sake of a small
    example, with one completed course required. *)
Definition pionero : Achievement :=
  mkAchievement 10 "Pionero" 2000 1 0 0 0 0 true false (Some 2).

Definition one_course : Activity :=
  mkActivity (λ _, 1) (λ _, 0) (λ _, 0).

(** Three students with wallets; the first two already hold the badge. *)
Definition pioneros : Store :=
  mkStore {[ 1%nat := new_wallet 1; 2%nat := new_wallet 2; 3%nat := new_wallet 3 ]}
          [] [pionero]
          [mkUserAchievement 1 10 2000 (mkProgress "" 1 0 0 0);
           mkUserAchievement 2 10 2000 (mkProgress "" 1 0 0 0)]
          ∅ [].

(** [st'] is a later state of [st]: the wallet table is well keyed, no
    user's lifetime earnings are lower, and the user, type, amount,
    [balance_after] and description of the rows of [st] are, in order, those
    of the first rows of [st']. *)
Definition later (st st' : Store) : Prop :=
  wf_wallets st'
  ∧ (∀ u, lifetime_tokens_earned st u ≤ lifetime_tokens_earned st' u)
  ∧ ∃ new, Ledger.core <$> transactions st'
           = (Ledger.core <$> transactions st) ++ new.

(** [st'] is reached from [st] by credits only: a later state in which no
    user's balance is lower. *)
Definition credited_since (st st' : Store) : Prop :=
  later st st' ∧ ∀ u, balance_of st u ≤ balance_of st' u.

(** The user has a wallet with room for a credit of [amt]. *)
Definition has_room (st : Store) (u : user_id) (amt : Z) : Prop :=
  ∃ w, wallets st !! u = Some w ∧ room_for_credit w amt.

(** The most an evaluation over [l] can award: the sum of the positive
    rewards. *)
Definition catalog_rewards (l : list Achievement) : Z :=
  foldr (λ a acc, Z.max 0 (Decimal (fore_tokens_reward a)) + acc) 0 l.

(** The wallet of [user] (an empty one, if the evaluation has to create
    it) can hold every reward of the catalog on top of what it holds. *)
Definition room_for_catalog (st : Store) (user : user_id) : Prop :=
  let w := default (new_wallet user) (wallets st !! user) in
  savable w = true
  ∧ savable (credited_row w (catalog_rewards (achievements st))) = true.

(** A shirt that has to be shipped. *)
Definition camiseta : Reward :=
  mkReward "Camiseta Cash for English" 500 true (Some 100) None None None
           true 0.

Definition tienda_camisetas : Store :=
  mkStore {[ 1%nat := mkWallet 1 100000 100000 0 0 ]} [] [] []
          {[ 4%nat := camiseta ]} [].

(** * Properties *)

(** ** Ledger *)

Section ledger_facts.
Import Ledger.

Lemma fits_spec (v : Z) : fits v = true ↔ - max_amount < v < max_amount.
Proof. unfold fits. apply bool_decide_eq_true. Qed.

Lemma savable_spec (w : FOREWallet) :
  savable w = true ↔
  fits (balance w) = true ∧ fits (total_earned w) = true
  ∧ fits (total_spent w) = true ∧ fits (frozen_amount w) = true.
Proof. unfold savable. rewrite !andb_true_iff. tauto. Qed.

Lemma add_tokens_ok self amt descr ty :
  0 < amt →
  savable (mkWallet (w_user self) (balance self + amt) (total_earned self + amt)
                    (total_spent self) (frozen_amount self)) = true →
  add_tokens self amt descr ty =
    Ok (mkWallet (w_user self) (balance self + amt) (total_earned self + amt)
                 (total_spent self) (frozen_amount self),
        Transaction_create (w_user self) ty amt (balance self + amt) descr,
        balance self + amt).
Proof.
  intros Hpos Hsave. unfold add_tokens.
  rewrite bool_decide_eq_false_2 by lia. cbn zeta. by rewrite Hsave.
Qed.

(** The three ways [add_tokens] can end. *)
Lemma add_tokens_cases self amt descr ty :
  (amt ≤ 0 ∧ add_tokens self amt descr ty = Raise InvalidAmount)
  ∨ (0 < amt
     ∧ savable (mkWallet (w_user self) (balance self + amt)
                  (total_earned self + amt) (total_spent self)
                  (frozen_amount self)) = false
     ∧ add_tokens self amt descr ty = Raise InvalidOperation)
  ∨ (0 < amt
     ∧ savable (mkWallet (w_user self) (balance self + amt)
                  (total_earned self + amt) (total_spent self)
                  (frozen_amount self)) = true
     ∧ add_tokens self amt descr ty =
         Ok (mkWallet (w_user self) (balance self + amt)
               (total_earned self + amt) (total_spent self)
               (frozen_amount self),
             Transaction_create (w_user self) ty amt (balance self + amt) descr,
             balance self + amt)).
Proof.
  unfold add_tokens. case_bool_decide as Hamt; [by left |]. cbn zeta.
  destruct (savable _) eqn:Hsave; cbn [negb].
  - right; right. split; [lia | done].
  - right; left. split; [lia | done].
Qed.

Lemma add_tokens_raise self amt descr ty :
  amt ≤ 0 → add_tokens self amt descr ty = Raise InvalidAmount.
Proof.
  intros Hle. unfold add_tokens. by rewrite bool_decide_eq_true_2.
Qed.

Lemma spend_tokens_ok self amt descr ty :
  amt ≤ available_balance self →
  savable (mkWallet (w_user self) (balance self - amt) (total_earned self)
                    (total_spent self + amt) (frozen_amount self)) = true →
  spend_tokens self amt descr ty =
    Ok (mkWallet (w_user self) (balance self - amt) (total_earned self)
                 (total_spent self + amt) (frozen_amount self),
        Transaction_create (w_user self) ty (- amt) (balance self - amt) descr,
        balance self - amt).
Proof.
  intros Hle Hsave. unfold spend_tokens, can_spend.
  rewrite bool_decide_eq_true_2 by lia. cbn [negb]. cbn zeta. by rewrite Hsave.
Qed.

(** The three ways [spend_tokens] can end. *)
Lemma spend_tokens_cases self amt descr ty :
  (available_balance self < amt
   ∧ spend_tokens self amt descr ty = Raise InsufficientBalance)
  ∨ (amt ≤ available_balance self
     ∧ savable (mkWallet (w_user self) (balance self - amt) (total_earned self)
                  (total_spent self + amt) (frozen_amount self)) = false
     ∧ spend_tokens self amt descr ty = Raise InvalidOperation)
  ∨ (amt ≤ available_balance self
     ∧ savable (mkWallet (w_user self) (balance self - amt) (total_earned self)
                  (total_spent self + amt) (frozen_amount self)) = true
     ∧ spend_tokens self amt descr ty =
         Ok (mkWallet (w_user self) (balance self - amt) (total_earned self)
               (total_spent self + amt) (frozen_amount self),
             Transaction_create (w_user self) ty (- amt) (balance self - amt)
               descr,
             balance self - amt)).
Proof.
  unfold spend_tokens, can_spend. case_bool_decide as Hamt; cbn [negb].
  - cbn zeta. destruct (savable _) eqn:Hsave; cbn [negb].
    + right; right. done.
    + right; left. done.
  - left. split; [lia | done].
Qed.

(** The row handed to [Transaction.objects.create] fits its columns
    whenever the wallet held no negative amount. *)
Lemma transaction_row_fits self amt descr ty w' tx b :
  savable self = true →
  0 ≤ total_earned self → 0 ≤ frozen_amount self → 0 ≤ balance self →
  add_tokens self amt descr ty = Ok (w', tx, b)
    ∨ spend_tokens self amt descr ty = Ok (w', tx, b) →
  fits (amount tx) = true ∧ fits (balance_after tx) = true.
Proof.
  intros Hself He Hf Hb.
  apply savable_spec in Hself as (Hb0 & _ & _ & _). apply fits_spec in Hb0.
  intros [Hadd | Hspend].
  - destruct (add_tokens_cases self amt descr ty)
      as [[_ Heq] | [(_ & _ & Heq) | (Hpos & Hsave & Heq)]];
      rewrite Heq in Hadd; try discriminate.
    injection Hadd as <- <- <-.
    apply savable_spec in Hsave as (H1 & H2 & _). cbn in *.
    apply fits_spec in H1, H2. rewrite !fits_spec. lia.
  - destruct (spend_tokens_cases self amt descr ty)
      as [[_ Heq] | [(_ & _ & Heq) | (Hle & Hsave & Heq)]];
      rewrite Heq in Hspend; try discriminate.
    injection Hspend as <- <- <-.
    apply savable_spec in Hsave as (H1 & _). cbn in *.
    apply fits_spec in H1. unfold available_balance in Hle.
    rewrite !fits_spec. lia.
Qed.

Lemma spend_tokens_raise self amt descr ty :
  available_balance self < amt →
  spend_tokens self amt descr ty = Raise InsufficientBalance.
Proof.
  intros Hlt. unfold spend_tokens, can_spend.
  rewrite bool_decide_eq_false_2 by lia. reflexivity.
Qed.

(** What one successful call does to the wallet. *)
Lemma step_totals s o s' :
  step s o = Ok s' →
  balance (wallet s') = balance (wallet s) + delta o
  ∧ total_earned (wallet s') = total_earned (wallet s) + credited o
  ∧ total_spent (wallet s') = total_spent (wallet s) + debited o.
Proof.
  destruct o as [amt descr ty | amt descr ty | title r]; simpl.
  - destruct (add_tokens_cases (wallet s) amt descr ty)
      as [[_ ->] | [(_ & _ & ->) | (_ & _ & ->)]]; try discriminate.
    intros [= <-]. simpl. lia.
  - destruct (spend_tokens_cases (wallet s) amt descr ty)
      as [[_ ->] | [(_ & _ & ->) | (_ & _ & ->)]]; try discriminate.
    intros [= <-]. simpl. lia.
  - intros [= <-]. simpl. lia.
Qed.

(** What it does to the log: a credit or debit appends one row that
    continues the walk; a reference update rewrites rows in place and
    keeps their [core] columns. *)
Lemma step_log s o s' :
  step s o = Ok s' →
  match o with
  | SetRefs _ _ =>
      core <$> log s' = core <$> log s
      ∧ balance (wallet s') = balance (wallet s)
  | _ =>
      ∃ tx, log s' = log s ++ [tx]
            ∧ amount tx = delta o
            ∧ balance_after tx = balance (wallet s) + delta o
            ∧ balance (wallet s') = balance_after tx
  end.
Proof.
  destruct o as [amt descr ty | amt descr ty | title r]; simpl.
  - destruct (add_tokens_cases (wallet s) amt descr ty)
      as [[_ ->] | [(_ & _ & ->) | (_ & _ & ->)]]; try discriminate.
    intros [= <-]. eexists. simpl. repeat split; lia.
  - destruct (spend_tokens_cases (wallet s) amt descr ty)
      as [[_ ->] | [(_ & _ & ->) | (_ & _ & ->)]]; try discriminate.
    intros [= <-]. eexists. simpl. repeat split; lia.
  - intros [= <-]. simpl. split; [| done].
    rewrite <- list_fmap_compose. apply list_fmap_ext.
    intros i tx _. simpl. by destruct (contains _ _).
Qed.

Lemma run_totals ops : ∀ s s',
  run s ops = Some s' →
  balance (wallet s') = balance (wallet s) + sum credited ops - sum debited ops
  ∧ total_earned (wallet s') = total_earned (wallet s) + sum credited ops
  ∧ total_spent (wallet s') = total_spent (wallet s) + sum debited ops.
Proof.
  induction ops as [| o ops IH]; intros s s'; simpl.
  - intros [= <-]. lia.
  - destruct (step s o) as [s1 |] eqn:Hstep; [| discriminate].
    intros Hrun. apply IH in Hrun as (Hb & He & Hs).
    apply step_totals in Hstep as (Hb1 & He1 & Hs1).
    destruct o; simpl in *; lia.
Qed.

(** Every prefix of a sequence of successful calls is one. *)
Lemma run_take ops : ∀ s s' n,
  run s ops = Some s' → ∃ s'', run s (take n ops) = Some s''.
Proof.
  induction ops as [| o ops IH]; intros s s' n; simpl.
  - intros _. rewrite take_nil. by eexists.
  - destruct n as [| n]; simpl; [by eexists |].
    destruct (step s o) as [s1 |]; [| discriminate]. apply IH.
Qed.

Lemma run_app l1 : ∀ s0 l2 s2,
  run s0 (l1 ++ l2) = Some s2 →
  ∃ s1, run s0 l1 = Some s1 ∧ run s1 l2 = Some s2.
Proof.
  induction l1 as [| o l1 IH]; intros s0 l2 s2; simpl.
  - intros H. by exists s0.
  - destruct (step s0 o); [apply IH | discriminate].
Qed.

Lemma chain_app b l1 l2 :
  chain b (l1 ++ l2) ↔ chain b l1 ∧ chain (last_balance b l1) l2.
Proof.
  revert b. induction l1 as [| tx l1 IH]; intros b; simpl.
  - tauto.
  - rewrite IH. tauto.
Qed.

Lemma last_balance_snoc b l tx :
  last_balance b (l ++ [tx]) = balance_after tx.
Proof. revert b. induction l as [| t l IH]; intros b; simpl; auto. Qed.

(** The walk only reads the [core] columns. *)
Lemma chain_core l1 : ∀ l2 b,
  core <$> l1 = core <$> l2 →
  (chain b l1 → chain b l2) ∧ last_balance b l1 = last_balance b l2.
Proof.
  induction l1 as [| t1 l1 IH]; intros [| t2 l2] b; simpl; try done.
  intros [= Hu Hty Ham Hba Hd Hrest].
  destruct (IH l2 (balance_after t1) Hrest) as [Hch Hlast].
  rewrite <- Hba, <- Ham. split; [| done]. intros [H1 H2]. auto.
Qed.

(** The log of a wallet that walks from [b0] to the wallet's balance keeps
    doing so. *)
Lemma run_chain ops : ∀ b0 s s',
  run s ops = Some s' →
  chain b0 (log s) → last_balance b0 (log s) = balance (wallet s) →
  chain b0 (log s') ∧ last_balance b0 (log s') = balance (wallet s').
Proof.
  induction ops as [| o ops IH]; intros b0 s s'; simpl.
  - by intros [= <-].
  - destruct (step s o) as [s1 |] eqn:Hstep; [| discriminate].
    intros Hrun Hch Hlast. apply (IH b0 s1 s' Hrun).
    + pose proof (step_log _ _ _ Hstep) as Hlog.
      destruct o; try (destruct Hlog as (tx & -> & Hamt & Hafter & _);
        apply chain_app; split; [done |]; simpl; rewrite Hlast;
        split; [| done]).
      * rewrite Hafter, Hamt. done.
      * rewrite Hafter, Hamt. done.
      * destruct Hlog as [Hcore _]. symmetry in Hcore.
        by apply (chain_core _ _ b0 Hcore).
    + pose proof (step_log _ _ _ Hstep) as Hlog.
      destruct o; try (destruct Hlog as (tx & -> & _ & _ & Hb);
        by rewrite last_balance_snoc).
      destruct Hlog as [Hcore Hb]. symmetry in Hcore.
      destruct (chain_core _ _ b0 Hcore) as [_ <-]. congruence.
Qed.

(** The [core] columns of the rows already written stay a prefix of the
    log, and the rows added are one per credit or debit, in order. *)
Lemma run_log ops : ∀ s s',
  run s ops = Some s' →
  ∃ new, core <$> log s' = (core <$> log s) ++ new
         ∧ amount <$> log s' = (amount <$> log s) ++ movements ops.
Proof.
  induction ops as [| o ops IH]; intros s s'; simpl.
  - intros [= <-]. exists []. by rewrite !app_nil_r.
  - destruct (step s o) as [s1 |] eqn:Hstep; [| discriminate].
    intros Hrun. apply IH in Hrun as (new & Hcore & Ham).
    pose proof (step_log _ _ _ Hstep) as Hlog.
    assert (Hamount : ∀ l1 l2 : list Transaction,
              core <$> l1 = core <$> l2 → amount <$> l1 = amount <$> l2).
    { intros l1 l2 H.
      assert (Hc : ∀ l : list Transaction,
                amount <$> l = (λ c, c.1.1.2) <$> (core <$> l)).
      { intros l. by rewrite <- list_fmap_compose. }
      by rewrite !Hc, H. }
    assert (Happ : ∀ tx, log s1 = log s ++ [tx] → amount tx = delta o →
              core <$> log s' = (core <$> log s) ++ (core tx :: new)
              ∧ amount <$> log s' = (amount <$> log s) ++ (delta o :: movements ops)).
    { intros tx Hl Hamt. rewrite Hcore, Ham, Hl, !fmap_app, <- !app_assoc.
      simpl. by rewrite Hamt. }
    destruct o as [amt descr ty | amt descr ty | title r].
    + destruct Hlog as (tx & Hl & Hamt & _). eexists. by apply Happ.
    + destruct Hlog as (tx & Hl & Hamt & _). eexists. by apply Happ.
    + destruct Hlog as [Hc _]. rewrite Hc in Hcore.
      rewrite (Hamount _ _ Hc) in Ham. by exists new.
Qed.

(** The walk of a chain, read by index. *)
Lemma chain_lookup l : ∀ b i tx,
  chain b l → l !! i = Some tx →
  balance_after tx =
    match i with
    | O => b
    | S j => default b (balance_after <$> l !! j)
    end + amount tx.
Proof.
  induction l as [| t l IH]; intros b i tx; simpl; [done |].
  intros [Ht Hch]. destruct i as [| i]; simpl.
  - by intros [= <-].
  - intros Hi. rewrite (IH _ _ _ Hch Hi).
    destruct i as [| j]; simpl; [done |].
    destruct (l !! j) eqn:Hj; simpl; [done |].
    apply lookup_ge_None in Hj. apply lookup_lt_Some in Hi. lia.
Qed.

End ledger_facts.

(** Case analysis on the [add_tokens] ([spend_tokens]) call of the goal:
    refused, not savable, done. *)
Ltac split_add_tokens Hamt Hsave :=
  match goal with
  | |- context [add_tokens ?w ?amt ?descr ?ty] =>
      destruct (add_tokens_cases w amt descr ty)
        as [[Hamt ->] | [(Hamt & Hsave & ->) | (Hamt & Hsave & ->)]]
  end.

Ltac split_spend_tokens Hamt Hsave :=
  match goal with
  | |- context [spend_tokens ?w ?amt ?descr ?ty] =>
      destruct (spend_tokens_cases w amt descr ty)
        as [[Hamt ->] | [(Hamt & Hsave & ->) | (Hamt & Hsave & ->)]]
  end.

Section ledger_claims.
Import Ledger.

(** C2 — balance conservation.  Starting from a fresh wallet, after every
    prefix of a sequence of successful [add_tokens] / [spend_tokens] calls
    the wallet satisfies [balance = total_earned - total_spent] and its
    balance is the sum of the credited amounts minus the sum of the debited
    amounts; in particular this holds for the final wallet. *)
Theorem balance_conservation (u : user_id) (ops : list op) (s : t) :
  run (fresh u) ops = Some s →
  (∀ n, ∃ s', run (fresh u) (take n ops) = Some s'
              ∧ conserved s'
              ∧ balance (wallet s') =
                  sum credited (take n ops) - sum debited (take n ops))
  ∧ conserved s
  ∧ balance (wallet s) = sum credited ops - sum debited ops.
Proof.
  intros Hrun.
  assert (Hfrom : ∀ l s', run (fresh u) l = Some s' →
            conserved s' ∧ balance (wallet s') = sum credited l - sum debited l).
  { intros l s' Hl. apply run_totals in Hl as (Hb & He & Hs).
    unfold conserved. simpl in *. lia. }
  split; [| by apply Hfrom].
  intros n. destruct (run_take ops _ _ n Hrun) as [s' Hs'].
  exists s'. split; [done |]. by apply Hfrom.
Qed.

Lemma balance_conservation_witness :
  ∃ s, run (fresh 1) [Credit 10000 "" LESSON_COMPLETED;
                      Debit 3000 "" REWARD_PURCHASE] = Some s
       ∧ conserved s ∧ balance (wallet s) = 7000.
Proof.
  eexists. split; [reflexivity |].
  pose proof (balance_conservation 1
                [Credit 10000 "" LESSON_COMPLETED;
                 Debit 3000 "" REWARD_PURCHASE] _ eq_refl) as (_ & Hc & Hb).
  split; [exact Hc | exact Hb].
Defined.

(** C3 as stated fails in its last clause: when the lesson receiver runs,
    its bulk update rewrites a row that was written earlier — the old bonus
    row now points to the lesson and its course. *)
Lemma transaction_rows_are_updated_counterexample :
  let st' := save_lesson_progress no_activity 1 saludos true aula_con_bono in
  transactions aula_con_bono
    = [mkTransaction 1 ADMIN_BONUS 500 500 "Bono por Saludos"
         None None None None]
  ∧ head (transactions st')
    = Some (mkTransaction 1 ADMIN_BONUS 500 500 "Bono por Saludos"
              (Some 1%nat) (Some 1%nat) None None)
  ∧ head (transactions st') ≠ head (transactions aula_con_bono).
Proof. vm_compute. repeat split. discriminate. Qed.

(** C3, amended — transaction chain integrity.  For the rows of a wallet
    that started at zero, after any sequence of successful credits, debits
    and reference updates: the first row has [balance_after = amount],
    every later row has [balance_after] equal to the previous row's
    [balance_after] plus its own [amount]; exactly one row was appended per
    credit or debit, carrying its signed amount; and the user, type,
    amount, [balance_after] and description of the rows present after any
    prefix of the calls are still, in the same order, those of the first
    rows of the final log. *)
Theorem transaction_chain_integrity (u : user_id) (ops : list op) (s : t) :
  run (fresh u) ops = Some s →
  (∀ tx, log s !! 0%nat = Some tx → balance_after tx = amount tx)
  ∧ (∀ i prev tx, log s !! i = Some prev → log s !! S i = Some tx →
       balance_after tx = balance_after prev + amount tx)
  ∧ amount <$> log s = movements ops
  ∧ (∀ n s', run (fresh u) (take n ops) = Some s' →
       core <$> log s' = take (length (log s')) (core <$> log s)).
Proof.
  intros Hrun.
  destruct (run_chain _ 0 _ _ Hrun) as [Hch _]; [done | done |].
  destruct (run_log _ _ _ Hrun) as (new & _ & Ham). simpl in Ham.
  split; [| split; [| split]].
  - intros tx H0. rewrite (chain_lookup _ _ _ _ Hch H0). lia.
  - intros i prev tx Hi HSi. rewrite (chain_lookup _ _ _ _ Hch HSi).
    by rewrite Hi.
  - done.
  - intros n s' Hn.
    rewrite <- (take_drop n ops) in Hrun.
    apply run_app in Hrun as (s1 & Hs1 & Hrest).
    rewrite Hn in Hs1. injection Hs1 as <-.
    destruct (run_log _ _ _ Hrest) as (rest & -> & _).
    symmetry. apply take_app_length'. by rewrite length_fmap.
Qed.

Lemma transaction_chain_integrity_witness :
  ∃ s, run (fresh 1) [Credit 10000 "Saludos" LESSON_COMPLETED;
                      SetRefs "Saludos" (mkRefs (Some 1%nat) (Some 1%nat) None None);
                      Debit 3000 "" REWARD_PURCHASE] = Some s
       ∧ (balance_after <$> log s) = [10000; 7000]
       ∧ (amount <$> log s) = [10000; -3000].
Proof.
  eexists. split; [reflexivity |].
  pose proof (transaction_chain_integrity 1
                [Credit 10000 "Saludos" LESSON_COMPLETED;
                 SetRefs "Saludos" (mkRefs (Some 1%nat) (Some 1%nat) None None);
                 Debit 3000 "" REWARD_PURCHASE] _ eq_refl) as (_ & _ & Ham & _).
  split; [reflexivity | exact Ham].
Defined.

End ledger_claims.

(** C4 — debit rejects overdraft.  [spend_tokens] with an amount above
    [available_balance = balance - frozen_amount] raises the
    insufficient-balance [ValueError]; the wallet row, hence [balance],
    [total_earned] and [total_spent], and the transaction table are left
    as they were. *)
Theorem debit_rejects_overdraft (w : FOREWallet) (amt : Z) (descr : string)
    (ty : TransactionType) (st : Store) :
  available_balance w < amt →
  spend_tokens w amt descr ty = Raise InsufficientBalance
  ∧ wallet_spend_tokens w amt descr ty st = (Raise InsufficientBalance, st)
  ∧ ∀ l, Ledger.step (Ledger.mk w l) (Ledger.Debit amt descr ty)
         = Raise InsufficientBalance.
Proof.
  intros Hlt. pose proof (spend_tokens_raise w amt descr ty Hlt) as Hraise.
  split; [done |]. split.
  - unfold wallet_spend_tokens. by rewrite Hraise.
  - intros l. simpl. by rewrite Hraise.
Qed.

Lemma debit_rejects_overdraft_witness :
  spend_tokens (mkWallet 1 7000 10000 3000 0) 100000 "" REWARD_PURCHASE
  = Raise (ValueError "Balance insuficiente").
Proof.
  apply (debit_rejects_overdraft (mkWallet 1 7000 10000 3000 0) 100000 ""
           REWARD_PURCHASE (mkStore ∅ [] [] [] ∅ [])).
  unfold available_balance. simpl. lia.
Defined.

(** The credit half of C5: [add_tokens] with an amount that is not
    positive raises the invalid-amount [ValueError] and writes nothing. *)
Lemma credit_rejects_nonpositive (w : FOREWallet) (amt : Z) (descr : string)
    (ty : TransactionType) (st : Store) :
  amt ≤ 0 →
  wallet_add_tokens w amt descr ty st = (Raise InvalidAmount, st).
Proof.
  intros Hle. unfold wallet_add_tokens. by rewrite add_tokens_raise.
Qed.

(** [spend_tokens] never raises the invalid-amount error: its only guard
    is [can_spend]. *)
Lemma spend_tokens_never_invalid_amount (w : FOREWallet) (amt : Z)
    (descr : string) (ty : TransactionType) :
  spend_tokens w amt descr ty ≠ Raise InvalidAmount.
Proof.
  destruct (spend_tokens_cases w amt descr ty)
    as [[_ ->] | [(_ & _ & ->) | (_ & _ & ->)]]; discriminate.
Qed.

(** C5 — the debit half fails on the code.  [spend_tokens(-5)] on a fresh
    wallet returns normally: the balance rises to 5.00, [total_spent] drops
    to -5.00 and a transaction of amount +5.00 is appended. *)
Theorem spend_tokens_accepts_negative_amount :
  let st := mkStore {[ 1%nat := new_wallet 1 ]} [] [] [] ∅ [] in
  let r := wallet_spend_tokens (new_wallet 1) (-500) "" SPENT st in
  r.1 = Ok 500
  ∧ wallets r.2 !! 1%nat = Some (mkWallet 1 500 0 (-500) 0)
  ∧ transactions r.2 = [mkTransaction 1 SPENT 500 500 "" None None None None].
Proof. vm_compute. repeat split. Qed.

(** The column bound at work: a credit that would lift the balance to
    10^10 is refused by [self.save()] and writes nothing; the largest
    amount below it is written. *)
Example credit_at_the_column_bound :
  let st := mkStore {[ 1%nat := new_wallet 1 ]} [] [] [] ∅ [] in
  wallet_add_tokens (new_wallet 1) (Decimal 10000000000) "" ADMIN_BONUS st
    = (Raise InvalidOperation, st)
  ∧ (wallet_add_tokens (new_wallet 1) (Decimal 9999999999) "" ADMIN_BONUS st).1
    = Ok 999999999900.
Proof. split; reflexivity. Qed.

(** ** Achievement eligibility *)

Section eligibility.
Variable act : Activity.

Lemma check_achievement_thresholds (a : Achievement) (user : user_id)
    (st : Store) :
  valid_thresholds a →
  is_available a st = true →
  has_grant st user (a_id a) = false →
  check_achievement act a user st = true ↔
    met (required_courses a) (completed_courses act user)
    ∧ met (required_lessons a) (completed_lessons act user)
    ∧ met (required_quizzes a) (passed_quizzes act user)
    ∧ met (Decimal (required_fore_tokens a)) (lifetime_tokens_earned st user).
Proof.
  intros (Hc & Hl & Hq & _ & Ht) Hav Hng.
  unfold check_achievement, met, lifetime_tokens_earned, Decimal.
  rewrite Hng, Hav. simpl.
  destruct (wallets st !! user) as [wallet |];
    repeat match goal with
           | |- context [?x <? ?y] => destruct (Z.ltb_spec x y); simpl
           end;
    split; (discriminate || (intros; lia) || (intros; repeat split; intros; lia)
            || (intros; exfalso; lia) || idtac).
  all: try (intros (H1 & H2 & H3 & H4); lia).
  all: try reflexivity.
Qed.

End eligibility.

(** C6 as stated fails: a user with no activity and a streak of zero days
    is found eligible for the achievement that requires a seven-day streak,
    although that declared threshold is not met. *)
Lemma eligibility_streak_counterexample :
  let st := mkStore ∅ [] [constancia] [] ∅ [] in
  valid_thresholds constancia
  ∧ is_available constancia st = true
  ∧ has_grant st 1 (a_id constancia) = false
  ∧ ¬ (check_achievement no_activity constancia 1 st = true
       ↔ spec_satisfied constancia (stats_of no_activity st 1 0)).
Proof.
  simpl. split; [unfold valid_thresholds; simpl; lia |].
  split; [reflexivity |]. split; [reflexivity |].
  intros [Hto _]. destruct (Hto eq_refl) as (_ & _ & _ & Hstreak & _).
  unfold met in Hstreak. simpl in Hstreak. lia.
Qed.

(** C6, amended — for an available achievement not yet granted to the
    user, [check_achievement] returns true exactly when each of the four
    thresholds it evaluates — required courses, lessons, quizzes and
    tokens earned — is zero or reached by the user's current stats;
    [required_streak_days] is not evaluated. *)
Theorem eligibility_is_conjunction_of_evaluated_thresholds
    (act : Activity) (a : Achievement) (user : user_id) (st : Store)
    (streak : Z) :
  valid_thresholds a →
  is_available a st = true →
  has_grant st user (a_id a) = false →
  let s := stats_of act st user streak in
  check_achievement act a user st = true ↔
    met (required_courses a) (stat_courses s)
    ∧ met (required_lessons a) (stat_lessons s)
    ∧ met (required_quizzes a) (stat_quizzes s)
    ∧ met (Decimal (required_fore_tokens a)) (stat_tokens_earned s).
Proof.
  intros Hv Hav Hng. simpl. by apply check_achievement_thresholds.
Qed.

Lemma eligibility_is_conjunction_of_evaluated_thresholds_witness :
  check_achievement no_activity constancia 1
    (mkStore ∅ [] [constancia] [] ∅ []) = true.
Proof.
  apply (eligibility_is_conjunction_of_evaluated_thresholds
           no_activity constancia 1 (mkStore ∅ [] [constancia] [] ∅ []) 0).
  - unfold valid_thresholds. simpl. lia.
  - reflexivity.
  - reflexivity.
  - unfold met, Decimal. simpl. repeat split; intros; lia.
Defined.

(** ** Granting an achievement *)

Lemma prefix_refl (s : string) : String.prefix s s = true.
Proof.
  induction s as [| c s IH]; simpl; [done |].
  destruct (Ascii.ascii_dec c c); [done | congruence].
Qed.

Lemma contains_append (p s : string) : contains s (p +:+ s) = true.
Proof.
  induction p as [| c p IH].
  - change ("" +:+ s) with s.
    destruct s; cbn [contains]; by rewrite prefix_refl.
  - change (String c p +:+ s) with (String c (p +:+ s)).
    cbn [contains]. rewrite IH. apply orb_true_r.
Qed.

Lemma has_grant_false_check (act : Activity) (a : Achievement) (user : user_id)
    (st : Store) :
  check_achievement act a user st = true → has_grant st user (a_id a) = false.
Proof.
  unfold check_achievement. by destruct (has_grant st user (a_id a)).
Qed.

#[local] Opaque contains String.append.

(** A bulk update that only sets references keeps the money columns. *)
Lemma update_keeps_amounts (g : Transaction → Transaction)
    (c : Transaction → bool) (l : list Transaction) :
  (∀ t, amount (g t) = amount t) →
  amount <$> ((λ t, if c t then g t else t) <$> l) = amount <$> l.
Proof.
  intros Hg. rewrite <- list_fmap_compose. apply list_fmap_ext.
  intros _ t _. simpl. destruct (c t); [apply Hg | done].
Qed.

(** C7 as stated fails for a reward of zero: the grant row is inserted
    with zero tokens awarded, [add_tokens] refuses the amount, and no
    credit is recorded. *)
Lemma grant_zero_reward_counterexample :
  let st := mkStore {[ 1%nat := new_wallet 1 ]} [] [participacion] [] ∅ [] in
  let p := progress_of one_lesson 1 "lesson_completed" st in
  let r := UserAchievement_create 1 participacion p st in
  check_achievement one_lesson participacion 1 st = true
  ∧ r.1 = Raise InvalidAmount
  ∧ user_achievements r.2 = [mkUserAchievement 1 1 0 p]
  ∧ transactions r.2 = [].
Proof. vm_compute. repeat split. Qed.

(** C7, amended — for a satisfied achievement with a positive token
    reward, granted to a user who has a wallet with room for the reward
    (balance and [total_earned] stay below 10^10 after the credit):
    exactly one grant row is inserted, whose [fore_tokens_awarded] is the
    achievement's reward at that moment, and exactly one transaction is
    appended, a credit of that amount of type [achievement_earned] that
    references the achievement and raises the wallet's balance and
    [total_earned] by it. *)
Theorem grant_inserts_one_row_and_one_credit (act : Activity)
    (a : Achievement) (user : user_id) (w : FOREWallet) (p : Progress)
    (st : Store) :
  check_achievement act a user st = true →
  0 < fore_tokens_reward a →
  wallets st !! user = Some w →
  w_user w = user →
  room_for_credit w (Decimal (fore_tokens_reward a)) →
  ∃ row tx st',
    UserAchievement_create user a p st = (Ok row, st')
    ∧ row = mkUserAchievement user (a_id a) (fore_tokens_reward a) p
    ∧ user_achievements st' = user_achievements st ++ [row]
    ∧ length (transactions st') = S (length (transactions st))
    ∧ amount <$> transactions st' =
        (amount <$> transactions st) ++ [Decimal (fore_tokens_reward a)]
    ∧ last (transactions st') = Some tx
    ∧ t_user tx = user
    ∧ transaction_type tx = ACHIEVEMENT_EARNED
    ∧ amount tx = Decimal (fore_tokens_awarded row)
    ∧ balance_after tx = balance w + Decimal (fore_tokens_reward a)
    ∧ related_achievement tx = Some (a_id a)
    ∧ wallets st' !! user =
        Some (mkWallet user (balance w + Decimal (fore_tokens_reward a))
                (total_earned w + Decimal (fore_tokens_reward a))
                (total_spent w) (frozen_amount w)).
Proof.
  intros Hcheck Hpos Hw Hu [Hsave _].
  pose proof (has_grant_false_check _ _ _ _ Hcheck) as Hng.
  assert (HposD : 0 < Decimal (fore_tokens_reward a)) by (unfold Decimal; lia).
  unfold UserAchievement_create, UserAchievement_save. simpl.
  rewrite Hng. unfold bind, modify, reward_achievement_earned. simpl.
  rewrite Hw. unfold wallet_add_tokens, bind.
  rewrite (add_tokens_ok _ _ _ _ HposD Hsave). unfold modify, ret. simpl.
  unfold update_transactions, modify. simpl.
  do 3 eexists. split; [reflexivity |]. split; [reflexivity |]. simpl.
  split; [reflexivity |].
  rewrite fmap_app, length_app, length_fmap. simpl.
  rewrite fmap_app, update_keeps_amounts by done. simpl.
  rewrite Hu, bool_decide_eq_true_2 by done. simpl.
  rewrite contains_append. simpl. rewrite last_snoc.
  split; [lia |]. split; [done |]. split; [reflexivity |].
  repeat split; try done.
  by rewrite lookup_insert_eq.
Qed.

Lemma grant_inserts_one_row_and_one_credit_witness :
  let st := mkStore {[ 1%nat := new_wallet 1 ]} [] [primera_leccion] [] ∅ [] in
  let p := progress_of one_lesson 1 "lesson_completed" st in
  ∃ row tx st',
    UserAchievement_create 1 primera_leccion p st = (Ok row, st')
    ∧ fore_tokens_awarded row = 50
    ∧ amount tx = 5000
    ∧ last (transactions st') = Some tx.
Proof.
  intros st p.
  destruct (grant_inserts_one_row_and_one_credit one_lesson primera_leccion 1
              (new_wallet 1) p st)
    as (row & tx & st' & Hrun & Hrow & _ & _ & _ & Hlast & _ & _ & Hamt & _);
    [reflexivity | reflexivity | reflexivity | reflexivity
    | split; reflexivity |].
  exists row, tx, st'.
  split; [exact Hrun |]. rewrite Hrow in Hamt |- *.
  split; [reflexivity |]. split; [exact Hamt | exact Hlast].
Defined.

(** ** Uniqueness of grants and re-evaluation *)

(** C1 as stated fails: with the same course activity, the first
    evaluation examines the collector's badge (300.00 earned, 1000 asked),
    then grants the advanced student's, whose reward lifts the lifetime
    earnings to 1050.00; the second evaluation then grants the collector's
    badge. *)
Lemma rerun_grants_again_counterexample :
  let st := catalogo [coleccionista; estudiante] in
  let r1 := check_achievements_for_user fifty_lessons 1 "lesson_completed" st in
  let r2 := check_achievements_for_user fifty_lessons 1 "manual_check" r1.2 in
  r1.1 = Ok tt
  ∧ granted_to 1 r1.2 = [2%nat]
  ∧ lifetime_tokens_earned r1.2 1 = 105000
  ∧ r2.1 = Ok tt
  ∧ granted_to 1 r2.2 = [2%nat; 1%nat].
Proof. vm_compute. repeat split. Qed.

Section regrant.
Context (act : Activity) (user : user_id).

Lemma has_grant_elem (st : Store) (u : user_id) (a : nat) :
  has_grant st u a = true ↔
  (u, a) ∈ (λ g, (ua_user g, ua_achievement g)) <$> user_achievements st.
Proof.
  unfold has_grant. rewrite existsb_exists, list_elem_of_fmap. split.
  - intros (g & Hin & Hg). apply andb_true_iff in Hg as [H1 H2].
    apply bool_decide_eq_true in H1, H2. exists g.
    split; [by rewrite H1, H2 | by apply list_elem_of_In].
  - intros (g & Heq & Hin). injection Heq as -> ->. exists g.
    split; [by apply list_elem_of_In |]. by rewrite !bool_decide_eq_true_2.
Qed.

Lemma wf_wallets_insert (st : Store) (u : user_id) (w : FOREWallet) :
  wf_wallets st → w_user w = u → wf_wallets (set_wallets (insert u w) st).
Proof.
  intros Hwf Hu u' w'. unfold set_wallets. simpl.
  destruct (decide (u = u')) as [<- | Hne].
  - rewrite lookup_insert_eq. by intros [= <-].
  - rewrite lookup_insert_ne by done. apply Hwf.
Qed.

(** What [UserAchievement.objects.create] does to the store, whatever its
    outcome: the catalog is untouched, the wallet table stays well keyed,
    lifetime earnings do not drop, and the grant table is either unchanged
    (the unique constraint refused the row) or extended by one row for a
    pair that had none. *)
Lemma create_effect (a : Achievement) (p : Progress) (st st' : Store)
    (r : outcome UserAchievement) :
  UserAchievement_create user a p st = (r, st') →
  wf_wallets st →
  achievements st' = achievements st
  ∧ wf_wallets st'
  ∧ lifetime_tokens_earned st user ≤ lifetime_tokens_earned st' user
  ∧ ((user_achievements st' = user_achievements st ∧ r = Raise IntegrityError)
     ∨ (has_grant st user (a_id a) = false
        ∧ user_achievements st' =
            user_achievements st
              ++ [mkUserAchievement user (a_id a) (fore_tokens_reward a) p])).
Proof.
  unfold UserAchievement_create, UserAchievement_save. simpl.
  destruct (has_grant st user (a_id a)) eqn:Hg.
  { intros [= <- <-] Hwf. repeat split; try done. by left. }
  unfold bind, modify, reward_achievement_earned, lifetime_tokens_earned.
  simpl. destruct (wallets st !! user) as [w |] eqn:Hw.
  - unfold wallet_add_tokens.
    split_add_tokens Hamt Hsave; unfold bind, throw, modify, ret,
      update_transactions, modify; simpl.
    + intros [= <- <-] Hwf. simpl. rewrite Hw.
      repeat split; try done. by right.
    + intros [= <- <-] Hwf. simpl. rewrite Hw.
      repeat split; try done. by right.
    + intros [= <- <-] Hwf. simpl. pose proof (Hwf _ _ Hw) as Hu.
      rewrite Hu, lookup_insert_eq. simpl. repeat split; try done.
      * rewrite <- Hu at 2.
        apply (wf_wallets_insert
                 (set_user_achievements (λ l, l ++ [_]) st)); [done |].
        simpl. done.
      * lia.
      * by right.
  - intros [= <- <-] Hwf. simpl. rewrite lookup_insert_eq. simpl.
    repeat split; try done.
    + by apply (wf_wallets_insert (set_user_achievements (λ l, l ++ [_]) st)).
    + by right.
Qed.

Lemma create_keeps_unique (a : Achievement) (p : Progress) (st : Store) :
  wf_wallets st → unique_grants st →
  unique_grants (UserAchievement_create user a p st).2.
Proof.
  intros Hwf Hun.
  destruct (UserAchievement_create user a p st) as [r st'] eqn:Hrun.
  destruct (create_effect _ _ _ _ _ Hrun Hwf)
    as (_ & _ & _ & [[Heq _] | [Hg Heq]]); unfold unique_grants; simpl;
    rewrite Heq; [done |].
  rewrite fmap_app. apply NoDup_app. split; [done |]. split.
  - intros x Hx Hx'. apply list_elem_of_singleton in Hx'. simpl in Hx'.
    subst x. apply has_grant_elem in Hx. congruence.
  - apply NoDup_singleton.
Qed.

Lemma grows_refl (st : Store) : grows user st st.
Proof.
  split; [done |]. split; [| lia]. exists []. by rewrite app_nil_r.
Qed.

Lemma grows_trans (st1 st2 st3 : Store) :
  grows user st1 st2 → grows user st2 st3 → grows user st1 st3.
Proof.
  intros (Ha & [n1 Hg] & Hl) (Ha' & [n2 Hg'] & Hl').
  split; [congruence |]. split; [| lia].
  exists (n1 ++ n2). by rewrite Hg', Hg, app_assoc.
Qed.

Lemma create_grows (a : Achievement) (p : Progress) (st st' : Store)
    (r : outcome UserAchievement) :
  UserAchievement_create user a p st = (r, st') → wf_wallets st →
  grows user st st'.
Proof.
  intros Hrun Hwf.
  destruct (create_effect _ _ _ _ _ Hrun Hwf)
    as (Ha & _ & Hl & [[Heq _] | [_ Heq]]); (split; [done |]);
    (split; [| done]).
  - exists []. by rewrite app_nil_r.
  - by eexists.
Qed.

End regrant.

Section rerun.
Context (act : Activity) (user : user_id).

Lemma grows_has_grant (st st' : Store) (u : user_id) (a : nat) :
  grows user st st' → has_grant st u a = true → has_grant st' u a = true.
Proof.
  intros (_ & [new Hnew] & _). rewrite !has_grant_elem, Hnew, fmap_app.
  intros H. apply elem_of_app. by left.
Qed.

Lemma grows_recipients_count (st st' : Store) (a : Achievement) :
  grows user st st' → recipients_count a st ≤ recipients_count a st'.
Proof.
  intros (_ & [new Hnew] & _). unfold recipients_count.
  rewrite Hnew, filter_app, length_app. lia.
Qed.

Lemma grows_is_available (st st' : Store) (a : Achievement) :
  grows user st st' → is_available a st = false → is_available a st' = false.
Proof.
  intros Hg. pose proof (grows_recipients_count _ _ a Hg) as Hc.
  unfold is_available. destruct (is_active a); simpl; [| done].
  destruct (truthy (max_recipients a)); simpl; [| done].
  destruct (Z.leb_spec (default 0 (max_recipients a)) (recipients_count a st));
    [| done].
  intros _. destruct (Z.leb_spec (default 0 (max_recipients a))
                        (recipients_count a st')); [done | lia].
Qed.

(** An achievement found not eligible stays so in a later store, as long
    as its token threshold cannot have been reached in between. *)
Lemma check_false_later (a : Achievement) (st st' : Store) :
  grows user st st' →
  lifetime_tokens_earned st' user = lifetime_tokens_earned st user
    ∨ required_fore_tokens a ≤ 0 →
  check_achievement act a user st = false →
  check_achievement act a user st' = false.
Proof.
  intros Hg Htok. unfold check_achievement.
  destruct (has_grant st user (a_id a)) eqn:Hh.
  { by rewrite (grows_has_grant _ _ _ _ Hg Hh). }
  destruct (has_grant st' user (a_id a)); [done |].
  destruct (is_available a st) eqn:Hav; simpl.
  2: { by rewrite (grows_is_available _ _ _ Hg Hav). }
  destruct (is_available a st'); simpl; [| done].
  destruct ((0 <? required_courses a)
            && (completed_courses act user <? required_courses a)); [done |].
  destruct ((0 <? required_lessons a)
            && (completed_lessons act user <? required_lessons a)); [done |].
  destruct ((0 <? required_quizzes a)
            && (passed_quizzes act user <? required_quizzes a)); [done |].
  destruct (Z.ltb_spec 0 (required_fore_tokens a)) as [Hpos | Hnp]; simpl;
    [| done].
  destruct Htok as [Heq | Hle]; [| lia].
  unfold lifetime_tokens_earned in Heq. unfold Decimal.
  destruct (wallets st !! user) as [w |], (wallets st' !! user) as [w' |];
    simpl; try done.
  - by rewrite Heq.
  - intros _. rewrite Heq.
    destruct (Z.ltb_spec 0 (required_fore_tokens a * 100)); [done | lia].
Qed.

Lemma check_each_effect (activity : string) (l : list Achievement) :
  ∀ st st' r,
    check_each act user activity l st = (r, st') →
    wf_wallets st →
    wf_wallets st' ∧ grows user st st'
    ∧ (unique_grants st → unique_grants st').
Proof.
  induction l as [| a l IH]; intros st st' r; simpl.
  - intros [= <- <-] Hwf. split; [done |]. split; [apply grows_refl | done].
  - destruct (check_achievement act a user st); [| apply IH].
    unfold bind.
    destruct (UserAchievement_create user a _ st) as [r1 st1] eqn:Hc.
    intros Hrun Hwf.
    pose proof (create_effect _ _ _ _ _ _ Hc Hwf) as (_ & Hwf1 & _).
    pose proof (create_grows _ _ _ _ _ _ Hc Hwf) as Hg1.
    pose proof (create_keeps_unique user a
                  (progress_of act user activity st) st Hwf) as Hu1.
    rewrite Hc in Hu1. simpl in Hu1.
    destruct r1 as [row | e].
    + destruct (IH _ _ _ Hrun Hwf1) as (Hwf' & Hg' & Hu').
      split; [done |]. split; [by eapply grows_trans | auto].
    + injection Hrun as <- <-. auto.
Qed.

(** After an evaluation that returned normally, every examined achievement
    is either granted or was found not eligible in a store of that run. *)
Lemma check_each_settled (activity : string) (l : list Achievement) :
  ∀ st st',
    check_each act user activity l st = (Ok tt, st') →
    wf_wallets st →
    ∀ a, a ∈ l →
      has_grant st' user (a_id a) = true
      ∨ ∃ sti, grows user st sti ∧ grows user sti st'
               ∧ check_achievement act a user sti = false.
Proof.
  induction l as [| a0 l IH]; intros st st'; simpl.
  - intros _ _ a Ha. by apply elem_of_nil in Ha.
  - destruct (check_achievement act a0 user st) eqn:Hchk.
    + unfold bind.
      destruct (UserAchievement_create user a0 _ st) as [r1 st1] eqn:Hc.
      destruct r1 as [row | e]; [| discriminate].
      intros Hrun Hwf a Ha.
      pose proof (create_effect _ _ _ _ _ _ Hc Hwf)
        as (_ & Hwf1 & _ & Hrows).
      pose proof (create_grows _ _ _ _ _ _ Hc Hwf) as Hg1.
      pose proof (check_each_effect _ _ _ _ _ Hrun Hwf1) as (_ & Hg' & _).
      apply elem_of_cons in Ha as [-> | Ha].
      * left. apply (grows_has_grant _ _ _ _ Hg').
        destruct Hrows as [[_ [=]] | [_ Hrows]].
        apply has_grant_elem. rewrite Hrows, fmap_app.
        apply elem_of_app. right. simpl. apply list_elem_of_singleton. done.
      * destruct (IH _ _ Hrun Hwf1 a Ha) as [Hgr | (sti & H1 & H2 & H3)];
          [by left |].
        right. exists sti. split; [by eapply grows_trans | done].
    + intros Hrun Hwf a Ha.
      pose proof (check_each_effect _ _ _ _ _ Hrun Hwf) as (_ & Hg' & _).
      apply elem_of_cons in Ha as [-> | Ha].
      * right. exists st. split; [apply grows_refl | done].
      * by apply IH.
Qed.

(** A pass over achievements none of which is eligible writes nothing. *)
Lemma check_each_nothing (activity : string) (l : list Achievement)
    (st : Store) :
  (∀ a, a ∈ l → check_achievement act a user st = false) →
  check_each act user activity l st = (Ok tt, st).
Proof.
  induction l as [| a l IH]; intros Hall; simpl; [done |].
  rewrite (Hall a) by (apply elem_of_cons; by left).
  apply IH. intros a' Ha'. apply Hall. apply elem_of_cons. by right.
Qed.

End rerun.

(** C1, amended — at most one grant row per (user, achievement) pair
    exists after an evaluation, whatever its outcome, if that held before;
    and a second evaluation for the same user right after a first one that
    returned normally, with the same course activity, writes nothing —
    grants nothing new — provided the first run left the user's lifetime
    tokens earned as they were, or no catalog entry declares a
    tokens-earned threshold. *)
Theorem grants_unique_and_rerun_grants_nothing (act : Activity)
    (user : user_id) (activity : string) (st0 : Store) :
  wf_wallets st0 →
  unique_grants st0 →
  let r1 := check_achievements_for_user act user activity st0 in
  unique_grants r1.2
  ∧ (r1.1 = Ok tt →
     lifetime_tokens_earned r1.2 user = lifetime_tokens_earned st0 user
       ∨ Forall (λ a, required_fore_tokens a = 0) (achievements st0) →
     ∀ activity',
       check_achievements_for_user act user activity' r1.2 = (Ok tt, r1.2)).
Proof.
  intros Hwf Hun. unfold check_achievements_for_user. simpl.
  destruct (check_each act user activity (available_achievements user st0) st0)
    as [r st1] eqn:Hrun. simpl.
  destruct (check_each_effect _ _ _ _ _ _ _ Hrun Hwf) as (Hwf1 & Hg & Hun1).
  split; [auto |].
  intros -> Htok activity'. apply check_each_nothing.
  intros a Ha. unfold available_achievements in Ha.
  apply list_elem_of_filter in Ha as [[Hact Hng1] Hin].
  pose proof Hg as (Hcat & Hrows & Hlife).
  rewrite Hcat in Hin.
  assert (Hng0 : has_grant st0 user (a_id a) = false).
  { destruct (has_grant st0 user (a_id a)) eqn:Hh; [| done].
    rewrite (grows_has_grant _ _ _ _ _ Hg Hh) in Hng1. done. }
  assert (Ha0 : a ∈ available_achievements user st0).
  { unfold available_achievements. apply list_elem_of_filter. done. }
  destruct (check_each_settled _ _ _ _ _ _ Hrun Hwf a Ha0)
    as [Hgr | (sti & Hg0i & Hgi1 & Hfalse)]; [congruence |].
  apply (check_false_later act user a sti st1 Hgi1); [| done].
  destruct Htok as [Heq | Hnone].
  - left. destruct Hg0i as (_ & _ & H0i), Hgi1 as (_ & _ & Hi1). lia.
  - right. rewrite Forall_forall in Hnone. rewrite (Hnone a Hin). lia.
Qed.

Lemma grants_unique_and_rerun_grants_nothing_witness :
  let st0 := catalogo [estudiante] in
  let r1 := check_achievements_for_user fifty_lessons 1 "lesson_completed" st0 in
  granted_to 1 r1.2 = [2%nat]
  ∧ unique_grants r1.2
  ∧ check_achievements_for_user fifty_lessons 1 "manual_check" r1.2
    = (Ok tt, r1.2).
Proof.
  intros st0 r1.
  assert (Hwf : wf_wallets st0).
  { intros u w Hw. subst st0. simpl in Hw.
    apply lookup_singleton_Some in Hw as [<- <-]. done. }
  assert (Hun : unique_grants st0) by apply NoDup_nil_2.
  destruct (grants_unique_and_rerun_grants_nothing fifty_lessons 1
              "lesson_completed" st0 Hwf Hun) as [Huniq Hrerun].
  split; [reflexivity |]. split; [exact Huniq |].
  apply Hrerun; [reflexivity |].
  right. repeat constructor.
Defined.

(** ** Leaderboard *)

Section ranking.

Lemma insert_desc_perm (x : user_id * Z) (l : list (user_id * Z)) :
  insert_desc x l ≡ₚ x :: l.
Proof.
  induction l as [| y l IH]; simpl; [done |].
  destruct (y.2 <=? x.2); [done |]. rewrite IH. apply Permutation_swap.
Qed.

Lemma sort_desc_perm (l : list (user_id * Z)) : sort_desc l ≡ₚ l.
Proof.
  induction l as [| x l IH]; simpl; [done |].
  unfold sort_desc in *. simpl. by rewrite insert_desc_perm, IH.
Qed.

Lemma UserRanking_save_keeps (self : Leaderboard) (r : UserRanking) :
  ur_user (UserRanking_save self r) = ur_user r
  ∧ position (UserRanking_save self r) = position r
  ∧ score (UserRanking_save self r) = score r.
Proof. unfold UserRanking_save. by destruct (negb _). Qed.

Lemma create_rankings_columns (self : Leaderboard) (l : list (user_id * Z)) :
  ∀ start,
    position <$> create_rankings self start l = seq start (length l)
    ∧ (λ r, (ur_user r, score r)) <$> create_rankings self start l = l.
Proof.
  induction l as [| [u sc] l IH]; intros start; [done |].
  destruct (IH (S start)) as [Hp Hus].
  destruct (UserRanking_save_keeps self (mkUserRanking u start sc false 0))
    as (Hu & Hpos & Hsc).
  cbn [create_rankings length seq].
  rewrite !fmap_cons, Hp, Hus, Hu, Hpos, Hsc. done.
Qed.

End ranking.

Section ranking_order.
Context (self : Leaderboard) (d : Scores).









End ranking_order.

Section user_query.









End user_query.



(** ** Redemption *)

Section redemption.
Context (now : Z) (code : string) (user : user_id) (pk : nat)
        (req : RedemptionRequest).

(** A positive verdict of [can_redeem] means an available reward, a
    wallet, and the cost within the available balance. *)
Lemma can_redeem_true (reward : Reward) (st : Store) :
  (can_redeem now pk reward user st).1 = true →
  reward_is_available now reward = true
  ∧ ∃ wallet, wallets st !! user = Some wallet
              ∧ can_spend wallet (Decimal (fore_cost reward)) = true
              ∧ can_redeem now pk reward user st = (true, Puede_canjear).
Proof.
  unfold can_redeem.
  destruct (reward_is_available now reward); simpl; [| done].
  destruct (wallets st !! user) as [wallet |]; simpl; [| done].
  destruct (can_spend wallet (Decimal (fore_cost reward))) eqn:Hs; simpl;
    [| done].
  destruct (_ && _); simpl; [done |].
  intros _. split; [done |]. by exists wallet.
Qed.

Lemma redeem_cases (st : Store) :
  (∃ body, redeem now code user pk req st = (HTTP_400_BAD_REQUEST body, st)
           ∧ ∀ reward, rewards st !! pk = Some reward →
               r_is_active reward = true → is_valid now req st = true →
               (can_redeem now pk reward user st).1 = true →
               ∃ wallet, wallets st !! user = Some wallet
                         ∧ savable (debited_row wallet
                                      (Decimal (fore_cost reward))) = false)
  ∨ (redeem now code user pk req st = (HTTP_404_NOT_FOUND, st)
     ∧ ∀ reward, rewards st !! pk = Some reward → r_is_active reward = false)
  ∨ (∃ reward wallet,
       rewards st !! pk = Some reward
       ∧ r_is_active reward = true
       ∧ is_valid now req st = true
       ∧ (can_redeem now pk reward user st).1 = true
       ∧ wallets st !! user = Some wallet
       ∧ savable (debited_row wallet (Decimal (fore_cost reward))) = true
       ∧ redeem now code user pk req st =
           (HTTP_201_CREATED
              (mkRedemption user pk (fore_cost reward)
                 (default "" (req_delivery_address req))
                 (default "" (req_delivery_phone req)) code),
            redeemed_store code user pk req reward wallet st)).
Proof.
  unfold redeem. destruct (rewards st !! pk) as [reward |] eqn:Hr.
  2: { right; left. split; [done |]. intros ? [=]. }
  destruct (r_is_active reward) eqn:Hact; simpl.
  2: { right; left. split; [done |]. by intros ? [= <-]. }
  destruct (is_valid now req st) eqn:Hval; simpl.
  2: { left. eexists. split; [done |]. intros ? _ _ [=]. }
  destruct (can_redeem now pk reward user st) as [ok message] eqn:Hcan.
  destruct ok; simpl.
  2: { left. eexists. split; [done |]. intros ? [= <-] _ _. by rewrite Hcan. }
  destruct (can_redeem_true reward st) as (Hav & wallet & Hw & Hspend & _);
    [by rewrite Hcan |].
  rewrite Hw. unfold wallet_spend_tokens.
  apply bool_decide_eq_true in Hspend.
  split_spend_tokens Hamt Hsave; [lia | |].
  - left. eexists. split; [done |]. intros ? [= <-] _ _ _. by exists wallet.
  - right; right. exists reward, wallet. rewrite Hcan.
    repeat split; done.
Qed.

End redemption.



(** ** Completion signals *)

Section signals.
Context (act : Activity).

Lemma filter_fmap_length {A} (P : A → Prop) `{!∀ x, Decision (P x)}
    (g : A → A) (l : list A) :
  (∀ x, P (g x) ↔ P x) →
  length (filter P (g <$> l)) = length (filter P l).
Proof.
  intros Hg. induction l as [| x l IH]; [done |].
  rewrite fmap_cons, !filter_cons.
  destruct (decide (P (g x))) as [Hp | Hp], (decide (P x)) as [Hq | Hq];
    simpl; try (by rewrite IH); exfalso.
  - by apply Hq, Hg.
  - by apply Hp, Hg.
Qed.

(** Rows whose references are filled in later still count as the same
    credits. *)
Lemma credits_of_update (u u' : user_id) (s : string)
    (f : Transaction → Transaction) (ty : TransactionType) (amt : Z)
    (st : Store) :
  (∀ t, t_user (f t) = t_user t ∧ transaction_type (f t) = transaction_type t
        ∧ amount (f t) = amount t) →
  credits_of u' ty amt
    (set_transactions
       (fmap (λ t, if bool_decide (t_user t = u) && contains s (t_description t)
                   then f t else t)) st)
  = credits_of u' ty amt st.
Proof.
  intros Hf. unfold credits_of. simpl.
  apply filter_fmap_length. intros t.
  destruct (bool_decide (t_user t = u) && contains s (t_description t));
    [| done].
  destruct (Hf t) as (-> & -> & ->). done.
Qed.

Lemma credits_of_snoc (u : user_id) (ty : TransactionType) (amt : Z)
    (st : Store) (tx : Transaction) :
  credits_of u ty amt (set_transactions (λ l, l ++ [tx]) st) =
  (credits_of u ty amt st
   + if decide (t_user tx = u ∧ transaction_type tx = ty ∧ amount tx = amt)
     then 1 else 0)%nat.
Proof.
  unfold credits_of. simpl. rewrite filter_app, length_app, filter_cons.
  by case_decide.
Qed.

Lemma with_related_achievement_keeps (a : nat) (t : Transaction) :
  t_user (with_related_achievement a t) = t_user t
  ∧ transaction_type (with_related_achievement a t) = transaction_type t
  ∧ amount (with_related_achievement a t) = amount t.
Proof. done. Qed.

(** A grant records no credit of another type than [ACHIEVEMENT_EARNED],
    and leaves the user with a wallet. *)
Lemma create_credits (user : user_id) (a : Achievement) (p : Progress)
    (st st' : Store) (r : outcome UserAchievement) (u : user_id)
    (ty : TransactionType) (amt : Z) :
  UserAchievement_create user a p st = (r, st') →
  wf_wallets st →
  ty ≠ ACHIEVEMENT_EARNED →
  credits_of u ty amt st' = credits_of u ty amt st
  ∧ (is_Some (wallets st !! user) → is_Some (wallets st' !! user)).
Proof.
  unfold UserAchievement_create, UserAchievement_save. simpl.
  destruct (has_grant st user (a_id a)).
  { by intros [= <- <-]. }
  unfold bind, modify, reward_achievement_earned. simpl.
  destruct (wallets st !! user) as [w |] eqn:Hw.
  - unfold wallet_add_tokens.
    split_add_tokens Hamt Hsave; unfold bind, throw, modify, ret; simpl.
    + intros [= <- <-] Hwf Hty. simpl. by rewrite Hw.
    + intros [= <- <-] Hwf Hty. simpl. by rewrite Hw.
    + intros [= <- <-] Hwf Hty. pose proof (Hwf _ _ Hw) as Hu.
      split.
      * rewrite (credits_of_update _ _ _ _ _ _ _
                   (with_related_achievement_keeps (a_id a))).
        rewrite credits_of_snoc.
        case_decide as Hc; simpl in *; [| unfold credits_of; simpl; lia].
        destruct Hc as (_ & Hc & _). congruence.
      * intros _. simpl. rewrite Hu, lookup_insert_eq. by eexists.
  - intros [= <- <-] Hwf Hty. split; [done |]. by intros [? [=]].
Qed.

Lemma check_each_credits (user : user_id) (activity : string)
    (u : user_id) (ty : TransactionType) (amt : Z) (l : list Achievement) :
  ty ≠ ACHIEVEMENT_EARNED →
  ∀ st st' r,
    check_each act user activity l st = (r, st') →
    wf_wallets st →
    credits_of u ty amt st' = credits_of u ty amt st
    ∧ (is_Some (wallets st !! user) → is_Some (wallets st' !! user)).
Proof.
  intros Hty. induction l as [| a l IH]; intros st st' r; simpl.
  - by intros [= <- <-].
  - destruct (check_achievement act a user st); [| apply IH].
    unfold bind.
    destruct (UserAchievement_create user a _ st) as [r1 st1] eqn:Hc.
    intros Hrun Hwf.
    destruct (create_credits _ _ _ _ _ _ u ty amt Hc Hwf Hty) as [Hc1 Hw1].
    pose proof (create_effect _ _ _ _ _ _ Hc Hwf) as (_ & Hwf1 & _).
    destruct r1 as [row | e].
    + destruct (IH _ _ _ Hrun Hwf1) as [Hc2 Hw2].
      split; [congruence | auto].
    + injection Hrun as <- <-. auto.
Qed.

End signals.

(** ** Properties kept by every request *)

(** A property of the store that the ledger's primitive writes keep is
    kept by every request. *)
Section closure.
Context (act : Activity) (P : Store → Prop).
Hypothesis P_wf : ∀ st, P st → wf_wallets st.
Hypothesis P_ext : ∀ st st',
  wallets st' = wallets st → transactions st' = transactions st → P st → P st'.
Hypothesis P_add : ∀ st w amt descr ty,
  P st → wallets st !! w_user w = Some w →
  P (wallet_add_tokens w amt descr ty st).2.
Hypothesis P_spend : ∀ st w amt descr ty,
  P st → wallets st !! w_user w = Some w →
  P (wallet_spend_tokens w amt descr ty st).2.
Hypothesis P_refs : ∀ st u s r,
  P st →
  P (set_transactions
       (fmap (λ t, if bool_decide (t_user t = u) && contains s (t_description t)
                   then update_refs r t else t)) st).
Hypothesis P_new : ∀ st u,
  wallets st !! u = None → P st →
  P (set_wallets (insert u (new_wallet u)) st).

Lemma closed_create (user : user_id) (a : Achievement) (p : Progress)
    (st : Store) :
  P st → P (UserAchievement_create user a p st).2.
Proof.
  intros HP. unfold UserAchievement_create.
  destruct (has_grant st user (a_id a)); [done |].
  unfold bind at 1 2. unfold modify at 1. cbn [fst snd].
  set (st_row := set_user_achievements _ st).
  assert (Hrow : P st_row) by (by apply (P_ext st)).
  unfold reward_achievement_earned.
  change (wallets st_row) with (wallets st).
  destruct (wallets st !! ua_user _) as [w |] eqn:Hw; cbn [ua_user] in Hw.
  - pose proof (P_wf _ HP) as Hwf. pose proof (Hwf _ _ Hw) as Hu.
    assert (Hw' : wallets st_row !! w_user w = Some w) by (by rewrite Hu).
    pose proof (P_add st_row w
                  (Decimal (fore_tokens_awarded
                     (mkUserAchievement user (a_id a)
                        (UserAchievement_save None a) p)))
                  ("Logro obtenido: " +:+ a_title a) ACHIEVEMENT_EARNED
                  Hrow Hw') as Hadd.
    unfold bind.
    destruct (wallet_add_tokens w _ _ _ st_row) as [[b |e] st1]; [| done].
    unfold update_transactions, modify, ret. cbn [fst snd].
    by apply P_refs.
  - unfold modify, ret. cbn [fst snd].
    apply P_new; [done | done].
Qed.

Lemma closed_check_each (user : user_id) (activity : string)
    (l : list Achievement) :
  ∀ st, P st → P (check_each act user activity l st).2.
Proof.
  induction l as [| a l IH]; intros st HP; [done |].
  cbn [check_each]. destruct (check_achievement act a user st); [| by apply IH].
  unfold bind.
  pose proof (closed_create user a (progress_of act user activity st) st HP)
    as Hc.
  destruct (UserAchievement_create user a _ st) as [[row | e] st1]; [| done].
  by apply IH.
Qed.

Lemma closed_check_achievements (user : user_id) (activity : string)
    (st : Store) :
  P st → P (check_achievements_for_user act user activity st).2.
Proof. apply closed_check_each. Qed.

Lemma closed_credit_and_check (user : user_id) (w : FOREWallet) (reward : Z)
    (descr title activity : string) (ty : TransactionType) (r : Refs)
    (st : Store) :
  P st → wallets st !! user = Some w →
  P (((if 0 <? reward then
             wallet_add_tokens w (Decimal reward) descr ty >>
             update_transactions user title (update_refs r)
           else ret tt) >>
          check_achievements_for_user act user activity) st).2.
Proof.
  intros HP Hw. pose proof (P_wf _ HP) as Hwf.
  pose proof (Hwf _ _ Hw) as Hu. rewrite <- Hu in Hw.
  unfold bind at 1. destruct (0 <? reward).
  - unfold bind.
    pose proof (P_add st w (Decimal reward) descr ty
                  HP Hw) as Hadd.
    destruct (wallet_add_tokens w _ _ _ st) as [[b | e] st1]; [| done].
    unfold update_transactions, modify. cbn [fst snd].
    apply closed_check_achievements. by apply P_refs.
  - unfold ret. by apply closed_check_achievements.
Qed.

Lemma closed_save_lesson (student : user_id) (lesson : Lesson)
    (completed : bool) (st : Store) :
  P st → P (save_lesson_progress act student lesson completed st).
Proof.
  intros HP. unfold save_lesson_progress, reward_lesson_completion.
  cbn [lp_is_completed lesson_just_completed lp_student lp_lesson].
  rewrite andb_false_r. destruct completed; [| done]. cbn [fst snd].
  destruct (wallets st !! student) as [w |] eqn:Hw.
  - by apply closed_credit_and_check.
  - by apply P_new.
Qed.

Lemma closed_save_quiz (student : user_id) (quiz : Quiz)
    (passed completed : bool) (st : Store) :
  P st → P (save_quiz_attempt act student quiz passed completed st).
Proof.
  intros HP. unfold save_quiz_attempt, reward_quiz_completion.
  cbn [is_passed qa_is_completed quiz_just_passed qa_student qa_quiz].
  destruct passed, completed; try done. cbn [andb negb fst snd].
  destruct (wallets st !! student) as [w |] eqn:Hw.
  - by apply closed_credit_and_check.
  - by apply P_new.
Qed.

Lemma closed_save_course (student : user_id) (course : Course)
    (completed : bool) (st : Store) :
  P st → P (save_course_enrollment act student course completed st).
Proof.
  intros HP. unfold save_course_enrollment, reward_course_completion.
  cbn [ce_completed course_just_completed ce_student ce_course].
  destruct completed; [| done]. cbn [andb negb fst snd].
  destruct (wallets st !! student) as [w |] eqn:Hw.
  - by apply closed_credit_and_check.
  - by apply P_new.
Qed.

Lemma closed_redeem (now : Z) (code : string) (user : user_id) (pk : nat)
    (req : RedemptionRequest) (st : Store) :
  P st → P (redeem now code user pk req st).2.
Proof.
  intros HP.
  destruct (redeem_cases now code user pk req st)
    as [(body & -> & _) | [[-> _] | (reward & wallet & _ & _ & _ & Hcan & Hw
                                     & Hsave & ->)]]; [done | done |].
  pose proof (P_wf _ HP) as Hwf. pose proof (Hwf _ _ Hw) as Hu.
  destruct (can_redeem_true now user pk reward st Hcan)
    as (_ & wallet' & Hw' & Hspend & _).
  rewrite Hw in Hw'. injection Hw' as <-.
  rewrite <- Hu in Hw.
  pose proof (P_spend st wallet (Decimal (fore_cost reward))
                ("Canje de recompensa: " +:+ r_title reward) REWARD_PURCHASE
                HP Hw) as Hsp.
  apply bool_decide_eq_true in Hspend. unfold wallet_spend_tokens in Hsp.
  rewrite (spend_tokens_ok _ _ _ _ Hspend Hsave) in Hsp.
  cbn in Hsp. revert Hsp. by apply P_ext.
Qed.

Lemma closed_claim (title : string) (self : UserRanking) (st : Store) :
  P st → P (claim_reward title self st).2.
Proof.
  intros HP. unfold claim_reward.
  destruct (reward_claimed self || (reward_amount self =? 0)); [done |].
  destruct (wallets st !! ur_user self) as [w |] eqn:Hw; [| done].
  pose proof (P_wf _ HP) as Hwf. pose proof (Hwf _ _ Hw) as Hu.
  rewrite <- Hu in Hw.
  pose proof (P_add st w (Decimal (reward_amount self))
                ("Recompensa por posición " +:+ pretty (position self)
                   +:+ " en " +:+ title) ADMIN_BONUS HP Hw) as Hadd.
  by destruct (wallet_add_tokens w _ _ _ st) as [[b | e] st1].
Qed.

Lemma closed_handle (r : request) (st : Store) :
  P st → P (handle act r st).
Proof.
  intros HP. destruct r; cbn [handle].
  - unfold create_fore_wallet. destruct is_student; cbn [andb]; [| done].
    destruct (wallets st !! user) eqn:Hw; [done |]. by apply P_new.
  - unfold get_object. destruct (wallets st !! user) eqn:Hw; [done |].
    by apply P_new.
  - by apply closed_check_achievements.
  - by apply closed_save_lesson.
  - by apply closed_save_quiz.
  - by apply closed_save_course.
  - by apply closed_redeem.
  - by apply closed_claim.
Qed.

Lemma closed_serve (reqs : list request) :
  ∀ st, P st → P (serve act reqs st).
Proof.
  induction reqs as [| r reqs IH]; intros st HP; [done |].
  apply IH. by apply closed_handle.
Qed.

End closure.

Section history.
Import Ledger.
Context (st0 : Store).

Lemma later_refl : wf_wallets st0 → later st0 st0.
Proof.
  intros Hwf. split; [done |]. split; [done |]. exists []. by rewrite app_nil_r.
Qed.

Lemma later_ext (st st' : Store) :
  wallets st' = wallets st → transactions st' = transactions st →
  later st0 st → later st0 st'.
Proof.
  intros Hw Ht (Hwf & Hl & Hrows).
  unfold later, wf_wallets, lifetime_tokens_earned in *. by rewrite Hw, Ht.
Qed.

(** A wallet row replaced by one that earned no less, and one row added. *)
Lemma later_move (st : Store) (w w' : FOREWallet) (tx : Transaction) :
  later st0 st → wallets st !! w_user w = Some w →
  w_user w' = w_user w → total_earned w ≤ total_earned w' →
  later st0 (set_transactions (λ l, l ++ [tx])
               (set_wallets (insert (w_user w) w') st)).
Proof.
  intros (Hwf & Hl & [new Hrows]) Hw Hu He. split; [| split].
  - change (wf_wallets (set_wallets (insert (w_user w) w') st)).
    by apply wf_wallets_insert.
  - intros u. specialize (Hl u). unfold lifetime_tokens_earned in *. cbn.
    destruct (decide (w_user w = u)) as [<- | Hne].
    + rewrite lookup_insert_eq. rewrite Hw in Hl. lia.
    + by rewrite lookup_insert_ne.
  - exists (new ++ [core tx]). cbn. by rewrite fmap_app, Hrows, app_assoc.
Qed.

Lemma later_add (st : Store) (w : FOREWallet) (amt : Z) (descr : string)
    (ty : TransactionType) :
  later st0 st → wallets st !! w_user w = Some w →
  later st0 (wallet_add_tokens w amt descr ty st).2.
Proof.
  intros Hl Hw. unfold wallet_add_tokens.
  split_add_tokens Hamt Hsave; [done | done |]. unfold bind, modify, ret. cbn.
  apply (later_move st w); cbn; try done. lia.
Qed.

Lemma later_spend (st : Store) (w : FOREWallet) (amt : Z) (descr : string)
    (ty : TransactionType) :
  later st0 st → wallets st !! w_user w = Some w →
  later st0 (wallet_spend_tokens w amt descr ty st).2.
Proof.
  intros Hl Hw. unfold wallet_spend_tokens.
  split_spend_tokens Hamt Hsave; [done | done |]. unfold bind, modify, ret. cbn.
  apply (later_move st w); cbn; done.
Qed.

Lemma later_refs (st : Store) (u : user_id) (s : string) (r : Refs) :
  later st0 st →
  later st0 (set_transactions
               (fmap (λ t, if bool_decide (t_user t = u)
                              && contains s (t_description t)
                           then update_refs r t else t)) st).
Proof.
  intros (Hwf & Hl & [new Hrows]). split; [done |]. split; [done |].
  exists new. cbn. rewrite <- Hrows, <- list_fmap_compose.
  apply list_fmap_ext. intros i t _. cbn.
  by destruct (bool_decide _ && contains _ _).
Qed.

Lemma later_new (st : Store) (u : user_id) :
  wallets st !! u = None → later st0 st →
  later st0 (set_wallets (insert u (new_wallet u)) st).
Proof.
  intros Hnone (Hwf & Hl & Hrows). split; [| split; [| done]].
  - by apply wf_wallets_insert.
  - intros u'. specialize (Hl u'). unfold lifetime_tokens_earned in *. cbn.
    destruct (decide (u = u')) as [<- | Hne].
    + rewrite lookup_insert_eq. by rewrite Hnone in Hl.
    + by rewrite lookup_insert_ne.
Qed.

Lemma later_serve (act : Activity) (reqs : list request) :
  wf_wallets st0 → later st0 (serve act reqs st0).
Proof.
  intros Hwf.
  apply (closed_serve act (later st0)); try done.
  - by intros st (? & _).
  - apply later_ext.
  - intros. by apply later_add.
  - intros. by apply later_spend.
  - intros. by apply later_refs.
  - intros. by apply later_new.
  - by apply later_refl.
Qed.

End history.

Section credits_only.
Context (act : Activity) (st0 : Store).

Lemma credited_since_refl : wf_wallets st0 → credited_since st0 st0.
Proof. intros Hwf. split; [by apply later_refl |]. intros u. lia. Qed.

(** An achievement evaluation only credits. *)
Lemma credited_since_check (user : user_id) (activity : string) (st : Store) :
  credited_since st0 st →
  credited_since st0 (check_achievements_for_user act user activity st).2.
Proof.
  apply (closed_check_achievements act (credited_since st0)).
  - by intros st1 [(? & _) _].
  - intros st1 st2 Hw Ht [Hl Hb]. split; [by apply (later_ext st0 st1) |].
    intros u. unfold balance_of. rewrite Hw. apply Hb.
  - intros st1 w amt descr ty [Hl Hb] Hw. split; [by apply later_add |].
    intros u. specialize (Hb u). unfold wallet_add_tokens.
    split_add_tokens Hamt Hsave; [done | done |].
    unfold bind, modify, ret, balance_of in *. cbn.
    destruct (decide (w_user w = u)) as [<- | Hne].
    + rewrite lookup_insert_eq. rewrite Hw in Hb. cbn. lia.
    + by rewrite lookup_insert_ne.
  - intros st1 u s r [Hl Hb]. split; [by apply later_refs | exact Hb].
  - intros st1 u Hnone [Hl Hb]. split; [by apply later_new |].
    intros u'. specialize (Hb u'). unfold balance_of in *. cbn.
    destruct (decide (u = u')) as [<- | Hne].
    + rewrite lookup_insert_eq. by rewrite Hnone in Hb.
    + by rewrite lookup_insert_ne.
Qed.

End credits_only.

Section resave.
Context (act : Activity).

(** The common shape of the completion receivers once the wallet is found
    and the reward is positive: credit, fill in the references, evaluate
    the achievements.  With room for the credit, one more credit is
    recorded, its row carries the balance it produced, and the balance and
    the lifetime earnings end higher by at least the amount. *)
Lemma credit_then_check (user : user_id) (w : FOREWallet) (amt : Z)
    (descr title activity : string) (ty : TransactionType)
    (f : Transaction → Transaction) (st st' : Store) (r : outcome unit) :
  wf_wallets st →
  wallets st !! user = Some w →
  0 < amt →
  savable (credited_row w amt) = true →
  ty ≠ ACHIEVEMENT_EARNED →
  (∀ t, Ledger.core (f t) = Ledger.core t) →
  ((wallet_add_tokens w amt descr ty >> update_transactions user title f) >>
   check_achievements_for_user act user activity) st = (r, st') →
  wf_wallets st'
  ∧ is_Some (wallets st' !! user)
  ∧ credits_of user ty amt st' = S (credits_of user ty amt st)
  ∧ lifetime_tokens_earned st user + amt ≤ lifetime_tokens_earned st' user
  ∧ balance_of st user + amt ≤ balance_of st' user
  ∧ ∃ tx, transactions st' !! length (transactions st) = Some tx
          ∧ Ledger.core tx = (user, ty, amt, balance_of st user + amt, descr).
Proof.
  intros Hwf Hw Hpos Hsave Hty Hcore. pose proof (Hwf _ _ Hw) as Hu.
  assert (Hf : ∀ t, t_user (f t) = t_user t
                    ∧ transaction_type (f t) = transaction_type t
                    ∧ amount (f t) = amount t).
  { intros t. pose proof (Hcore t) as Ht. unfold Ledger.core in Ht.
    by injection Ht as -> -> -> _ _. }
  unfold bind at 1 2. unfold wallet_add_tokens.
  rewrite (add_tokens_ok _ _ _ _ Hpos Hsave). unfold bind, modify, ret,
    update_transactions, modify. simpl.
  match goal with
  | |- check_achievements_for_user _ _ _ ?s = _ → _ => set (st1 := s)
  end.
  intros Hrun.
  assert (Hwf1 : wf_wallets st1).
  { intros u' w'. subst st1. simpl. rewrite Hu.
    destruct (decide (user = u')) as [<- | Hne].
    - rewrite lookup_insert_eq. by intros [= <-].
    - rewrite lookup_insert_ne by done. apply Hwf. }
  assert (Hw1 : is_Some (wallets st1 !! user)).
  { subst st1. simpl. rewrite Hu, lookup_insert_eq. by eexists. }
  assert (Hc1 : credits_of user ty amt st1 = S (credits_of user ty amt st)).
  { subst st1. rewrite (credits_of_update _ _ _ _ _ _ _ Hf), credits_of_snoc.
    rewrite decide_True by (by rewrite Hu). unfold credits_of. simpl. lia. }
  assert (Hl1 : lifetime_tokens_earned st1 user
                = lifetime_tokens_earned st user + amt).
  { subst st1. unfold lifetime_tokens_earned. simpl.
    by rewrite Hu, lookup_insert_eq, Hw. }
  assert (Hb1 : balance_of st1 user = balance_of st user + amt).
  { subst st1. unfold balance_of. simpl.
    by rewrite Hu, lookup_insert_eq, Hw. }
  assert (Hrows1 : Ledger.core <$> transactions st1
                   = (Ledger.core <$> transactions st)
                       ++ [(user, ty, amt, balance_of st user + amt, descr)]).
  { subst st1. simpl. rewrite <- list_fmap_compose, fmap_app.
    unfold balance_of. rewrite Hw, <- Hu. f_equal.
    - apply list_fmap_ext. intros i t _. simpl.
      destruct (bool_decide _ && contains _ _); [apply Hcore | done].
    - simpl. destruct (bool_decide _ && contains _ _); [by rewrite Hcore | done]. }
  unfold check_achievements_for_user in Hrun.
  destruct (check_each_effect _ _ _ _ _ _ _ Hrun Hwf1) as (Hwf' & Hg & _).
  destruct (check_each_credits act user activity user ty amt _ Hty _ _ _
              Hrun Hwf1) as [Hc' Hw'].
  destruct Hg as (_ & _ & Hl').
  pose proof (credited_since_check act st1 user activity st1
                (credited_since_refl st1 Hwf1)) as [(_ & _ & [new Hnew]) Hb'].
  unfold check_achievements_for_user in Hnew, Hb'. rewrite Hrun in Hnew, Hb'.
  cbn [snd] in Hnew, Hb'. specialize (Hb' user).
  split; [done |]. split; [auto |]. split; [congruence |].
  split; [lia |]. split; [lia |].
  assert (Hi : (Ledger.core <$> transactions st') !! length (transactions st)
               = Some (user, ty, amt, balance_of st user + amt, descr)).
  { rewrite Hnew, Hrows1, <- app_assoc. apply list_lookup_middle.
    by rewrite length_fmap. }
  rewrite list_lookup_fmap in Hi. apply fmap_Some in Hi as (tx & Htx & Hcoretx).
  by exists tx.
Qed.

Lemma save_lesson_progress_credits (student : user_id) (lesson : Lesson)
    (st : Store) :
  wf_wallets st →
  0 < l_fore_tokens_reward lesson →
  has_room st student (Decimal (l_fore_tokens_reward lesson)) →
  let reward := Decimal (l_fore_tokens_reward lesson) in
  let st' := save_lesson_progress act student lesson true st in
  wf_wallets st'
  ∧ credits_of student LESSON_COMPLETED reward st'
    = S (credits_of student LESSON_COMPLETED reward st)
  ∧ lifetime_tokens_earned st student + reward
    ≤ lifetime_tokens_earned st' student
  ∧ balance_of st student + reward ≤ balance_of st' student
  ∧ ∃ tx, transactions st' !! length (transactions st) = Some tx
          ∧ t_user tx = student
          ∧ transaction_type tx = LESSON_COMPLETED
          ∧ amount tx = reward
          ∧ balance_after tx = balance_of st student + reward.
Proof.
  intros Hwf Hpos (w & Hw & Hsave & _) reward st'. subst st'.
  unfold save_lesson_progress, reward_lesson_completion. simpl.
  rewrite Hw. destruct (Z.ltb_spec 0 (l_fore_tokens_reward lesson)); [| lia].
  match goal with |- context [?m st] => destruct (m st) as [r st'] eqn:Hrun end.
  simpl.
  eapply credit_then_check in Hrun
    as (Hwf' & _ & Hc & Hl & Hb & tx & Htx & Hcore);
    [| done | exact Hw | unfold Decimal; lia | exact Hsave | done | done].
  repeat split; try done. exists tx. unfold Ledger.core in Hcore.
  injection Hcore as -> -> -> -> _. done.
Qed.

Lemma save_quiz_attempt_credits (student : user_id) (quiz : Quiz)
    (st : Store) :
  wf_wallets st →
  0 < q_fore_tokens_reward quiz →
  has_room st student (Decimal (q_fore_tokens_reward quiz)) →
  let reward := Decimal (q_fore_tokens_reward quiz) in
  let st' := save_quiz_attempt act student quiz true true st in
  wf_wallets st'
  ∧ credits_of student QUIZ_PASSED reward st'
    = S (credits_of student QUIZ_PASSED reward st)
  ∧ lifetime_tokens_earned st student + reward
    ≤ lifetime_tokens_earned st' student
  ∧ balance_of st student + reward ≤ balance_of st' student
  ∧ ∃ tx, transactions st' !! length (transactions st) = Some tx
          ∧ t_user tx = student
          ∧ transaction_type tx = QUIZ_PASSED
          ∧ amount tx = reward
          ∧ balance_after tx = balance_of st student + reward.
Proof.
  intros Hwf Hpos (w & Hw & Hsave & _) reward st'. subst st'.
  unfold save_quiz_attempt, reward_quiz_completion. simpl.
  rewrite Hw. destruct (Z.ltb_spec 0 (q_fore_tokens_reward quiz)); [| lia].
  match goal with |- context [?m st] => destruct (m st) as [r st'] eqn:Hrun end.
  simpl.
  eapply credit_then_check in Hrun
    as (Hwf' & _ & Hc & Hl & Hb & tx & Htx & Hcore);
    [| done | exact Hw | unfold Decimal; lia | exact Hsave | done | done].
  repeat split; try done. exists tx. unfold Ledger.core in Hcore.
  injection Hcore as -> -> -> -> _. done.
Qed.

End resave.

(** What [n] saves in a row do, from what each of them does as long as
    the wallet has room. *)
Lemma iter_credits (save : Store → Store) (student : user_id)
    (ty : TransactionType) (reward : Z) (st : Store) (n : nat) :
  wf_wallets st →
  (∀ y, wf_wallets y → has_room y student reward →
     wf_wallets (save y)
     ∧ credits_of student ty reward (save y)
       = S (credits_of student ty reward y)
     ∧ lifetime_tokens_earned y student + reward
       ≤ lifetime_tokens_earned (save y) student
     ∧ balance_of y student + reward ≤ balance_of (save y) student
     ∧ ∃ tx, transactions (save y) !! length (transactions y) = Some tx
             ∧ t_user tx = student
             ∧ transaction_type tx = ty
             ∧ amount tx = reward
             ∧ balance_after tx = balance_of y student + reward) →
  (∀ k, (k < n)%nat → has_room (Nat.iter k save st) student reward) →
  credits_of student ty reward (Nat.iter n save st)
    = (credits_of student ty reward st + n)%nat
  ∧ balance_of st student + Z.of_nat n * reward
    ≤ balance_of (Nat.iter n save st) student
  ∧ lifetime_tokens_earned st student + Z.of_nat n * reward
    ≤ lifetime_tokens_earned (Nat.iter n save st) student
  ∧ ∀ k, (k < n)%nat →
      ∃ tx, transactions (Nat.iter (S k) save st)
              !! length (transactions (Nat.iter k save st)) = Some tx
            ∧ t_user tx = student
            ∧ transaction_type tx = ty
            ∧ amount tx = reward
            ∧ balance_after tx
              = balance_of (Nat.iter k save st) student + reward.
Proof.
  intros Hwf Hstep.
  assert (Hwfk : ∀ k, (∀ j, (j < k)%nat →
                         has_room (Nat.iter j save st) student reward) →
                      wf_wallets (Nat.iter k save st)).
  { induction k as [| k IH]; intros Hroom; [done |].
    change (Nat.iter (S k) save st) with (save (Nat.iter k save st)).
    apply Hstep; [apply IH; intros j Hj; apply Hroom; lia |].
    apply Hroom. lia. }
  induction n as [| n IH]; intros Hroom.
  - change (Nat.iter 0 save st) with st.
    split; [lia |]. split; [lia |]. split; [lia |]. intros k Hk. lia.
  - destruct IH as (Hc & Hb & Hl & Hrows); [intros k Hk; apply Hroom; lia |].
    destruct (Hstep (Nat.iter n save st)) as (_ & Hc' & Hl' & Hb' & Hrow').
    { apply Hwfk. intros j Hj. apply Hroom. lia. }
    { apply Hroom. lia. }
    change (Nat.iter (S n) save st) with (save (Nat.iter n save st)).
    split; [lia |]. split; [lia |]. split; [lia |]. intros k Hk. destruct (decide (k = n)) as [-> | Hne]; [exact Hrow' |].
    apply Hrows. lia.
Qed.

(** C10 as stated fails for a student without wallet: the save of a
    completed lesson worth 10 tokens credits nothing, it only creates the
    empty wallet. *)
Lemma completion_without_wallet_counterexample :
  let st' := save_lesson_progress one_lesson 1 saludos true sin_billetera in
  l_fore_tokens_reward saludos = 10
  ∧ wallets sin_billetera !! 1%nat = None
  ∧ wallets st' !! 1%nat = Some (new_wallet 1)
  ∧ transactions st' = []
  ∧ credits_of 1 LESSON_COMPLETED 1000 st' = 0%nat.
Proof. vm_compute. repeat split. Qed.

(** C10, amended — the double-credit guard lives on the Python object
    only.  A second [post_save] on the very instance that was just rewarded
    does nothing; but for a lesson progress already completed (and for a
    completed, passed quiz attempt) whose reward is positive, every save of
    a freshly loaded instance credits the reward again as long as the
    student's wallet has room for it: after [n] such saves the student has
    [n] more credits of that amount and type, each of them a row whose
    [balance_after] is the balance before that save plus the reward, and
    the balance and the lifetime earnings are higher by at least [n] times
    the reward. *)
Theorem completion_credited_on_every_fresh_save (act : Activity)
    (student : user_id) (st : Store) (n : nat) :
  wf_wallets st →
  (∀ lesson, 0 < l_fore_tokens_reward lesson →
     let reward := Decimal (l_fore_tokens_reward lesson) in
     let save := save_lesson_progress act student lesson true in
     (∀ k, (k < n)%nat → has_room (Nat.iter k save st) student reward) →
     credits_of student LESSON_COMPLETED reward (Nat.iter n save st)
       = (credits_of student LESSON_COMPLETED reward st + n)%nat
     ∧ balance_of st student + Z.of_nat n * reward
       ≤ balance_of (Nat.iter n save st) student
     ∧ lifetime_tokens_earned st student + Z.of_nat n * reward
       ≤ lifetime_tokens_earned (Nat.iter n save st) student
     ∧ ∀ k, (k < n)%nat →
         ∃ tx, transactions (Nat.iter (S k) save st)
                 !! length (transactions (Nat.iter k save st)) = Some tx
               ∧ t_user tx = student
               ∧ transaction_type tx = LESSON_COMPLETED
               ∧ amount tx = reward
               ∧ balance_after tx
                 = balance_of (Nat.iter k save st) student + reward)
  ∧ (∀ quiz, 0 < q_fore_tokens_reward quiz →
     let reward := Decimal (q_fore_tokens_reward quiz) in
     let save := save_quiz_attempt act student quiz true true in
     (∀ k, (k < n)%nat → has_room (Nat.iter k save st) student reward) →
     credits_of student QUIZ_PASSED reward (Nat.iter n save st)
       = (credits_of student QUIZ_PASSED reward st + n)%nat
     ∧ balance_of st student + Z.of_nat n * reward
       ≤ balance_of (Nat.iter n save st) student
     ∧ lifetime_tokens_earned st student + Z.of_nat n * reward
       ≤ lifetime_tokens_earned (Nat.iter n save st) student
     ∧ ∀ k, (k < n)%nat →
         ∃ tx, transactions (Nat.iter (S k) save st)
                 !! length (transactions (Nat.iter k save st)) = Some tx
               ∧ t_user tx = student
               ∧ transaction_type tx = QUIZ_PASSED
               ∧ amount tx = reward
               ∧ balance_after tx
                 = balance_of (Nat.iter k save st) student + reward)
  ∧ (∀ lesson st0,
       let rewarded :=
         (reward_lesson_completion act
            (mkLessonProgress student lesson true false)).1 in
       lesson_just_completed rewarded = true
       ∧ (reward_lesson_completion act rewarded).2 st0 = (Ok tt, st0))
  ∧ (∀ quiz st0,
       let rewarded :=
         (reward_quiz_completion act
            (mkQuizAttempt student quiz true true false)).1 in
       quiz_just_passed rewarded = true
       ∧ (reward_quiz_completion act rewarded).2 st0 = (Ok tt, st0)).
Proof.
  intros Hwf. split; [| split; [| split]].
  - intros lesson Hpos reward save Hroom.
    apply (iter_credits save student LESSON_COMPLETED reward st n Hwf);
      [| done].
    intros y Hy Hr.
    by apply (save_lesson_progress_credits act student lesson y).
  - intros quiz Hpos reward save Hroom.
    apply (iter_credits save student QUIZ_PASSED reward st n Hwf); [| done].
    intros y Hy Hr.
    by apply (save_quiz_attempt_credits act student quiz y).
  - done.
  - done.
Qed.

Lemma completion_credited_on_every_fresh_save_witness :
  credits_of 1 LESSON_COMPLETED 1000
    (Nat.iter 3 (save_lesson_progress no_activity 1 saludos true) aula)
  = 3%nat
  ∧ 3000 ≤ balance_of
             (Nat.iter 3 (save_lesson_progress no_activity 1 saludos true) aula)
             1
  ∧ credits_of 1 QUIZ_PASSED 2000
      (Nat.iter 3 (save_quiz_attempt no_activity 1 quiz_saludos true true) aula)
    = 3%nat.
Proof.
  assert (Hwf : wf_wallets aula).
  { intros u w Hw. unfold aula in Hw. simpl in Hw.
    apply lookup_singleton_Some in Hw as [<- <-]. done. }
  destruct (completion_credited_on_every_fresh_save no_activity 1 aula 3 Hwf)
    as (Hlesson & Hquiz & _).
  assert (Hl : ∀ k, (k < 3)%nat →
            has_room (Nat.iter k (save_lesson_progress no_activity 1 saludos true)
                        aula) 1 (Decimal (l_fore_tokens_reward saludos))).
  { intros [| [| [| k]]] Hk; [| | | lia];
      (eexists; split; [reflexivity | split; reflexivity]). }
  assert (Hq : ∀ k, (k < 3)%nat →
            has_room (Nat.iter k (save_quiz_attempt no_activity 1 quiz_saludos
                                    true true) aula) 1
              (Decimal (q_fore_tokens_reward quiz_saludos))).
  { intros [| [| [| k]]] Hk; [| | | lia];
      (eexists; split; [reflexivity | split; reflexivity]). }
  destruct (Hlesson saludos eq_refl Hl) as (Hc & Hb & _).
  destruct (Hquiz quiz_saludos eq_refl Hq) as (Hc' & _).
  split; [exact Hc |]. split; [exact Hb | exact Hc'].
Defined.

(** Five saves of a completed lesson worth 2 000 000 000 tokens: four are
    credited, the fifth would lift the balance to 10^10 and writes
    nothing. *)
Example fifth_save_is_not_credited :
  let lesson := mkLesson 1 "Saludos" 1 2000000000 in
  let save := save_lesson_progress no_activity 1 lesson true in
  credits_of 1 LESSON_COMPLETED (Decimal 2000000000) (Nat.iter 4 save aula)
    = 4%nat
  ∧ balance_of (Nat.iter 4 save aula) 1 = Decimal 8000000000
  ∧ Nat.iter 5 save aula = Nat.iter 4 save aula.
Proof. repeat split; reflexivity. Qed.

(** ** Ledger consistency across the application *)

Section soundness.
Import Ledger.

(** Soundness only looks at the wallet and transaction tables. *)
Lemma sound_ext (st st' : Store) :
  wallets st' = wallets st → transactions st' = transactions st →
  sound st → sound st'.
Proof.
  intros Hw Ht (Hwf & Hc & Hs & Hch).
  unfold sound, wf_wallets, conserved_wallets, solvent, chained, rows_of,
    balance_of.
  rewrite Hw, Ht. done.
Qed.

Lemma sound_empty (st : Store) :
  wallets st = ∅ → transactions st = [] → sound st.
Proof.
  intros Hw Ht.
  unfold sound, wf_wallets, conserved_wallets, solvent, chained, rows_of,
    balance_of.
  rewrite Hw, Ht. repeat split; try done; intros u w; by rewrite lookup_empty.
Qed.

Lemma rows_of_snoc (u : user_id) (st : Store) (tx : Transaction) :
  rows_of u (set_transactions (λ l, l ++ [tx]) st)
  = rows_of u st ++ (if decide (t_user tx = u) then [tx] else []).
Proof.
  unfold rows_of. simpl. rewrite filter_app, filter_cons. by case_decide.
Qed.

(** One balance change written the way [add_tokens] and [spend_tokens]
    write it: the wallet row replaced, one transaction appended whose
    [balance_after] is the new balance. *)
Lemma sound_move (st : Store) (w w' : FOREWallet) (tx : Transaction) :
  sound st →
  wallets st !! w_user w = Some w →
  w_user w' = w_user w →
  balance w' = balance w + amount tx →
  total_earned w' - total_spent w'
    = total_earned w - total_spent w + amount tx →
  0 ≤ available_balance w' →
  t_user tx = w_user w →
  balance_after tx = balance w' →
  sound (set_transactions (λ l, l ++ [tx])
           (set_wallets (insert (w_user w) w') st)).
Proof.
  intros (Hwf & Hc & Hs & Hch) Hw Hu Hb He Hav Htu Hba.
  split; [| split; [| split]].
  - intros u x. simpl. destruct (decide (w_user w = u)) as [<- | Hne].
    + rewrite lookup_insert_eq. by intros [= <-].
    + rewrite lookup_insert_ne by done. apply Hwf.
  - intros u x. simpl. destruct (decide (w_user w = u)) as [<- | Hne].
    + rewrite lookup_insert_eq. intros [= <-].
      pose proof (Hc _ _ Hw). lia.
    + rewrite lookup_insert_ne by done. apply Hc.
  - intros u x. simpl. destruct (decide (w_user w = u)) as [<- | Hne].
    + rewrite lookup_insert_eq. by intros [= <-].
    + rewrite lookup_insert_ne by done. apply Hs.
  - intros u. rewrite rows_of_snoc. destruct (Hch u) as [Hchu Hlast].
    unfold balance_of in *. simpl.
    change (rows_of u (set_wallets (insert (w_user w) w') st))
      with (rows_of u st).
    destruct (decide (t_user tx = u)) as [Heq | Hne].
    + rewrite <- Heq, Htu in *. rewrite lookup_insert_eq.
      rewrite Hw in Hlast. rewrite last_balance_snoc. split; [| done].
      apply chain_app. split; [done |]. simpl. rewrite Hlast. split; [lia | done].
    + rewrite app_nil_r, lookup_insert_ne by congruence. done.
Qed.

Lemma sound_wallet_add_tokens (st : Store) (w : FOREWallet) (amt : Z)
    (descr : string) (ty : TransactionType) :
  sound st → wallets st !! w_user w = Some w →
  sound (wallet_add_tokens w amt descr ty st).2.
Proof.
  intros Hsound Hw. unfold wallet_add_tokens.
  split_add_tokens Hamt Hsave; [done | done |].
  pose proof Hsound as (_ & _ & Hs & _). pose proof (Hs _ _ Hw) as Hav.
  unfold bind, modify, ret. simpl.
  apply (sound_move st w); simpl; try done; unfold available_balance in *;
    simpl; lia.
Qed.

Lemma sound_wallet_spend_tokens (st : Store) (w : FOREWallet) (amt : Z)
    (descr : string) (ty : TransactionType) :
  sound st → wallets st !! w_user w = Some w →
  sound (wallet_spend_tokens w amt descr ty st).2.
Proof.
  intros Hsound Hw. unfold wallet_spend_tokens.
  split_spend_tokens Hamt Hsave; [done | done |].
  unfold bind, modify, ret. simpl.
  apply (sound_move st w); simpl; try done; unfold available_balance in *;
    simpl; lia.
Qed.

Lemma filter_fmap_keep {A} (P : A → Prop) `{!∀ x, Decision (P x)}
    (g : A → A) (l : list A) :
  (∀ x, P (g x) ↔ P x) → filter P (g <$> l) = g <$> filter P l.
Proof.
  intros Hg. induction l as [| x l IH]; [done |].
  rewrite fmap_cons, !filter_cons.
  destruct (decide (P (g x))) as [Hp | Hp], (decide (P x)) as [Hq | Hq].
  - by rewrite fmap_cons, IH.
  - by destruct Hq; apply Hg.
  - by destruct Hp; apply Hg.
  - done.
Qed.

(** Filling in references keeps the ledger sound. *)
Lemma sound_update_refs (st : Store) (u : user_id) (s : string) (r : Refs) :
  sound st →
  sound (set_transactions
           (fmap (λ t, if bool_decide (t_user t = u)
                          && contains s (t_description t)
                       then update_refs r t else t)) st).
Proof.
  intros (Hwf & Hc & Hs & Hch). split; [done |]. split; [done |].
  split; [done |]. intros u'. destruct (Hch u') as [Hchu Hlast].
  unfold rows_of, balance_of in *. simpl.
  rewrite filter_fmap_keep.
  2: { intros t. by destruct (bool_decide _ && contains _ _). }
  set (g := λ t, if bool_decide (t_user t = u) && contains s (t_description t)
                 then update_refs r t else t).
  assert (Hcore : core <$> filter (λ t, t_user t = u') (transactions st)
                  = core <$> (g <$> filter (λ t, t_user t = u') (transactions st))).
  { rewrite <- list_fmap_compose. apply list_fmap_ext. intros i t _.
    unfold g. simpl. by destruct (bool_decide _ && contains _ _). }
  destruct (chain_core _ _ 0 Hcore) as [Himp Heq].
  split; [by apply Himp | by rewrite <- Heq].
Qed.

Lemma sound_new_wallet (st : Store) (u : user_id) :
  wallets st !! u = None → sound st →
  sound (set_wallets (insert u (new_wallet u)) st).
Proof.
  intros Hnone (Hwf & Hc & Hs & Hch).
  split; [| split; [| split]].
  - by apply wf_wallets_insert.
  - intros u' w'. simpl. destruct (decide (u = u')) as [<- | Hne].
    + rewrite lookup_insert_eq. by intros [= <-].
    + rewrite lookup_insert_ne by done. apply Hc.
  - intros u' w'. simpl. destruct (decide (u = u')) as [<- | Hne].
    + rewrite lookup_insert_eq. by intros [= <-].
    + rewrite lookup_insert_ne by done. apply Hs.
  - intros u'. destruct (Hch u') as [Hchu Hlast]. split; [done |].
    unfold balance_of in *. simpl.
    change (rows_of u' (set_wallets (insert u (new_wallet u)) st))
      with (rows_of u' st).
    destruct (decide (u = u')) as [<- | Hne].
    + rewrite lookup_insert_eq. by rewrite Hnone in Hlast.
    + by rewrite lookup_insert_ne.
Qed.

End soundness.

Section soundness_of_requests.
Context (act : Activity).

Lemma sound_create (user : user_id) (a : Achievement) (p : Progress)
    (st : Store) :
  sound st → sound (UserAchievement_create user a p st).2.
Proof.
  intros Hsound. unfold UserAchievement_create.
  destruct (has_grant st user (a_id a)); [done |].
  unfold bind at 1 2. unfold modify at 1. cbn [fst snd].
  set (st_row := set_user_achievements _ st).
  assert (Hrow : sound st_row) by (by apply (sound_ext st)).
  unfold reward_achievement_earned.
  change (wallets st_row) with (wallets st).
  destruct (wallets st !! ua_user _) as [w |] eqn:Hw; cbn [ua_user] in Hw.
  - pose proof Hsound as (Hwf & _). pose proof (Hwf _ _ Hw) as Hu.
    assert (Hw' : wallets st_row !! w_user w = Some w) by (by rewrite Hu).
    pose proof (sound_wallet_add_tokens st_row w
                  (Decimal (fore_tokens_awarded
                     (mkUserAchievement user (a_id a)
                        (UserAchievement_save None a) p)))
                  ("Logro obtenido: " +:+ a_title a) ACHIEVEMENT_EARNED
                  Hrow Hw') as Hadd.
    unfold bind.
    destruct (wallet_add_tokens w _ _ _ st_row) as [[b |e] st1]; [| done].
    unfold update_transactions, modify, ret. cbn [fst snd].
    by apply sound_update_refs.
  - unfold modify, ret. cbn [fst snd].
    apply sound_new_wallet; [done | done].
Qed.

Lemma sound_check_each (user : user_id) (activity : string)
    (l : list Achievement) :
  ∀ st, sound st → sound (check_each act user activity l st).2.
Proof.
  induction l as [| a l IH]; intros st Hsound; [done |].
  cbn [check_each]. destruct (check_achievement act a user st); [| by apply IH].
  unfold bind.
  pose proof (sound_create user a (progress_of act user activity st) st Hsound)
    as Hc.
  destruct (UserAchievement_create user a _ st) as [[row | e] st1]; [| done].
  by apply IH.
Qed.

Lemma sound_check_achievements (user : user_id) (activity : string)
    (st : Store) :
  sound st → sound (check_achievements_for_user act user activity st).2.
Proof. apply sound_check_each. Qed.

(** The shape shared by the three completion receivers. *)
Lemma sound_credit_and_check (user : user_id) (w : FOREWallet) (reward : Z)
    (descr title activity : string) (ty : TransactionType) (r : Refs)
    (st : Store) :
  sound st → wallets st !! user = Some w →
  sound (((if 0 <? reward then
             wallet_add_tokens w (Decimal reward) descr ty >>
             update_transactions user title (update_refs r)
           else ret tt) >>
          check_achievements_for_user act user activity) st).2.
Proof.
  intros Hsound Hw. pose proof Hsound as (Hwf & _).
  pose proof (Hwf _ _ Hw) as Hu. rewrite <- Hu in Hw.
  unfold bind at 1. destruct (0 <? reward).
  - unfold bind.
    pose proof (sound_wallet_add_tokens st w (Decimal reward) descr ty
                  Hsound Hw) as Hadd.
    destruct (wallet_add_tokens w _ _ _ st) as [[b | e] st1]; [| done].
    unfold update_transactions, modify. cbn [fst snd].
    apply sound_check_achievements. by apply sound_update_refs.
  - unfold ret. by apply sound_check_achievements.
Qed.

Lemma sound_save_lesson (student : user_id) (lesson : Lesson)
    (completed : bool) (st : Store) :
  sound st → sound (save_lesson_progress act student lesson completed st).
Proof.
  intros Hsound. unfold save_lesson_progress, reward_lesson_completion.
  cbn [lp_is_completed lesson_just_completed lp_student lp_lesson].
  rewrite andb_false_r. destruct completed; [| done]. cbn [fst snd].
  destruct (wallets st !! student) as [w |] eqn:Hw.
  - by apply sound_credit_and_check.
  - by apply sound_new_wallet.
Qed.

Lemma sound_save_quiz (student : user_id) (quiz : Quiz)
    (passed completed : bool) (st : Store) :
  sound st → sound (save_quiz_attempt act student quiz passed completed st).
Proof.
  intros Hsound. unfold save_quiz_attempt, reward_quiz_completion.
  cbn [is_passed qa_is_completed quiz_just_passed qa_student qa_quiz].
  destruct passed, completed; try done. cbn [andb negb fst snd].
  destruct (wallets st !! student) as [w |] eqn:Hw.
  - by apply sound_credit_and_check.
  - by apply sound_new_wallet.
Qed.

Lemma sound_save_course (student : user_id) (course : Course)
    (completed : bool) (st : Store) :
  sound st → sound (save_course_enrollment act student course completed st).
Proof.
  intros Hsound. unfold save_course_enrollment, reward_course_completion.
  cbn [ce_completed course_just_completed ce_student ce_course].
  destruct completed; [| done]. cbn [andb negb fst snd].
  destruct (wallets st !! student) as [w |] eqn:Hw.
  - by apply sound_credit_and_check.
  - by apply sound_new_wallet.
Qed.

Lemma sound_redeem (now : Z) (code : string) (user : user_id) (pk : nat)
    (req : RedemptionRequest) (st : Store) :
  sound st → sound (redeem now code user pk req st).2.
Proof.
  intros Hsound.
  destruct (redeem_cases now code user pk req st)
    as [(body & -> & _) | [[-> _] | (reward & wallet & _ & _ & _ & Hcan & Hw
                                     & Hsave & ->)]]; [done | done |].
  pose proof Hsound as (Hwf & _). pose proof (Hwf _ _ Hw) as Hu.
  destruct (can_redeem_true now user pk reward st Hcan)
    as (_ & wallet' & Hw' & Hspend & _).
  rewrite Hw in Hw'. injection Hw' as <-.
  rewrite <- Hu in Hw.
  pose proof (sound_wallet_spend_tokens st wallet (Decimal (fore_cost reward))
                ("Canje de recompensa: " +:+ r_title reward) REWARD_PURCHASE
                Hsound Hw) as Hsp.
  apply bool_decide_eq_true in Hspend. unfold wallet_spend_tokens in Hsp.
  rewrite (spend_tokens_ok _ _ _ _ Hspend Hsave) in Hsp.
  cbn in Hsp. revert Hsp. by apply sound_ext.
Qed.

Lemma sound_claim (title : string) (self : UserRanking) (st : Store) :
  sound st → sound (claim_reward title self st).2.
Proof.
  intros Hsound. unfold claim_reward.
  destruct (reward_claimed self || (reward_amount self =? 0)); [done |].
  destruct (wallets st !! ur_user self) as [w |] eqn:Hw; [| done].
  pose proof Hsound as (Hwf & _). pose proof (Hwf _ _ Hw) as Hu.
  rewrite <- Hu in Hw.
  pose proof (sound_wallet_add_tokens st w (Decimal (reward_amount self))
                ("Recompensa por posición " +:+ pretty (position self)
                   +:+ " en " +:+ title) ADMIN_BONUS Hsound Hw) as Hadd.
  by destruct (wallet_add_tokens w _ _ _ st) as [[b | e] st1].
Qed.

Lemma sound_handle (r : request) (st : Store) :
  sound st → sound (handle act r st).
Proof.
  intros Hsound. destruct r; cbn [handle].
  - unfold create_fore_wallet. destruct is_student; cbn [andb]; [| done].
    destruct (wallets st !! user) eqn:Hw; [done |]. by apply sound_new_wallet.
  - unfold get_object. destruct (wallets st !! user) eqn:Hw; [done |].
    by apply sound_new_wallet.
  - by apply sound_check_achievements.
  - by apply sound_save_lesson.
  - by apply sound_save_quiz.
  - by apply sound_save_course.
  - by apply sound_redeem.
  - by apply sound_claim.
Qed.

Lemma sound_serve (reqs : list request) :
  ∀ st, sound st → sound (serve act reqs st).
Proof.
  induction reqs as [| r reqs IH]; intros st Hsound; [done |].
  apply IH. by apply sound_handle.
Qed.

End soundness_of_requests.

Lemma sound_aula : sound aula.
Proof.
  apply (sound_new_wallet (mkStore ∅ [] [] [] ∅ []) 1); [done |].
  by apply sound_empty.
Qed.

(** X1 — conservation across the application.  Whatever requests are
    served from a sound store — registrations, wallet views, achievement
    evaluations, saves of lesson progress, quiz attempts and enrollments,
    redemptions, reward claims — every wallet ends with
    [balance = total_earned - total_spent]. *)
Theorem every_wallet_stays_conserved (act : Activity) (reqs : list request)
    (st : Store) (u : user_id) (w : FOREWallet) :
  sound st →
  wallets (serve act reqs st) !! u = Some w →
  balance w = total_earned w - total_spent w.
Proof.
  intros Hsound Hw.
  destruct (sound_serve act reqs st Hsound) as (_ & Hc & _). by eapply Hc.
Qed.

Lemma every_wallet_stays_conserved_witness :
  ∃ w, wallets (serve no_activity jornada aula) !! 1%nat = Some w
       ∧ balance w = total_earned w - total_spent w.
Proof.
  eexists. split; [reflexivity |].
  apply (every_wallet_stays_conserved no_activity jornada aula 1 _ sound_aula).
  reflexivity.
Defined.

(** X2 — transaction chains across the application.  After any requests
    served from a sound store, each user's rows in creation order satisfy
    [balance_after[0] = amount[0]] and
    [balance_after[i+1] = balance_after[i] + amount[i+1]], and the last
    [balance_after] is the balance of the user's wallet. *)
Theorem every_user_chain_holds (act : Activity) (reqs : list request)
    (st : Store) (u : user_id) :
  sound st →
  let rows := rows_of u (serve act reqs st) in
  (∀ tx, rows !! 0%nat = Some tx → balance_after tx = amount tx)
  ∧ (∀ i prev tx, rows !! i = Some prev → rows !! S i = Some tx →
       balance_after tx = balance_after prev + amount tx)
  ∧ (∀ tx, last rows = Some tx →
       balance_after tx = balance_of (serve act reqs st) u).
Proof.
  intros Hsound rows.
  destruct (sound_serve act reqs st Hsound) as (_ & _ & _ & Hch).
  destruct (Hch u) as [Hchain Hlast]. fold rows in Hchain, Hlast.
  split; [| split].
  - intros tx H0. rewrite (chain_lookup _ _ _ _ Hchain H0). lia.
  - intros i prev tx Hi HSi. rewrite (chain_lookup _ _ _ _ Hchain HSi).
    by rewrite Hi.
  - intros tx Htx. rewrite <- Hlast.
    apply last_Some in Htx as [l' ->].
    by rewrite last_balance_snoc.
Qed.

Lemma every_user_chain_holds_witness :
  balance_after <$> rows_of 1 (serve no_activity jornada aula)
    = [1000; 2000; 4000]
  ∧ ∀ tx, last (rows_of 1 (serve no_activity jornada aula)) = Some tx →
          balance_after tx = balance_of (serve no_activity jornada aula) 1.
Proof.
  split; [reflexivity |].
  apply (every_user_chain_holds no_activity jornada aula 1 sound_aula).
Defined.

(** X3 — no overdraft across the application.  After any requests served
    from a sound store, every wallet's available balance
    ([balance - frozen_amount]) is still not negative. *)
Theorem no_wallet_is_overdrawn (act : Activity) (reqs : list request)
    (st : Store) (u : user_id) (w : FOREWallet) :
  sound st →
  wallets (serve act reqs st) !! u = Some w →
  0 ≤ available_balance w.
Proof.
  intros Hsound Hw.
  destruct (sound_serve act reqs st Hsound) as (_ & _ & Hs & _). by eapply Hs.
Qed.

Lemma sound_tienda : sound tienda.
Proof.
  apply (sound_wallet_add_tokens
           (mkStore {[ 1%nat := new_wallet 1 ]} [] [] [] {[ 7%nat := webinar ]} [])
           (new_wallet 1) 100000 "Bono de bienvenida" ADMIN_BONUS);
    [| done].
  apply (sound_new_wallet (mkStore ∅ [] [] [] {[ 7%nat := webinar ]} []) 1);
    [done |].
  by apply sound_empty.
Qed.

Lemma no_wallet_is_overdrawn_witness :
  ∃ w, wallets (serve no_activity
                  [Redeem 0 "A1B2C3D4" 1 7 (mkRequest (Some 7%nat) None None);
                   Redeem 0 "E5F6G7H8" 1 7 (mkRequest (Some 7%nat) None None)] tienda)
         !! 1%nat = Some w
       ∧ 0 ≤ available_balance w.
Proof.
  eexists. split; [reflexivity |].
  apply (no_wallet_is_overdrawn no_activity
           [Redeem 0 "A1B2C3D4" 1 7 (mkRequest (Some 7%nat) None None);
            Redeem 0 "E5F6G7H8" 1 7 (mkRequest (Some 7%nat) None None)] tienda 1 _
           sound_tienda).
  reflexivity.
Defined.

(** ** Ranking rewards *)

Section ranking_rewards.

(** X4 — a ranking reward is claimed at most once.  Whatever the first
    [claim_reward] on a ranking row did, a second one on the same row
    returns False and changes neither the store nor the table. *)
Theorem claim_twice_credits_once (title : string) (i : nat)
    (rows : list UserRanking) (st : Store) :
  let '(_, rows1, st1) := claim_at title i rows st in
  claim_at title i rows1 st1 = (false, rows1, st1).
Proof.
  unfold claim_at. destruct (rows !! i) as [self |] eqn:Hi.
  2: { by rewrite Hi. }
  unfold claim_reward.
  destruct (reward_claimed self || (reward_amount self =? 0)) eqn:Hskip.
  { by rewrite Hi, Hskip. }
  destruct (wallets st !! ur_user self) as [w |] eqn:Hw.
  2: { by rewrite Hi, Hskip, Hw. }
  unfold wallet_add_tokens.
  destruct (add_tokens w _ _ _) as [[[w' tx] b] | e] eqn:Hadd.
  - cbn. rewrite list_lookup_insert_eq by (by eapply lookup_lt_Some).
    by cbn.
  - cbn. rewrite Hi, Hskip, Hw. unfold wallet_add_tokens. by rewrite Hadd.
Qed.

(** X5 — what a successful claim does.  For an unclaimed row with a
    positive reward whose user has a wallet with room for it (balance and
    [total_earned] stay below 10^10), [claim_reward] returns True, marks the
    row claimed, raises the wallet's balance and [total_earned] by the
    reward and appends one [admin_bonus] transaction of that amount. *)
Theorem claim_credits_the_position_reward (title : string)
    (self : UserRanking) (w : FOREWallet) (st : Store) :
  reward_claimed self = false →
  0 < reward_amount self →
  wallets st !! ur_user self = Some w →
  w_user w = ur_user self →
  room_for_credit w (Decimal (reward_amount self)) →
  ∃ tx st',
    claim_reward title self st = (true, with_reward_claimed self, st')
    ∧ wallets st' !! ur_user self
      = Some (mkWallet (ur_user self)
                (balance w + Decimal (reward_amount self))
                (total_earned w + Decimal (reward_amount self))
                (total_spent w) (frozen_amount w))
    ∧ transactions st' = transactions st ++ [tx]
    ∧ t_user tx = ur_user self
    ∧ transaction_type tx = ADMIN_BONUS
    ∧ amount tx = Decimal (reward_amount self)
    ∧ balance_after tx = balance w + Decimal (reward_amount self).
Proof.
  intros Hun Hpos Hw Hu [Hsave _]. unfold claim_reward. rewrite Hun, Hw.
  destruct (Z.eqb_spec (reward_amount self) 0) as [H0 | _]; [lia |].
  cbn [orb]. unfold wallet_add_tokens.
  rewrite add_tokens_ok by (done || (unfold Decimal; lia)).
  unfold bind, modify, ret. cbn [fst snd].
  do 2 eexists. split; [reflexivity |]. cbn.
  rewrite Hu, lookup_insert_eq. repeat split; done.
Qed.

Lemma claim_credits_the_position_reward_witness :
  ∃ tx st',
    claim_reward "Ranking FORE Semanal"
      (mkUserRanking 1 1 100000 false 200) aula
    = (true, mkUserRanking 1 1 100000 true 200, st')
    ∧ transactions st' = [tx] ∧ amount tx = 20000.
Proof.
  destruct (claim_credits_the_position_reward "Ranking FORE Semanal"
              (mkUserRanking 1 1 100000 false 200) (new_wallet 1) aula)
    as (tx & st' & Hrun & _ & Htxs & _ & _ & Hamt & _);
    [reflexivity | reflexivity | reflexivity | reflexivity
    | split; reflexivity |].
  exists tx, st'. split; [exact Hrun |]. split; [exact Htxs | exact Hamt].
Defined.

(** X6 — the reward of a ranking row follows its position: the
    leaderboard's first, second and third place rewards for positions 1, 2
    and 3, nothing from position 4 on; and every row written by
    [update_rankings] is unclaimed, whatever was claimed before the
    recompute. *)
Theorem recompute_sets_rewards_and_clears_claims (self : Leaderboard)
    (d : Scores) (users : list user_id) (r : UserRanking) :
  r ∈ update_rankings self d users →
  reward_claimed r = false
  ∧ reward_amount r =
      match position r with
      | 1%nat => first_place_reward self
      | 2%nat => second_place_reward self
      | 3%nat => third_place_reward self
      | _ => 0
      end.
Proof.
  unfold update_rankings. generalize 1%nat.
  generalize (take (max_positions self) (sort_desc (user_scores self d users))).
  intros l. induction l as [| [u sc] l IH]; intros start Hr.
  - by apply elem_of_nil in Hr.
  - cbn [create_rankings] in Hr. apply elem_of_cons in Hr as [-> | Hr].
    + unfold UserRanking_save. cbn.
      by destruct start as [| [| [| [| n]]]].
    + by apply (IH (S start)).
Qed.

Lemma recompute_sets_rewards_and_clears_claims_witness :
  reward_claimed (mkUserRanking 1 1 100000 false 1000) = false
  ∧ reward_amount (mkUserRanking 1 1 100000 false 1000) = 1000.
Proof.
  apply (recompute_sets_rewards_and_clears_claims tokens_board un_ganador
           [2; 1]%nat (mkUserRanking 1 1 100000 false 1000)).
  vm_compute. apply list_elem_of_singleton. reflexivity.
Defined.

End ranking_rewards.

Section ranking_members.

Lemma NoDup_fst_user_scores (self : Leaderboard) (d : Scores)
    (users : list user_id) :
  NoDup users → NoDup ((user_scores self d users).*1).
Proof.
  unfold user_scores. induction 1 as [| u users Hu Hnd IH]; [constructor |].
  rewrite fmap_cons, filter_cons. case_decide; [| done].
  rewrite fmap_cons. cbn [fst]. constructor; [| done].
  intros Hin. apply Hu.
  apply list_elem_of_fmap in Hin as ([u' sc] & -> & Hin').
  apply list_elem_of_filter in Hin' as [_ Hin'].
  apply list_elem_of_fmap in Hin' as (u'' & [= -> ->] & Hin''). done.
Qed.

(** X7 — nobody is ranked twice.  When the user query returns every
    student once, [update_rankings] writes at most one row per user, so the
    (leaderboard, user) uniqueness of the ranking table is never hit. *)
Theorem ranking_has_one_row_per_user (self : Leaderboard) (d : Scores)
    (users : list user_id) :
  NoDup users → NoDup (ur_user <$> update_rankings self d users).
Proof.
  intros Hnd. unfold update_rankings.
  destruct (create_rankings_columns self
              (take (max_positions self) (sort_desc (user_scores self d users))) 1)
    as [_ Hent].
  assert (Hus : ur_user <$> create_rankings self 1
                  (take (max_positions self)
                     (sort_desc (user_scores self d users)))
                = (take (max_positions self)
                     (sort_desc (user_scores self d users))).*1).
  { rewrite <- Hent at 2. rewrite <- list_fmap_compose.
    by apply list_fmap_ext. }
  rewrite Hus, fmap_take.
  eapply sublist_NoDup; [| apply sublist_take].
  rewrite (sort_desc_perm (user_scores self d users)).
  by apply NoDup_fst_user_scores.
Qed.

Lemma ranking_has_one_row_per_user_witness :
  NoDup (ur_user <$> update_rankings lessons_board five_lessons_each
                       [1; 2; 3]%nat).
Proof.
  apply (ranking_has_one_row_per_user lessons_board five_lessons_each
           [1; 2; 3]%nat).
  apply NoDup_cons. split.
  { intros Hin. apply elem_of_cons in Hin as [Hin | Hin]; [discriminate |].
    apply list_elem_of_singleton in Hin. discriminate. }
  apply NoDup_cons. split.
  { intros Hin. apply list_elem_of_singleton in Hin. discriminate. }
  apply NoDup_singleton.
Defined.

(** X8 — a streak leaderboard ranks nobody.  [update_rankings] has no
    branch for the [streak_days] category, every score stays 0 and no row
    is written, whatever the users and their activity. *)
Theorem streak_leaderboard_is_empty (self : Leaderboard) (d : Scores)
    (users : list user_id) :
  category self = STREAK_DAYS → update_rankings self d users = [].
Proof.
  intros Hcat. unfold update_rankings.
  assert (Hnone : user_scores self d users = []).
  { assert (Hzero : ∀ u, score_of self d u = 0).
    { intros u. unfold score_of. by rewrite Hcat. }
    unfold user_scores. induction users as [| u users IH]; [done |].
    rewrite fmap_cons, filter_cons, Hzero.
    cbn [snd]. case_decide; [lia | done]. }
  rewrite Hnone. by destruct (max_positions self).
Qed.

Lemma streak_leaderboard_is_empty_witness :
  update_rankings rachas_activas five_lessons_each [1; 2]%nat = [].
Proof.
  apply (streak_leaderboard_is_empty rachas_activas five_lessons_each
           [1; 2]%nat).
  reflexivity.
Defined.

End ranking_members.

(** ** Completion receivers: edge cases *)

Section receivers.
Context (act : Activity).

Lemma save_course_enrollment_credits (student : user_id) (course : Course)
    (st : Store) :
  wf_wallets st →
  0 < c_fore_tokens_reward course →
  has_room st student (Decimal (c_fore_tokens_reward course)) →
  let reward := Decimal (c_fore_tokens_reward course) in
  let st' := save_course_enrollment act student course true st in
  wf_wallets st'
  ∧ credits_of student COURSE_COMPLETED reward st'
    = S (credits_of student COURSE_COMPLETED reward st)
  ∧ lifetime_tokens_earned st student + reward
    ≤ lifetime_tokens_earned st' student
  ∧ balance_of st student + reward ≤ balance_of st' student
  ∧ ∃ tx, transactions st' !! length (transactions st) = Some tx
          ∧ t_user tx = student
          ∧ transaction_type tx = COURSE_COMPLETED
          ∧ amount tx = reward
          ∧ balance_after tx = balance_of st student + reward.
Proof.
  intros Hwf Hpos (w & Hw & Hsave & _) reward st'. subst st'.
  unfold save_course_enrollment, reward_course_completion. simpl.
  rewrite Hw. destruct (Z.ltb_spec 0 (c_fore_tokens_reward course)); [| lia].
  match goal with |- context [?m st] => destruct (m st) as [r st'] eqn:Hrun end.
  simpl.
  eapply credit_then_check in Hrun
    as (Hwf' & _ & Hc & Hl & Hb & tx & Htx & Hcore);
    [| done | exact Hw | unfold Decimal; lia | exact Hsave | done | done].
  repeat split; try done. exists tx. unfold Ledger.core in Hcore.
  injection Hcore as -> -> -> -> _. done.
Qed.

(** X9 — a completed course is paid again on every save.  The marker
    [_course_just_completed] lives on the Python object only: each save of
    a freshly loaded enrollment whose status is completed credits the
    course reward once more, as long as the student's wallet has room for
    it.  [n] such saves leave [n] more [course_completed] credits of that
    amount, each a row whose [balance_after] is the balance before that
    save plus the reward, and raise the balance and the lifetime earnings
    by at least [n] times the reward. *)
Theorem completed_course_credited_on_every_fresh_save (student : user_id)
    (course : Course) (st : Store) (n : nat) :
  wf_wallets st →
  0 < c_fore_tokens_reward course →
  let reward := Decimal (c_fore_tokens_reward course) in
  let save := save_course_enrollment act student course true in
  (∀ k, (k < n)%nat → has_room (Nat.iter k save st) student reward) →
  credits_of student COURSE_COMPLETED reward (Nat.iter n save st)
    = (credits_of student COURSE_COMPLETED reward st + n)%nat
  ∧ balance_of st student + Z.of_nat n * reward
    ≤ balance_of (Nat.iter n save st) student
  ∧ lifetime_tokens_earned st student + Z.of_nat n * reward
    ≤ lifetime_tokens_earned (Nat.iter n save st) student
  ∧ ∀ k, (k < n)%nat →
      ∃ tx, transactions (Nat.iter (S k) save st)
              !! length (transactions (Nat.iter k save st)) = Some tx
            ∧ t_user tx = student
            ∧ transaction_type tx = COURSE_COMPLETED
            ∧ amount tx = reward
            ∧ balance_after tx
              = balance_of (Nat.iter k save st) student + reward.
Proof.
  intros Hwf Hpos reward save Hroom.
  apply (iter_credits save student COURSE_COMPLETED reward st n Hwf); [| done].
  intros y Hy Hr. by apply (save_course_enrollment_credits student course y).
Qed.

(** X10 — without a wallet the reward of a completion is not paid.  When
    the student has no wallet, each of the three completion receivers only
    creates an empty wallet: no transaction is written and the
    achievements are not evaluated. *)
Theorem completion_without_wallet_only_creates_it (student : user_id)
    (lesson : Lesson) (quiz : Quiz) (course : Course) (st : Store) :
  wallets st !! student = None →
  let st' := set_wallets (insert student (new_wallet student)) st in
  save_lesson_progress act student lesson true st = st'
  ∧ save_quiz_attempt act student quiz true true st = st'
  ∧ save_course_enrollment act student course true st = st'
  ∧ transactions st' = transactions st
  ∧ user_achievements st' = user_achievements st
  ∧ balance_of st' student = 0.
Proof.
  intros Hnone st'.
  unfold save_lesson_progress, save_quiz_attempt, save_course_enrollment,
    reward_lesson_completion, reward_quiz_completion, reward_course_completion.
  cbn. rewrite Hnone. unfold balance_of, st'. cbn.
  by rewrite lookup_insert_eq.
Qed.

(** A save that is not a completion does nothing.  Saving a lesson
    progress that is not completed, a quiz attempt that is not both passed
    and completed, or an enrollment whose status is not completed leaves
    the store as it was. *)
Theorem save_without_completion_changes_nothing (student : user_id)
    (lesson : Lesson) (quiz : Quiz) (course : Course) (passed completed : bool)
    (st : Store) :
  save_lesson_progress act student lesson false st = st
  ∧ save_course_enrollment act student course false st = st
  ∧ (passed && completed = false →
     save_quiz_attempt act student quiz passed completed st = st).
Proof.
  split; [done |]. split; [done |].
  unfold save_quiz_attempt, reward_quiz_completion. cbn.
  by destruct passed, completed.
Qed.

End receivers.

Lemma completed_course_credited_on_every_fresh_save_witness :
  credits_of 1 COURSE_COMPLETED 10000
    (Nat.iter 3 (save_course_enrollment no_activity 1 ingles_basico true) aula)
  = 3%nat
  ∧ 30000 ≤ balance_of
              (Nat.iter 3 (save_course_enrollment no_activity 1 ingles_basico
                             true) aula) 1.
Proof.
  assert (Hwf : wf_wallets aula).
  { intros u w Hw. unfold aula in Hw. simpl in Hw.
    apply lookup_singleton_Some in Hw as [<- <-]. done. }
  destruct (completed_course_credited_on_every_fresh_save no_activity 1
              ingles_basico aula 3 Hwf eq_refl) as (Hc & Hb & _).
  { intros [| [| [| k]]] Hk; [| | | lia];
      (eexists; split; [reflexivity | split; reflexivity]). }
  split; [exact Hc | exact Hb].
Defined.

Lemma completion_without_wallet_only_creates_it_witness :
  save_lesson_progress one_lesson 1 saludos true sin_billetera
  = set_wallets (insert 1%nat (new_wallet 1)) sin_billetera.
Proof.
  apply (completion_without_wallet_only_creates_it one_lesson 1 saludos
           quiz_saludos ingles_basico sin_billetera).
  reflexivity.
Defined.

Lemma save_without_completion_changes_nothing_witness :
  save_quiz_attempt no_activity 1 quiz_saludos false true aula = aula.
Proof.
  apply (save_without_completion_changes_nothing no_activity 1 saludos
           quiz_saludos ingles_basico false true aula).
  reflexivity.
Defined.

(** ** Marketplace counters *)

Section marketplace.
Context (now : Z) (code : string) (user : user_id) (pk : nat)
        (req : RedemptionRequest).

Lemma available_reward_has_stock (reward : Reward) (stock : Z) :
  reward_is_available now reward = true →
  stock_quantity reward = Some stock → 0 < stock.
Proof.
  unfold reward_is_available. intros Hav Hst. rewrite Hst in Hav.
  destruct (negb (r_is_active reward)); [done |].
  destruct (match available_from reward with
            | Some from => now <? from | None => false end); [done |].
  destruct (match available_until reward with
            | Some until => until <? now | None => false end); [done |].
  destruct (Z.leb_spec stock 0); [done | lia].
Qed.

Lemma can_redeem_below_limit (reward : Reward) (st : Store) :
  (can_redeem now pk reward user st).1 = true →
  truthy (max_per_user reward) = true →
  user_redemptions st user pk < default 0 (max_per_user reward).
Proof.
  unfold can_redeem. intros Hcan Htr. rewrite Htr in Hcan.
  destruct (negb (reward_is_available now reward)); [done |].
  destruct (wallets st !! user); [| done].
  destruct (negb (can_spend _ _)); [done |]. cbn [andb] in Hcan.
  destruct (Z.leb_spec (default 0 (max_per_user reward))
              (user_redemptions st user pk)); [done | lia].
Qed.

(** X11 — stock never goes below zero.  If every finite stock is
    non-negative before a redemption request, it is so after it, whatever
    the response. *)
Theorem redeem_keeps_stock_non_negative (st : Store) :
  stock_ok st → stock_ok (redeem now code user pk req st).2.
Proof.
  intros Hok.
  destruct (redeem_cases now code user pk req st)
    as [(body & -> & _) | [[-> _] | (reward & wallet & Hr & _ & _ & Hcan & _
                                     & Hsave & ->)]]; [done | done |].
  destruct (can_redeem_true now user pk reward st Hcan) as (Hav & _).
  intros pk' reward' stock. cbn.
  destruct (decide (pk = pk')) as [<- | Hne].
  - rewrite lookup_insert_eq. intros [= <-]. cbn.
    destruct (stock_quantity reward) as [q |] eqn:Hq; [| done].
    intros [= <-]. pose proof (available_reward_has_stock reward q Hav Hq). lia.
  - rewrite lookup_insert_ne by done. apply Hok.
Qed.


(** X13 — the per-user limit is never exceeded.  If no user holds more
    redemptions of a reward than its [max_per_user] before a redemption
    request, none does after it. *)
Theorem redeem_keeps_per_user_limit (st : Store) :
  within_limits st → within_limits (redeem now code user pk req st).2.
Proof.
  intros Hok.
  destruct (redeem_cases now code user pk req st)
    as [(body & -> & _) | [[-> _] | (reward & wallet & Hr & _ & _ & Hcan & _
                                     & Hsave & ->)]]; [done | done |].
  intros pk' reward' user'. unfold user_redemptions. cbn.
  rewrite filter_app, length_app, filter_cons. cbn [rr_user rr_reward].
  destruct (decide (pk = pk')) as [<- | Hne].
  - rewrite lookup_insert_eq. intros [= <-]. cbn [max_per_user redeemed_once].
    intros Htr. pose proof (Hok _ _ user' Hr Htr) as Hold.
    unfold user_redemptions in Hold.
    destruct (decide (user = user')) as [<- | Hu].
    + rewrite decide_True by done.
      pose proof (can_redeem_below_limit reward st Hcan Htr) as Hlt.
      unfold user_redemptions in Hlt. rewrite filter_nil. cbn [length]. lia.
    + rewrite decide_False by (intros [? _]; done). rewrite filter_nil.
      cbn [length]. lia.
  - rewrite lookup_insert_ne by done. intros Hr' Htr.
    pose proof (Hok _ _ user' Hr' Htr) as Hold. unfold user_redemptions in Hold.
    rewrite decide_False by (intros [_ ?]; done). rewrite filter_nil.
    cbn [length]. lia.
Qed.

End marketplace.

Lemma tienda_rewards : rewards tienda = {[ 7%nat := webinar ]}.
Proof. reflexivity. Qed.

Lemma redeem_keeps_stock_non_negative_witness :
  stock_ok (redeem 0 "A1B2C3D4" 1 7 (mkRequest (Some 7%nat) None None) tienda).2.
Proof.
  apply (redeem_keeps_stock_non_negative 0 "A1B2C3D4" 1 7
           (mkRequest (Some 7%nat) None None) tienda).
  intros pk reward stock Hr Hs. rewrite tienda_rewards in Hr.
  apply lookup_singleton_Some in Hr as [_ <-]. injection Hs as <-. lia.
Defined.


Lemma redeem_keeps_per_user_limit_witness :
  within_limits (redeem 0 "A1B2C3D4" 1 7 (mkRequest (Some 7%nat) None None) tienda).2.
Proof.
  apply (redeem_keeps_per_user_limit 0 "A1B2C3D4" 1 7
           (mkRequest (Some 7%nat) None None) tienda).
  intros pk reward user Hr _. rewrite tienda_rewards in Hr.
  apply lookup_singleton_Some in Hr as [_ <-]. unfold user_redemptions.
  change (redemptions tienda) with (@nil RewardRedemption).
  rewrite filter_nil. cbn. lia.
Defined.



(** ** Achievement capacity and outcome of an evaluation *)

Section capacity.
Context (act : Activity) (user : user_id).

Lemma check_achievement_available (a : Achievement) (st : Store) :
  check_achievement act a user st = true → is_available a st = true.
Proof.
  unfold check_achievement. destruct (has_grant st user (a_id a)); [done |].
  by destruct (is_available a st).
Qed.

Lemma available_below_cap (a : Achievement) (st : Store) :
  is_available a st = true → truthy (max_recipients a) = true →
  recipients_count a st < default 0 (max_recipients a).
Proof.
  unfold is_available. intros Hav Htr. rewrite Htr in Hav.
  destruct (negb (is_active a)); [done |]. cbn [andb] in Hav.
  destruct (Z.leb_spec (default 0 (max_recipients a)) (recipients_count a st));
    [done | lia].
Qed.

Lemma distinct_ids_eq (l : list Achievement) (a b : Achievement) :
  NoDup (a_id <$> l) → a ∈ l → b ∈ l → a_id a = a_id b → a = b.
Proof.
  induction l as [| x l IH]; [by intros _ Ha; apply elem_of_nil in Ha |].
  rewrite fmap_cons, NoDup_cons. intros [Hx Hnd] Ha Hb Hid.
  apply elem_of_cons in Ha as [-> | Ha], Hb as [-> | Hb]; try done.
  - destruct Hx. rewrite Hid. by apply list_elem_of_fmap_2.
  - destruct Hx. rewrite <- Hid. by apply list_elem_of_fmap_2.
  - by apply IH.
Qed.

Lemma create_keeps_capacity (a0 : Achievement) (p : Progress) (st : Store) :
  wf_wallets st → distinct_ids st → a0 ∈ achievements st →
  check_achievement act a0 user st = true →
  within_capacity st →
  within_capacity (UserAchievement_create user a0 p st).2.
Proof.
  intros Hwf Hids Ha0 Hchk Hcap.
  destruct (UserAchievement_create user a0 p st) as [r st'] eqn:Hrun.
  destruct (create_effect _ _ _ _ _ _ Hrun Hwf)
    as (Hcat & _ & _ & [[Hrows _] | [_ Hrows]]); cbn [snd];
    intros a Ha Htr; rewrite Hcat in Ha;
    pose proof (Hcap a Ha Htr) as Hold; unfold recipients_count in *;
    rewrite Hrows; [done |].
  rewrite filter_app, length_app, filter_cons. cbn [ua_achievement].
  case_decide as Hid; rewrite filter_nil; cbn [length]; [| lia].
  assert (a = a0) as -> by (by apply (distinct_ids_eq (achievements st))).
  pose proof (available_below_cap a0 st
                (check_achievement_available _ _ Hchk) Htr) as Hlt.
  unfold recipients_count in Hlt. lia.
Qed.

Lemma check_each_keeps_capacity (activity : string) (l : list Achievement) :
  ∀ st,
    wf_wallets st → distinct_ids st → (∀ a, a ∈ l → a ∈ achievements st) →
    within_capacity st →
    within_capacity (check_each act user activity l st).2.
Proof.
  induction l as [| a0 l IH]; intros st Hwf Hids Hsub Hcap; [done |].
  cbn [check_each].
  assert (Ha0 : a0 ∈ achievements st) by (apply Hsub, elem_of_cons; by left).
  assert (Hsub' : ∀ a, a ∈ l → a ∈ achievements st).
  { intros a Ha. apply Hsub, elem_of_cons. by right. }
  destruct (check_achievement act a0 user st) eqn:Hchk; [| by apply IH].
  unfold bind.
  pose proof (create_keeps_capacity a0 (progress_of act user activity st) st
                Hwf Hids Ha0 Hchk Hcap) as Hcap1.
  destruct (UserAchievement_create user a0 _ st) as [r st1] eqn:Hrun.
  destruct (create_effect _ _ _ _ _ _ Hrun Hwf) as (Hcat & Hwf1 & _).
  destruct r as [row | e]; [| done].
  apply IH; try done.
  - unfold distinct_ids. by rewrite Hcat.
  - intros a Ha. rewrite Hcat. by apply Hsub'.
Qed.

(** X15 — a capped achievement is never over-granted.  If no achievement
    with a (non-zero) [max_recipients] has more grants than its cap before
    an evaluation, none has after it, whatever the outcome. *)
Theorem evaluation_respects_max_recipients (activity : string) (st : Store) :
  wf_wallets st → distinct_ids st → within_capacity st →
  within_capacity (check_achievements_for_user act user activity st).2.
Proof.
  intros Hwf Hids Hcap. unfold check_achievements_for_user.
  apply check_each_keeps_capacity; try done.
  intros a Ha. unfold available_achievements in Ha.
  by apply list_elem_of_filter in Ha as [_ Ha].
Qed.

Lemma create_outcome (a : Achievement) (p : Progress) (st : Store) :
  check_achievement act a user st = true →
  ((UserAchievement_create user a p st).1 = Raise InvalidAmount
   ∨ (UserAchievement_create user a p st).1 = Raise InvalidOperation
   ∨ ∃ row, (UserAchievement_create user a p st).1 = Ok row)
  ∧ (0 < fore_tokens_reward a →
     (UserAchievement_create user a p st).1 ≠ Raise InvalidAmount).
Proof.
  intros Hchk. pose proof (has_grant_false_check _ _ _ _ Hchk) as Hng.
  unfold UserAchievement_create, UserAchievement_save. cbn [truthy].
  rewrite Hng. unfold bind, modify, reward_achievement_earned. cbn.
  destruct (wallets st !! user) as [w |].
  - unfold wallet_add_tokens. split_add_tokens Hamt Hsave; cbn.
    + split; [by left |]. unfold Decimal in Hamt. lia.
    + split; [right; by left | done].
    + split; [right; right; by eexists | done].
  - cbn. split; [right; right; by eexists | done].
Qed.

Lemma check_each_outcome (activity : string) (l : list Achievement) :
  ∀ st,
    ((check_each act user activity l st).1 = Ok tt
     ∨ (check_each act user activity l st).1 = Raise InvalidAmount
     ∨ (check_each act user activity l st).1 = Raise InvalidOperation)
    ∧ (Forall (λ a, 0 < fore_tokens_reward a) l →
       (check_each act user activity l st).1 ≠ Raise InvalidAmount).
Proof.
  induction l as [| a l IH]; intros st; [split; [by left | done] |].
  cbn [check_each].
  destruct (check_achievement act a user st) eqn:Hchk.
  2: { destruct (IH st) as [H1 H2]. split; [done |].
       intros Hall. apply H2. by apply Forall_cons in Hall as [_ ?]. }
  unfold bind.
  destruct (create_outcome a (progress_of act user activity st) st Hchk)
    as [Hany Hpos].
  destruct (UserAchievement_create user a _ st) as [[row | e] st1]; cbn in *.
  - destruct (IH st1) as [H1 H2]. split; [done |].
    intros Hall. apply H2. by apply Forall_cons in Hall as [_ ?].
  - split.
    + destruct Hany as [[= ->] | [[= ->] | [row [=]]]]; auto.
    + intros Hall. apply Forall_cons in Hall as [Ha _].
      intros [= ->]. by apply (Hpos Ha).
Qed.

Lemma catalog_rewards_cons (a : Achievement) (l : list Achievement) :
  catalog_rewards (a :: l)
  = Z.max 0 (Decimal (fore_tokens_reward a)) + catalog_rewards l.
Proof. reflexivity. Qed.

Lemma catalog_rewards_nonneg (l : list Achievement) : 0 ≤ catalog_rewards l.
Proof.
  induction l as [| a l IH]; [done |]. rewrite catalog_rewards_cons. lia.
Qed.

Lemma catalog_rewards_filter (P : Achievement → Prop)
    `{!∀ a, Decision (P a)} (l : list Achievement) :
  catalog_rewards (filter P l) ≤ catalog_rewards l.
Proof.
  induction l as [| a l IH]; [done |].
  rewrite filter_cons. case_decide; rewrite !catalog_rewards_cons; lia.
Qed.

(** A credit between nothing and one that fits does fit. *)
Lemma savable_between (w : FOREWallet) (x y : Z) :
  savable w = true → savable (credited_row w y) = true → 0 ≤ x ≤ y →
  savable (credited_row w x) = true.
Proof.
  rewrite !savable_spec, !fits_spec.
  unfold credited_row. cbn [balance total_earned total_spent frozen_amount].
  lia.
Qed.

Lemma savable_credited_twice (w : FOREWallet) (x y : Z) :
  savable (credited_row w (x + y)) = true →
  savable (credited_row (credited_row w x) y) = true.
Proof.
  rewrite !savable_spec, !fits_spec.
  unfold credited_row. cbn [balance total_earned total_spent frozen_amount].
  lia.
Qed.

(** With room for the reward and for [rest] more, a grant does not
    overflow and leaves room for [rest]. *)
Lemma create_leaves_room (a : Achievement) (p : Progress) (st : Store)
    (rest : Z) :
  check_achievement act a user st = true → wf_wallets st → 0 ≤ rest →
  savable (default (new_wallet user) (wallets st !! user)) = true →
  savable (credited_row (default (new_wallet user) (wallets st !! user))
             (Z.max 0 (Decimal (fore_tokens_reward a)) + rest)) = true →
  (UserAchievement_create user a p st).1 ≠ Raise InvalidOperation
  ∧ (∀ row, (UserAchievement_create user a p st).1 = Ok row →
       wf_wallets (UserAchievement_create user a p st).2
       ∧ savable (default (new_wallet user)
                    (wallets (UserAchievement_create user a p st).2 !! user))
         = true
       ∧ savable (credited_row
                    (default (new_wallet user)
                       (wallets (UserAchievement_create user a p st).2 !! user))
                    rest) = true).
Proof.
  intros Hchk Hwf Hrest Hw0 Hw1.
  pose proof (has_grant_false_check _ _ _ _ Hchk) as Hng.
  unfold UserAchievement_create, UserAchievement_save. cbn [truthy].
  rewrite Hng. unfold bind, modify, reward_achievement_earned. cbn.
  destruct (wallets st !! user) as [w |] eqn:Hw; cbn [default] in Hw0, Hw1.
  - pose proof (Hwf _ _ Hw) as Hu. unfold wallet_add_tokens.
    split_add_tokens Hamt Hsave; cbn.
    + done.
    + exfalso. rewrite Z.max_r in Hw1 by lia.
      assert (savable (credited_row w (Decimal (fore_tokens_reward a))) = true)
        as Hfit by (apply (savable_between w _ _ Hw0 Hw1); lia).
      unfold credited_row in Hfit. congruence.
    + split; [done |]. intros row _. rewrite Hu, lookup_insert_eq. cbn.
      rewrite Z.max_r in Hw1 by lia. split; [| split].
      * intros u' w'. cbn. destruct (decide (user = u')) as [<- | Hne].
        -- rewrite lookup_insert_eq. by intros [= <-].
        -- rewrite lookup_insert_ne by done. apply Hwf.
      * exact Hsave.
      * by apply (savable_credited_twice w).
  - cbn. split; [done |]. intros row _. rewrite lookup_insert_eq. cbn.
    split; [| split; [done |]].
    + intros u' w'. cbn. destruct (decide (user = u')) as [<- | Hne].
      * rewrite lookup_insert_eq. by intros [= <-].
      * rewrite lookup_insert_ne by done. apply Hwf.
    + apply (savable_between (new_wallet user) _ _ Hw0 Hw1). lia.
Qed.

Lemma check_each_no_overflow (activity : string) (l : list Achievement) :
  ∀ st,
    wf_wallets st →
    savable (default (new_wallet user) (wallets st !! user)) = true →
    savable (credited_row (default (new_wallet user) (wallets st !! user))
               (catalog_rewards l)) = true →
    (check_each act user activity l st).1 ≠ Raise InvalidOperation.
Proof.
  induction l as [| a l IH]; intros st Hwf Hw0 Hw1; [done |].
  cbn [check_each]. rewrite catalog_rewards_cons in Hw1.
  pose proof (catalog_rewards_nonneg l) as Hnn.
  destruct (check_achievement act a user st) eqn:Hchk.
  2: { apply IH; try done. apply (savable_between _ _ _ Hw0 Hw1). lia. }
  unfold bind.
  destruct (create_leaves_room a (progress_of act user activity st) st
              (catalog_rewards l) Hchk Hwf Hnn Hw0 Hw1) as [Hno Hroom].
  destruct (UserAchievement_create user a _ st) as [[row | e] st1]; cbn in *.
  - destruct (Hroom row eq_refl) as (Hwf1 & H0 & H1). by apply IH.
  - intros [= ->]. by apply Hno.
Qed.

(** X16 — how an evaluation can end.  [check_achievements_for_user]
    returns normally or raises one of two errors of [add_tokens]: the
    invalid-amount [ValueError], which needs an achievement that awards no
    tokens, or the overflow of the wallet's columns, which cannot happen
    while the wallet has room for every reward of the catalog.  It never
    runs into the unique constraint of the grant table. *)
Theorem evaluation_outcomes (activity : string) (st : Store) :
  let r := (check_achievements_for_user act user activity st).1 in
  (r = Ok tt ∨ r = Raise InvalidAmount ∨ r = Raise InvalidOperation)
  ∧ (Forall (λ a, 0 < fore_tokens_reward a) (achievements st) →
     r ≠ Raise InvalidAmount)
  ∧ (wf_wallets st → room_for_catalog st user → r ≠ Raise InvalidOperation)
  ∧ (Forall (λ a, 0 < fore_tokens_reward a) (achievements st) →
     wf_wallets st → room_for_catalog st user → r = Ok tt).
Proof.
  intros r. subst r. unfold check_achievements_for_user.
  destruct (check_each_outcome activity (available_achievements user st) st)
    as [H1 H2].
  assert (Hpos : Forall (λ a, 0 < fore_tokens_reward a) (achievements st) →
                 (check_each act user activity (available_achievements user st)
                    st).1 ≠ Raise InvalidAmount).
  { intros Hall. apply H2.
    unfold available_achievements. rewrite Forall_forall in Hall |- *.
    intros a Ha. apply list_elem_of_filter in Ha as [_ Ha]. by apply Hall. }
  assert (Hroom : wf_wallets st → room_for_catalog st user →
                  (check_each act user activity
                     (available_achievements user st) st).1
                  ≠ Raise InvalidOperation).
  { intros Hwf [Hw0 Hw1]. apply check_each_no_overflow; try done.
    apply (savable_between _ _ _ Hw0 Hw1). split.
    - apply catalog_rewards_nonneg.
    - apply catalog_rewards_filter. }
  split; [done |]. split; [done |]. split; [done |].
  intros Hall Hwf Hr. specialize (Hpos Hall). specialize (Hroom Hwf Hr).
  destruct H1 as [? | [? | ?]]; done.
Qed.

End capacity.

Lemma evaluation_respects_max_recipients_witness :
  within_capacity
    (check_achievements_for_user one_course 3 "course_completed" pioneros).2
  ∧ granted_to 3
      (check_achievements_for_user one_course 3 "course_completed" pioneros).2
    = [].
Proof.
  split; [| reflexivity].
  apply (evaluation_respects_max_recipients one_course 3 "course_completed"
           pioneros).
  - intros u w Hw. unfold pioneros in Hw. cbn in Hw.
    apply lookup_insert_Some in Hw as [[<- <-] | [_ Hw]]; [done |].
    apply lookup_insert_Some in Hw as [[<- <-] | [_ Hw]]; [done |].
    apply lookup_singleton_Some in Hw as [<- <-]. done.
  - apply NoDup_singleton.
  - intros a Ha _. apply list_elem_of_singleton in Ha as ->.
    vm_compute. discriminate.
Defined.

Lemma evaluation_outcomes_witness :
  (check_achievements_for_user fifty_lessons 1 "lesson_completed"
     (catalogo [estudiante])).1 = Ok tt.
Proof.
  apply (evaluation_outcomes fifty_lessons 1 "lesson_completed"
           (catalogo [estudiante])).
  - repeat constructor.
  - intros u w Hw. unfold catalogo in Hw. cbn in Hw.
    apply lookup_singleton_Some in Hw as [<- <-]. done.
  - split; reflexivity.
Defined.

(** X17 — lifetime earnings never drop.  Whatever requests are served, no
    user's [total_earned] (nothing for a user without wallet) ends lower
    than it started. *)
Theorem total_earned_never_decreases (act : Activity) (reqs : list request)
    (st : Store) (u : user_id) :
  wf_wallets st →
  lifetime_tokens_earned st u ≤ lifetime_tokens_earned (serve act reqs st) u.
Proof.
  intros Hwf. by destruct (later_serve st act reqs Hwf) as (_ & Hl & _).
Qed.

Lemma total_earned_never_decreases_witness :
  lifetime_tokens_earned aula 1
  ≤ lifetime_tokens_earned (serve no_activity jornada aula) 1.
Proof.
  apply (total_earned_never_decreases no_activity jornada aula 1).
  intros u w Hw. unfold aula in Hw. simpl in Hw.
  apply lookup_singleton_Some in Hw as [<- <-]. done.
Defined.

(** X18 — the transaction log is append-only in its money columns.
    Whatever requests are served, the rows that existed before are still
    there, first and in the same order, with the same user, type, amount,
    [balance_after] and description; requests only add rows after them (and
    fill in references). *)
Theorem transaction_log_only_grows (act : Activity) (reqs : list request)
    (st : Store) :
  wf_wallets st →
  ∃ new, Ledger.core <$> transactions (serve act reqs st)
         = (Ledger.core <$> transactions st) ++ new.
Proof.
  intros Hwf. by destruct (later_serve st act reqs Hwf) as (_ & _ & Hrows).
Qed.

Lemma transaction_log_only_grows_witness :
  ∃ new, Ledger.core <$> transactions
           (serve no_activity [LessonSaved 1 saludos true] aula_con_bono)
         = (Ledger.core <$> transactions aula_con_bono) ++ new.
Proof.
  apply (transaction_log_only_grows no_activity [LessonSaved 1 saludos true]
           aula_con_bono).
  intros u w Hw. unfold aula_con_bono in Hw. simpl in Hw.
  apply lookup_singleton_Some in Hw as [<- <-]. done.
Defined.

(** ** Wallet creation and ledger round trip *)

(** X19 — wallets are created empty and only once.  The wallet view
    returns the user's wallet as stored, creating an all-zero wallet when
    there is none; it never touches an existing wallet or another user's,
    and a second call finds the wallet of the first.  The registration
    receiver gives a new student an all-zero wallet and does nothing for
    other roles or for updates of an existing user. *)
Theorem wallets_are_created_empty_and_once (user : user_id) (st : Store) :
  (∀ w, wallets st !! user = Some w → get_object user st = (Ok w, st))
  ∧ (wallets st !! user = None →
     get_object user st
     = (Ok (new_wallet user), set_wallets (insert user (new_wallet user)) st))
  ∧ (∃ w, (get_object user st).1 = Ok w
          ∧ wallets (get_object user st).2 !! user = Some w
          ∧ get_object user (get_object user st).2
            = (Ok w, (get_object user st).2))
  ∧ (∀ u', u' ≠ user →
       wallets (get_object user st).2 !! u' = wallets st !! u')
  ∧ (wallets st !! user = None →
     create_fore_wallet true true user st
     = (Ok tt, set_wallets (insert user (new_wallet user)) st))
  ∧ (∀ created is_student, created && is_student = false →
       create_fore_wallet created is_student user st = (Ok tt, st)).
Proof.
  unfold get_object, create_fore_wallet.
  destruct (wallets st !! user) as [w |] eqn:Hw; cbn.
  - split; [by intros ? [= <-] |]. split; [done |]. split.
    { exists w. by rewrite Hw. }
    split; [done |]. split; [done |].
    intros created is_student ->. done.
  - split; [done |]. split; [done |]. split.
    { exists (new_wallet user). by rewrite !lookup_insert_eq. }
    split; [intros u' Hne; by rewrite lookup_insert_ne |].
    split; [intros _; by rewrite Hw |].
    intros created is_student ->. done.
Qed.

(** X20 — a credit followed by a debit of the same amount.  On a wallet
    that is not overdrawn and has room for the amount (balance,
    [total_earned] and [total_spent] stay below 10^10), crediting a positive
    amount and then debiting it both succeed; the balance is back where it
    was, while [total_earned] and [total_spent] have each grown by the
    amount and two rows of opposite amounts were written. *)
Theorem credit_then_debit_restores_balance (s : Ledger.t) (amt : Z)
    (d1 d2 : string) (t1 t2 : TransactionType) :
  0 < amt →
  0 ≤ available_balance (Ledger.wallet s) →
  room_for_credit (Ledger.wallet s) amt →
  room_for_debit (credited_row (Ledger.wallet s) amt) amt →
  ∃ s', Ledger.run s [Ledger.Credit amt d1 t1; Ledger.Debit amt d2 t2] = Some s'
        ∧ balance (Ledger.wallet s') = balance (Ledger.wallet s)
        ∧ total_earned (Ledger.wallet s') = total_earned (Ledger.wallet s) + amt
        ∧ total_spent (Ledger.wallet s') = total_spent (Ledger.wallet s) + amt
        ∧ amount <$> Ledger.log s' = (amount <$> Ledger.log s) ++ [amt; - amt].
Proof.
  intros Hpos Hav [Hcredit _] [Hdebit _]. cbn [Ledger.run Ledger.step].
  rewrite add_tokens_ok by done. cbn [Ledger.wallet Ledger.log].
  rewrite spend_tokens_ok
    by (done || (unfold available_balance in *; cbn; lia)).
  eexists. split; [reflexivity |]. cbn.
  rewrite !fmap_app, <- app_assoc. cbn. repeat split; lia.
Qed.

Lemma credit_then_debit_restores_balance_witness :
  ∃ s', Ledger.run (Ledger.fresh 1)
          [Ledger.Credit 10000 "" LESSON_COMPLETED;
           Ledger.Debit 10000 "" REWARD_PURCHASE] = Some s'
        ∧ balance (Ledger.wallet s') = 0.
Proof.
  destruct (credit_then_debit_restores_balance (Ledger.fresh 1) 10000 "" ""
              LESSON_COMPLETED REWARD_PURCHASE)
    as (s' & Hrun & Hb & _);
    [lia | vm_compute; discriminate | split; reflexivity
    | split; reflexivity |].
  exists s'. split; [exact Hrun | exact Hb].
Defined.

(** ** What the redemption view promises *)

Section redemption_view.
Context (now : Z) (code : string) (user : user_id) (pk : nat)
        (req : RedemptionRequest).


(** X22 — shipped rewards carry an address.  When the body names the
    reward of the URL, a redemption of a reward that requires shipping
    only succeeds with a non-empty delivery address, which the redemption
    row records. *)
Theorem shipped_reward_needs_address (st : Store) (reward : Reward)
    (row : RewardRedemption) :
  reward_id req = Some pk →
  rewards st !! pk = Some reward →
  requires_shipping reward = true →
  (redeem now code user pk req st).1 = HTTP_201_CREATED row →
  delivery_address row ≠ ""
  ∧ req_delivery_address req = Some (delivery_address row).
Proof.
  intros Hid Hr Hship Hrun.
  destruct (redeem_cases now code user pk req st)
    as [(body & Heq & _) | [[Heq _] | (reward0 & wallet & Hr0 & _ & Hval
                                       & _ & _ & Hsave & Heq)]];
    rewrite Heq in Hrun; try discriminate.
  rewrite Hr in Hr0. injection Hr0 as <-. injection Hrun as <-.
  unfold is_valid in Hval. rewrite Hid, Hr, Hship in Hval.
  apply andb_true_iff in Hval as [_ Hval].
  apply andb_true_iff in Hval as [_ Hval]. cbn.
  by destruct (req_delivery_address req) as [[| c s] |].
Qed.

End redemption_view.

Lemma shipped_reward_needs_address_witness :
  ∃ row,
    (redeem 0 "A1B2C3D4" 1 4 (mkRequest (Some 4%nat) (Some "Calle 1") None)
       tienda_camisetas).1 = HTTP_201_CREATED row
    ∧ delivery_address row ≠ "".
Proof.
  exists (mkRedemption 1 4 500 "Calle 1" "" "A1B2C3D4").
  split; [reflexivity |].
  apply (shipped_reward_needs_address 0 "A1B2C3D4" 1 4
           (mkRequest (Some 4%nat) (Some "Calle 1") None) tienda_camisetas camiseta
           (mkRedemption 1 4 500 "Calle 1" "" "A1B2C3D4"));
    reflexivity.
Defined.

(** A body whose phone number has 21 characters does not validate: the
    view answers 400 with the serializer's errors and writes nothing. *)
Example over_long_phone_is_refused :
  redeem 0 "A1B2C3D4" 1 7
    (mkRequest (Some 7%nat) None (Some "123456789012345678901")) tienda
  = (HTTP_400_BAD_REQUEST serializer_errors, tienda).
Proof. reflexivity. Qed.
